(** * Batch / job orchestration of the podcast-search backend

    A shallow embedding of the orchestration core of [backend/app]:

    - the [Batch] and [Job] rows ([models/batch.py], [models/job.py]);
    - the batch and job HTTP routes ([routers/batches.py], [routers/jobs.py]);
    - the background controller ([workers/batch_processor.py]);
    - the pipeline executor ([workers/pipeline.py]) and the Celery tasks
      ([tasks/transcription.py]);
    - the circuit breaker ([utils/retry.py]).

    Conventions.  Python integers are [Z]; UUIDs are [Z] keys; a nullable
    column is an [option]; [datetime.utcnow()] is a clock value handed to the
    operation as [now : Z]; a status stays the string the code stores.  The
    bookkeeping columns [name], [config], [created_at] and [updated_at] are
    not read by any operation below and are left out of the rows.  A route
    that raises [HTTPException] never reaches [db.commit()], so it returns
    the store it was given. *)

From Stdlib Require Import ZArith List String Bool Lia QArith Permutation.
From stdpp Require Import base option list gmap strings.

Local Open Scope Z_scope.
Local Open Scope string_scope.

(** ** Rows *)

Module Batch.

Record t : Type := mk {
  id : Z;
  provider : string;
  concurrency : Z;
  total_episodes : Z;
  completed_episodes : Z;
  failed_episodes : Z;
  actual_cost_cents : Z;
  status : string;
  started_at : option Z;
  paused_at : option Z;
  completed_at : option Z
}.

Definition set_status (v : string) (b : t) : t :=
  mk (id b) (provider b) (concurrency b) (total_episodes b)
     (completed_episodes b) (failed_episodes b) (actual_cost_cents b)
     v (started_at b) (paused_at b) (completed_at b).

Definition set_started_at (v : option Z) (b : t) : t :=
  mk (id b) (provider b) (concurrency b) (total_episodes b)
     (completed_episodes b) (failed_episodes b) (actual_cost_cents b)
     (status b) v (paused_at b) (completed_at b).

Definition set_paused_at (v : option Z) (b : t) : t :=
  mk (id b) (provider b) (concurrency b) (total_episodes b)
     (completed_episodes b) (failed_episodes b) (actual_cost_cents b)
     (status b) (started_at b) v (completed_at b).

Definition set_completed_at (v : option Z) (b : t) : t :=
  mk (id b) (provider b) (concurrency b) (total_episodes b)
     (completed_episodes b) (failed_episodes b) (actual_cost_cents b)
     (status b) (started_at b) (paused_at b) v.

Definition set_completed_episodes (v : Z) (b : t) : t :=
  mk (id b) (provider b) (concurrency b) (total_episodes b)
     v (failed_episodes b) (actual_cost_cents b)
     (status b) (started_at b) (paused_at b) (completed_at b).

Definition set_failed_episodes (v : Z) (b : t) : t :=
  mk (id b) (provider b) (concurrency b) (total_episodes b)
     (completed_episodes b) v (actual_cost_cents b)
     (status b) (started_at b) (paused_at b) (completed_at b).

Definition set_actual_cost_cents (v : Z) (b : t) : t :=
  mk (id b) (provider b) (concurrency b) (total_episodes b)
     (completed_episodes b) (failed_episodes b) v
     (status b) (started_at b) (paused_at b) (completed_at b).

End Batch.

Module Job.

Record t : Type := mk {
  id : Z;
  batch_id : option Z;
  episode_id : Z;
  provider : string;
  provider_job_id : option string;
  status : string;
  progress : Z;
  current_step : option string;
  error_message : option string;
  error_code : option string;
  retry_count : Z;
  cost_cents : option Z;
  started_at : option Z;
  completed_at : option Z
}.

Definition set_status (v : string) (j : t) : t :=
  mk (id j) (batch_id j) (episode_id j) (provider j) (provider_job_id j)
     v (progress j) (current_step j) (error_message j) (error_code j)
     (retry_count j) (cost_cents j) (started_at j) (completed_at j).

Definition set_provider_job_id (v : option string) (j : t) : t :=
  mk (id j) (batch_id j) (episode_id j) (provider j) v
     (status j) (progress j) (current_step j) (error_message j)
     (error_code j) (retry_count j) (cost_cents j) (started_at j)
     (completed_at j).

Definition set_progress (v : Z) (j : t) : t :=
  mk (id j) (batch_id j) (episode_id j) (provider j) (provider_job_id j)
     (status j) v (current_step j) (error_message j) (error_code j)
     (retry_count j) (cost_cents j) (started_at j) (completed_at j).

Definition set_current_step (v : option string) (j : t) : t :=
  mk (id j) (batch_id j) (episode_id j) (provider j) (provider_job_id j)
     (status j) (progress j) v (error_message j) (error_code j)
     (retry_count j) (cost_cents j) (started_at j) (completed_at j).

Definition set_error_message (v : option string) (j : t) : t :=
  mk (id j) (batch_id j) (episode_id j) (provider j) (provider_job_id j)
     (status j) (progress j) (current_step j) v (error_code j)
     (retry_count j) (cost_cents j) (started_at j) (completed_at j).

Definition set_error_code (v : option string) (j : t) : t :=
  mk (id j) (batch_id j) (episode_id j) (provider j) (provider_job_id j)
     (status j) (progress j) (current_step j) (error_message j) v
     (retry_count j) (cost_cents j) (started_at j) (completed_at j).

Definition set_retry_count (v : Z) (j : t) : t :=
  mk (id j) (batch_id j) (episode_id j) (provider j) (provider_job_id j)
     (status j) (progress j) (current_step j) (error_message j)
     (error_code j) v (cost_cents j) (started_at j) (completed_at j).

Definition set_cost_cents (v : option Z) (j : t) : t :=
  mk (id j) (batch_id j) (episode_id j) (provider j) (provider_job_id j)
     (status j) (progress j) (current_step j) (error_message j)
     (error_code j) (retry_count j) v (started_at j) (completed_at j).

Definition set_started_at (v : option Z) (j : t) : t :=
  mk (id j) (batch_id j) (episode_id j) (provider j) (provider_job_id j)
     (status j) (progress j) (current_step j) (error_message j)
     (error_code j) (retry_count j) (cost_cents j) v (completed_at j).

Definition set_completed_at (v : option Z) (j : t) : t :=
  mk (id j) (batch_id j) (episode_id j) (provider j) (provider_job_id j)
     (status j) (progress j) (current_step j) (error_message j)
     (error_code j) (retry_count j) (cost_cents j) (started_at j) v.

End Job.

Module Episode.

(** Of an episode only the columns the orchestration writes are kept. *)
Record t : Type := mk {
  id : Z;
  status : string;
  processed_at : option Z
}.

Definition set_status (v : string) (e : t) : t :=
  mk (id e) v (processed_at e).

Definition set_processed_at (v : option Z) (e : t) : t :=
  mk (id e) (status e) v.

End Episode.

(** ** Python outcomes *)

Inductive exn : Type :=
| Exception (msg : string)
| ValueError (msg : string)
| TypeError (msg : string)
| AttributeError (msg : string)
| UnboundLocalError (msg : string)
| ZeroDivisionError (msg : string)
| CircuitOpenError (msg : string).

(** [str(e)] *)
Definition str (e : exn) : string :=
  match e with
  | Exception m | ValueError m | TypeError m | AttributeError m
  | UnboundLocalError m | ZeroDivisionError m | CircuitOpenError m => m
  end.

Inductive result (A : Type) : Type :=
| Returns (a : A)
| Raises (e : exn).

Arguments Returns {A} a.
Arguments Raises {A} e.

(** ** The store

    [batches] and [episodes] are looked up by primary key only
    ([scalar_one_or_none]); [jobs] is queried by predicates, so it is kept as
    the list of its rows. *)

Record DB : Type := mkDB {
  batches : gmap Z Batch.t;
  jobs : list Job.t;
  episodes : gmap Z Episode.t
}.

(** Writing back the row that was read under primary key [k]. *)
Definition put_batch (k : Z) (b : Batch.t) (db : DB) : DB :=
  mkDB (<[k := b]> (batches db)) (jobs db) (episodes db).

Definition put_jobs (js : list Job.t) (db : DB) : DB :=
  mkDB (batches db) js (episodes db).

Definition put_episodes (es : gmap Z Episode.t) (db : DB) : DB :=
  mkDB (batches db) (jobs db) es.

(** [episode = ...scalar_one_or_none(); if episode: episode.status = v] *)
Definition mark_episode (episode_id : Z) (v : string) (db : DB) : DB :=
  put_episodes (alter (Episode.set_status v) episode_id (episodes db)) db.

(** [x in (a, b, ...)] on strings. *)
Definition str_in (x : string) (l : list string) : bool :=
  existsb (String.eqb x) l.

(** [Job.batch_id == batch_id] on a nullable column. *)
Definition of_batch (batch_id : Z) (j : Job.t) : bool :=
  match Job.batch_id j with
  | Some b => Z.eqb b batch_id
  | None => false
  end.

(** UPDATE-by-predicate over the job rows: the rows a query selects are
    mutated in the session and written back by the commit. *)
Definition update_where (sel : Job.t -> bool) (f : Job.t -> Job.t)
    (js : list Job.t) : list Job.t :=
  (fun j => if sel j then f j else j) <$> js.

(** ** Responses of the routes *)

Record body : Type := mkBody {
  body_status : string;
  body_batch_id : Z;
  jobs_retried : option Z;
  (** the batch handed to [background_tasks.add_task(process_batch, ...)] *)
  background : option Z
}.

Inductive response : Type :=
| Ok (r : body)
| HTTPException (status_code : Z) (detail : string).

Definition succeeded (r : response) : Prop :=
  match r with Ok _ => True | HTTPException _ _ => False end.

Definition failed_with (r : response) (code : Z) (d : string) : Prop :=
  r = HTTPException code d.

Definition HTTP_400_BAD_REQUEST : Z := 400.
Definition HTTP_404_NOT_FOUND : Z := 404.

(** ** routers/batches.py *)

Module Batches.

Definition start_batch (now : Z) (batch_id : Z) (db : DB) : DB * response :=
  match batches db !! batch_id with
  | None => (db, HTTPException HTTP_404_NOT_FOUND "Batch not found")
  | Some batch =>
      if negb (str_in (Batch.status batch) ["pending"; "paused"]) then
        (db, HTTPException HTTP_400_BAD_REQUEST
               ("Cannot start batch with status: " +:+ Batch.status batch))
      else
        let batch := Batch.set_status "running" batch in
        let batch := Batch.set_started_at (Some now) batch in
        let batch := Batch.set_paused_at None batch in
        (put_batch batch_id batch db,
         Ok (mkBody "started" batch_id None (Some batch_id)))
  end.

Definition pause_batch (now : Z) (batch_id : Z) (db : DB) : DB * response :=
  match batches db !! batch_id with
  | None => (db, HTTPException HTTP_404_NOT_FOUND "Batch not found")
  | Some batch =>
      if negb (String.eqb (Batch.status batch) "running") then
        (db, HTTPException HTTP_400_BAD_REQUEST
               "Can only pause running batches")
      else
        let batch := Batch.set_status "paused" batch in
        let batch := Batch.set_paused_at (Some now) batch in
        (put_batch batch_id batch db, Ok (mkBody "paused" batch_id None None))
  end.

Definition resume_batch (batch_id : Z) (db : DB) : DB * response :=
  match batches db !! batch_id with
  | None => (db, HTTPException HTTP_404_NOT_FOUND "Batch not found")
  | Some batch =>
      if negb (String.eqb (Batch.status batch) "paused") then
        (db, HTTPException HTTP_400_BAD_REQUEST
               "Can only resume paused batches")
      else
        let batch := Batch.set_status "running" batch in
        let batch := Batch.set_paused_at None batch in
        (put_batch batch_id batch db,
         Ok (mkBody "resumed" batch_id None (Some batch_id)))
  end.

Definition cancel_batch (now : Z) (batch_id : Z) (db : DB) : DB * response :=
  match batches db !! batch_id with
  | None => (db, HTTPException HTTP_404_NOT_FOUND "Batch not found")
  | Some batch =>
      if str_in (Batch.status batch) ["completed"; "cancelled"] then
        (db, HTTPException HTTP_400_BAD_REQUEST
               ("Cannot cancel batch with status: " +:+ Batch.status batch))
      else
        let batch := Batch.set_status "cancelled" batch in
        let batch := Batch.set_completed_at (Some now) batch in
        let js :=
          update_where
            (fun j => of_batch batch_id j &&
                      str_in (Job.status j)
                        ["pending"; "downloading"; "uploading"])
            (Job.set_status "cancelled")
            (jobs db) in
        (put_jobs js (put_batch batch_id batch db),
         Ok (mkBody "cancelled" batch_id None None))
  end.

(** The per-job reset of [retry_batch] (lines 497-504). *)
Definition reset_job (j : Job.t) : Job.t :=
  let j := Job.set_status "pending" j in
  let j := Job.set_error_message None j in
  let j := Job.set_started_at None j in
  let j := Job.set_completed_at None j in
  let j := Job.set_progress 0 j in
  Job.set_current_step None j.

Definition retry_selected (batch_id : Z) (j : Job.t) : bool :=
  of_batch batch_id j && str_in (Job.status j) ["failed"; "cancelled"].

Definition retry_batch (batch_id : Z) (db : DB) : DB * response :=
  match batches db !! batch_id with
  | None => (db, HTTPException HTTP_404_NOT_FOUND "Batch not found")
  | Some batch =>
      let selected := List.filter (retry_selected batch_id) (jobs db) in
      match selected with
      | [] => (db, HTTPException HTTP_400_BAD_REQUEST
                     "No failed or cancelled jobs to retry")
      | _ :: _ =>
          let retry_count := Z.of_nat (List.length selected) in
          let js := update_where (retry_selected batch_id) reset_job
                      (jobs db) in
          let batch :=
            if str_in (Batch.status batch)
                 ["failed"; "cancelled"; "completed"] then
              let batch := Batch.set_status "running" batch in
              let batch := Batch.set_completed_at None batch in
              Batch.set_failed_episodes
                (Z.max 0 (Batch.failed_episodes batch - retry_count)) batch
            else batch in
          (put_jobs js (put_batch batch_id batch db),
           Ok (mkBody "retrying" batch_id (Some retry_count)
                 (Some batch_id)))
      end
  end.

(** [delete_batch] answers 204 with no body.  Deleting the batch deletes
    its jobs with it ([cascade="all, delete-orphan"] on [Batch.jobs],
    [ondelete="CASCADE"] on [Job.batch_id]). *)
Inductive no_content : Type :=
| NoContent
| Refused (status_code : Z) (detail : string).

Definition delete_batch (batch_id : Z) (db : DB) : DB * no_content :=
  match batches db !! batch_id with
  | None => (db, Refused HTTP_404_NOT_FOUND "Batch not found")
  | Some batch =>
      if str_in (Batch.status batch) ["running"; "pending"] then
        (db, Refused HTTP_400_BAD_REQUEST
               "Cannot delete active batch. Cancel it first.")
      else
        (mkDB (delete batch_id (batches db))
              (List.filter (fun j => negb (of_batch batch_id j)) (jobs db))
              (episodes db),
         NoContent)
  end.

End Batches.

(** ** models/batch.py: the [progress_percent] property

    [/] on Python integers is true division: it raises [ZeroDivisionError]
    on a zero divisor and otherwise yields the quotient, kept here as an exact
    rational (the rounding of the float is not modelled). *)

Definition truediv (a b : Z) : result Q :=
  if Z.eqb b 0 then Raises (ZeroDivisionError "division by zero")
  else Returns (inject_Z a / inject_Z b)%Q.

Definition progress_percent (self : Batch.t) : result Q :=
  if Z.eqb (Batch.total_episodes self) 0 then Returns 0%Q
  else
    match truediv (Batch.completed_episodes self) (Batch.total_episodes self) with
    | Returns q => Returns (q * 100)%Q
    | Raises e => Raises e
    end.

(** [progress_percent] is declared with [@property] and no setter, so an
    assignment [batch.progress_percent = v] raises [AttributeError] and
    leaves the object as it was. *)
Definition set_progress_percent (self : Batch.t) (v : Q) : result Batch.t :=
  Raises (AttributeError
            "property 'progress_percent' of 'Batch' object has no setter").

(** ** routers/jobs.py *)

Module Jobs.

(** The reset of [retry_job] (lines 126-133). *)
Definition reset_job (j : Job.t) : Job.t :=
  let j := Job.set_status "pending" j in
  let j := Job.set_progress 0 j in
  let j := Job.set_current_step None j in
  let j := Job.set_error_message None j in
  let j := Job.set_error_code None j in
  let j := Job.set_started_at None j in
  let j := Job.set_completed_at None j in
  Job.set_retry_count (Job.retry_count j + 1) j.

Definition has_id (job_id : Z) (j : Job.t) : bool := Z.eqb (Job.id j) job_id.

Definition retry_job (job_id : Z) (db : DB) : DB * response :=
  match List.find (has_id job_id) (jobs db) with
  | None => (db, HTTPException HTTP_404_NOT_FOUND "Job not found")
  | Some job =>
      if negb (String.eqb (Job.status job) "failed") then
        (db, HTTPException HTTP_400_BAD_REQUEST "Can only retry failed jobs")
      else
        let js := update_where (has_id job_id) reset_job (jobs db) in
        (mark_episode (Job.episode_id job) "queued" (put_jobs js db),
         Ok (mkBody "queued" job_id None None))
  end.

(** [pause_job], [resume_job] and [cancel_job] write the status of the
    job (and of its episode) only. *)
Definition pause_job (job_id : Z) (db : DB) : DB * response :=
  match List.find (has_id job_id) (jobs db) with
  | None => (db, HTTPException HTTP_404_NOT_FOUND "Job not found")
  | Some job =>
      if negb (str_in (Job.status job)
                 ["processing"; "transcribing"; "downloading"; "embedding";
                  "chunking"]) then
        (db, HTTPException HTTP_400_BAD_REQUEST
               ("Cannot pause job with status: " +:+ Job.status job))
      else
        (put_jobs (update_where (has_id job_id) (Job.set_status "paused")
                     (jobs db)) db,
         Ok (mkBody "paused" job_id None None))
  end.

Definition resume_job (job_id : Z) (db : DB) : DB * response :=
  match List.find (has_id job_id) (jobs db) with
  | None => (db, HTTPException HTTP_404_NOT_FOUND "Job not found")
  | Some job =>
      if negb (String.eqb (Job.status job) "paused") then
        (db, HTTPException HTTP_400_BAD_REQUEST
               ("Cannot resume job with status: " +:+ Job.status job))
      else
        let js := update_where (has_id job_id) (Job.set_status "pending")
                    (jobs db) in
        (mark_episode (Job.episode_id job) "queued" (put_jobs js db),
         Ok (mkBody "pending" job_id None None))
  end.

Definition cancel_job (job_id : Z) (db : DB) : DB * response :=
  match List.find (has_id job_id) (jobs db) with
  | None => (db, HTTPException HTTP_404_NOT_FOUND "Job not found")
  | Some job =>
      if str_in (Job.status job) ["done"; "cancelled"] then
        (db, HTTPException HTTP_400_BAD_REQUEST
               ("Cannot cancel job with status: " +:+ Job.status job))
      else
        let js := update_where (has_id job_id) (Job.set_status "cancelled")
                    (jobs db) in
        (mark_episode (Job.episode_id job) "skipped" (put_jobs js db),
         Ok (mkBody "cancelled" job_id None None))
  end.

End Jobs.

(** ** workers/batch_processor.py *)

Module Worker.

(** What awaiting one [process_job] coroutine gives the controller: the
    boolean it returned, or the exception it raised ([process_job] builds a
    [TranscriptionPipeline], whose constructor raises [ValueError] from
    [get_provider] outside any [try]). *)
Inductive attempt : Type :=
| Returned (success : bool)
| Raised (e : exn).

(** The locals of [process_batch] that the completion loop reads and
    writes.  [success] is assigned for the first time inside the loop, so
    it starts unbound ([None]). *)
Record locals : Type := mkLocals {
  completed : Z;
  failed : Z;
  success : option bool
}.

Definition initial_locals : locals := mkLocals 0 0 None.

(** [UPDATE batches SET completed_episodes = completed_episodes + 1
     WHERE id = :batch_id] *)
Definition increment_completed (batch_id : Z) (db : DB) : DB :=
  mkDB (alter (fun b => Batch.set_completed_episodes
                          (Batch.completed_episodes b + 1) b)
          batch_id (batches db))
       (jobs db) (episodes db).

(** [UPDATE batches SET failed_episodes = failed_episodes + 1
     WHERE id = :batch_id] *)
Definition increment_failed (batch_id : Z) (db : DB) : DB :=
  mkDB (alter (fun b => Batch.set_failed_episodes
                          (Batch.failed_episodes b + 1) b)
          batch_id (batches db))
       (jobs db) (episodes db).

(** The [try]/[except] of one iteration (lines 115-123). *)
Definition await_attempt (a : attempt) (l : locals) : locals :=
  match a with
  | Returned s =>
      if s then mkLocals (completed l + 1) (failed l) (Some s)
      else mkLocals (completed l) (failed l + 1) (Some s)
  | Raised _ => mkLocals (completed l) (failed l + 1) (success l)
  end.

(** The statistics update of one iteration (lines 126-146): it branches on
    the local [success], whatever the [try] above left in it. *)
Definition update_stats (batch_id : Z) (l : locals) (db : DB) : result DB :=
  match success l with
  | None =>
      Raises (UnboundLocalError
                "cannot access local variable 'success' where it is not associated with a value")
  | Some true => Returns (increment_completed batch_id db)
  | Some false => Returns (increment_failed batch_id db)
  end.

(** The loop [for coro in asyncio.as_completed(tasks)], over the attempts
    in the order in which they complete. *)
Fixpoint stats_loop (batch_id : Z) (attempts : list attempt)
    (l : locals) (db : DB) : result (locals * DB) :=
  match attempts with
  | [] => Returns (l, db)
  | a :: rest =>
      let l := await_attempt a l in
      match update_stats batch_id l db with
      | Raises e => Raises e
      | Returns db => stats_loop batch_id rest l db
      end
  end.

(** [costs = [c for c in ... if c]; sum(costs)] over the batch's jobs with
    a non-null cost. *)
Definition sum_costs (batch_id : Z) (js : list Job.t) : Z :=
  fold_right Z.add 0
    (List.map (fun j => default 0 (Job.cost_cents j))
       (List.filter (of_batch batch_id) js)).

(** The final status update (lines 149-170). *)
Definition final_update (now : Z) (batch_id : Z) (l : locals) (db : DB) : DB :=
  match batches db !! batch_id with
  | None => db
  | Some batch_final =>
      if String.eqb (Batch.status batch_final) "running" then
        let b := Batch.set_status "completed" batch_final in
        let b := Batch.set_completed_at (Some now) b in
        let b := Batch.set_completed_episodes (completed l) b in
        let b := Batch.set_failed_episodes (failed l) b in
        let b := Batch.set_actual_cost_cents (sum_costs batch_id (jobs db)) b in
        put_batch batch_id b db
      else db
  end.

(** [process_batch] from line 111 on, given the attempts of the pending
    jobs in completion order.  The writes the jobs make in their own
    sessions are not part of these lines. *)
Definition process_batch_stats (now : Z) (batch_id : Z)
    (attempts : list attempt) (db : DB) : result DB :=
  match stats_loop batch_id attempts initial_locals db with
  | Raises e => Raises e
  | Returns (l, db) => Returns (final_update now batch_id l db)
  end.

(** The selection and the reset of [retry_failed_jobs] (lines 179-197). *)
Definition retry_selected (batch_id : Z) (j : Job.t) : bool :=
  of_batch batch_id j && String.eqb (Job.status j) "failed"
    && Z.ltb (Job.retry_count j) 3.

Definition reset_job (j : Job.t) : Job.t :=
  let j := Job.set_status "pending" j in
  let j := Job.set_progress 0 j in
  let j := Job.set_current_step None j in
  let j := Job.set_error_message None j in
  let j := Job.set_error_code None j in
  let j := Job.set_started_at None j in
  let j := Job.set_completed_at None j in
  Job.set_retry_count (Job.retry_count j + 1) j.

(** [retry_failed_jobs] up to its commit (the call of [process_batch] that
    follows is a separate run of the controller). *)
Definition retry_failed_jobs (batch_id : Z) (db : DB) : DB :=
  let failed_jobs := List.filter (retry_selected batch_id) (jobs db) in
  let js := update_where (retry_selected batch_id) reset_job (jobs db) in
  let db := put_jobs js db in
  let db :=
    fold_left (fun d j => mark_episode (Job.episode_id j) "queued" d)
      failed_jobs db in
  match batches db !! batch_id with
  | None => db
  | Some batch =>
      let batch := Batch.set_status "running" batch in
      let batch := Batch.set_failed_episodes 0 batch in
      put_batch batch_id batch db
  end.

(** The numbers of attempts that succeeded and that did not: an attempt
    that returns [False] or raises is one the loop counts in [failed]. *)
Definition is_success (a : attempt) : bool :=
  match a with
  | Returned true => true
  | _ => false
  end.

Fixpoint successes (attempts : list attempt) : Z :=
  match attempts with
  | [] => 0
  | a :: rest => (if is_success a then 1 else 0) + successes rest
  end.

Fixpoint failures (attempts : list attempt) : Z :=
  match attempts with
  | [] => 0
  | a :: rest => (if is_success a then 0 else 1) + failures rest
  end.

Definition returned (a : attempt) : Prop :=
  match a with
  | Returned _ => True
  | Raised _ => False
  end.

End Worker.

(** ** workers/pipeline.py

    The external calls of a run (YouTube download, transcription provider,
    speaker labelling, embedding, vector store, file system) are given by a
    [world]: for each call, the exception it raises in this run, if any.
    ActivityLog rows, WebSocket publications and the channel counter are not
    modelled; database calls do not fail. *)

Module Pipeline.

Inductive stage : Type :=
| download_audio
| transcribe
| label_speakers
| save_utterances
| chunk_transcript
| embed_and_store
| cleanup_audio
| save_transcript_backup.

Record world : Type := mkWorld {
  raises : stage -> option exn;
  (** the path [download_audio] returns *)
  downloaded_path : string;
  (** [result.status == TranscriptionStatus.FAILED], with its message *)
  transcription_failed : option string;
  transcript_provider_job_id : option string;
  transcript_cost_cents : option Z
}.

(** The objects and locals a run works on.  [audio_path] is [None] while
    the local is unbound; [cleanup_calls] records the calls of
    [youtube.cleanup_audio]. *)
Record st : Type := mkSt {
  job : Job.t;
  episode : Episode.t;
  audio_path : option string;
  cleanup_calls : list string
}.

Definition with_job (f : Job.t -> Job.t) (s : st) : st :=
  mkSt (f (job s)) (episode s) (audio_path s) (cleanup_calls s).

Definition with_episode (f : Episode.t -> Episode.t) (s : st) : st :=
  mkSt (job s) (f (episode s)) (audio_path s) (cleanup_calls s).

Definition truthy (s : string) : bool := negb (String.eqb s "").

Definition _update_job (now : Z) (status : option string)
    (progress : option Z) (step : option string) (cost_cents : option Z)
    (j : Job.t) : Job.t :=
  let j := match status with
           | Some v => if truthy v then Job.set_status v j else j
           | None => j
           end in
  let j := match progress with
           | Some v => Job.set_progress v j
           | None => j
           end in
  let j := match step with
           | Some v => if truthy v then Job.set_current_step (Some v) j else j
           | None => j
           end in
  let j := match cost_cents with
           | Some v => Job.set_cost_cents (Some v) j
           | None => j
           end in
  let is_downloading :=
    match status with
    | Some v => String.eqb v "downloading"
    | None => false
    end in
  if is_downloading && negb (bool_decide (is_Some (Job.started_at j)))
  then Job.set_started_at (Some now) j
  else j.

(** One external call of the [try] block. *)
Definition call (w : world) (g : stage) (s : st) : st * result unit :=
  match raises w g with
  | Some e => (s, Raises e)
  | None => (s, Returns tt)
  end.

Definition bind (m : st -> st * result unit) (k : st -> st * result unit)
    (s : st) : st * result unit :=
  match m s with
  | (s', Returns _) => k s'
  | (s', Raises e) => (s', Raises e)
  end.

Definition step (f : st -> st) (s : st) : st * result unit :=
  (f s, Returns tt).

Notation "m >-> k" := (bind m k) (at level 62, right associativity).

(** [audio_path = await self._download_audio(episode)] *)
Definition _download_audio (w : world) : st -> st * result unit :=
  call w download_audio >->
  step (fun s => mkSt (job s) (episode s) (Some (downloaded_path w))
                   (cleanup_calls s)).

(** [_transcribe]: the provider call, the check of its status, and the
    provider job id written on the job. *)
Definition _transcribe (w : world) : st -> st * result unit :=
  call w transcribe >->
  (fun s =>
     match transcription_failed w with
     | Some m => (s, Raises (Exception ("Transcription failed: " +:+ m)))
     | None =>
         (with_job (Job.set_provider_job_id (transcript_provider_job_id w)) s,
          Returns tt)
     end).

(** [await self.youtube.cleanup_audio(audio_path)] *)
Definition _cleanup (w : world) (s : st) : st * result unit :=
  let p := default "" (audio_path s) in
  let s := mkSt (job s) (episode s) (audio_path s) (cleanup_calls s ++ [p]) in
  call w cleanup_audio s.

(** The [try] block of [process_episode] (lines 80-164). *)
Definition try_block (w : world) (now : Z) : st -> st * result unit :=
  step (with_job (_update_job now (Some "downloading") (Some 5)
                    (Some "Downloading audio") None)) >->
  _download_audio w >->
  step (with_job (_update_job now (Some "transcribing") (Some 20)
                    (Some "Transcribing") None)) >->
  _transcribe w >->
  step (with_job (_update_job now (Some "labeling") (Some 50)
                    (Some "Identifying speakers") None)) >->
  call w label_speakers >->
  call w save_utterances >->
  step (with_job (_update_job now (Some "chunking") (Some 65)
                    (Some "Creating chunks") None)) >->
  call w chunk_transcript >->
  step (with_job (_update_job now (Some "embedding") (Some 80)
                    (Some "Generating embeddings") None)) >->
  call w embed_and_store >->
  _cleanup w >->
  call w save_transcript_backup >->
  step (with_episode (fun e => Episode.set_processed_at (Some now)
                                 (Episode.set_status "done" e))) >->
  step (with_job (_update_job now (Some "done") (Some 100)
                    (Some "Complete") (transcript_cost_cents w))) >->
  step (with_job (Job.set_completed_at (Some now))).

(** The [except Exception as e] handler (lines 166-188).  The guard
    ['audio_path' in locals() and audio_path] holds as soon as the local is
    bound, a [Path] being truthy; an exception of the cleanup is caught. *)
Definition except_block (w : world) (now : Z) (e : exn) (s : st)
    : st * result bool :=
  let s := match audio_path s with
           | Some _ => fst (_cleanup w s)
           | None => s
           end in
  let s := with_job (Job.set_status "failed") s in
  let s := with_job (Job.set_error_message (Some (str e))) s in
  let s := with_job (Job.set_completed_at (Some now)) s in
  let s := with_episode (Episode.set_status "failed") s in
  (s, Returns false).

(** [process_episode] once the episode and the job have been found. *)
Definition run (w : world) (now : Z) (s : st) : st * result bool :=
  match try_block w now s with
  | (s', Returns _) => (s', Returns true)
  | (s', Raises e) => except_block w now e s'
  end.

Definition initial (j : Job.t) (e : Episode.t) : st := mkSt j e None [].

(** [process_episode(job_id, episode_id)]: the rows are read, worked on
    and written back by the commits of the run. *)
Definition process_episode (w : world) (now : Z) (job_id episode_id : Z)
    (db : DB) : DB * list string * result bool :=
  match episodes db !! episode_id, List.find (Jobs.has_id job_id) (jobs db) with
  | Some e, Some j =>
      let '(s, r) := run w now (initial j e) in
      let js :=
        update_where (Jobs.has_id job_id)
          (fun row => job (fst (run w now (initial row e)))) (jobs db) in
      (put_episodes (<[episode_id := episode s]> (episodes db))
         (put_jobs js db),
       cleanup_calls s, r)
  | _, _ => (db, [], Returns false)
  end.

(** What identifies a job across a run, with its retry counter. *)
Definition key (s : st) : Z * Z :=
  (Job.id (job s), Job.retry_count (job s)).

Definition keeps (m : st -> st * result unit) : Prop :=
  forall s, key (fst (m s)) = key s.

(** The stages in the order in which the [try] block reaches them, and the
    exception with which the block ends in a given world: that of the
    first stage that raises, where [transcribe] also raises on a result
    whose status is FAILED. *)
Definition stages : list stage :=
  [download_audio; transcribe; label_speakers; save_utterances;
   chunk_transcript; embed_and_store; cleanup_audio;
   save_transcript_backup].

Definition failure_at (w : world) (g : stage) : option exn :=
  match raises w g, g with
  | Some e, _ => Some e
  | None, transcribe =>
      (fun m => Exception ("Transcription failed: " +:+ m))
        <$> transcription_failed w
  | None, _ => None
  end.

Definition first_failure (w : world) : option exn :=
  List.fold_right
    (fun g later => match failure_at w g with
                    | Some e => Some e
                    | None => later
                    end)
    None stages.

(** The keyword parameters of [TranscriptionPipeline.__init__] and of
    [process_episode]; a call with another keyword raises [TypeError]. *)
Definition init_params : list string := ["db"; "provider_name"; "speakers"].
Definition process_episode_params : list string := ["job_id"; "episode_id"].

Definition check_kwargs (fname : string) (params kwargs : list string)
    : result unit :=
  match List.find (fun k => negb (str_in k params)) kwargs with
  | Some k =>
      Raises (TypeError (fname +:+ "() got an unexpected keyword argument '"
                           +:+ k +:+ "'"))
  | None => Returns tt
  end.

End Pipeline.

(** ** tasks/transcription.py *)

Module Tasks.

(** [status_counts = dict(jobs_result.all())] for the query
    [SELECT status, count(id) ... GROUP BY status]. *)
Definition group_count (js : list Job.t) : gmap string Z :=
  fold_right
    (fun j (m : gmap string Z) =>
       <[Job.status j := default 0 (m !! Job.status j) + 1]> m)
    ∅ js.

(** [status_counts.get(k, 0)] *)
Definition get (m : gmap string Z) (k : string) : Z := default 0 (m !! k).

(** [sum(status_counts.values())] *)
Definition sum_values (m : gmap string Z) : Z :=
  map_fold (fun _ v acc => v + acc) 0 m.

Record reply : Type := mkReply {
  reply_status : string;
  reply_completed : Z;
  reply_failed : Z;
  reply_pending : Z;
  reply_processing : Z;
  (** [check_batch_completion.apply_async(countdown=30)] was issued *)
  rescheduled : bool
}.

Inductive check_result : Type :=
| Skipped
| Checked (r : reply).

(** [check_batch_completion].  The session is closed without a commit when
    an exception leaves the [async with] block, so the store is then the
    one the task was given. *)
Definition check_batch_completion (now : Z) (batch_id : Z) (db : DB)
    : DB * result check_result :=
  match batches db !! batch_id with
  | None => (db, Returns Skipped)
  | Some batch =>
      if negb (str_in (Batch.status batch) ["running"]) then
        (db, Returns Skipped)
      else
        let status_counts :=
          group_count (List.filter (of_batch batch_id) (jobs db)) in
        let total := sum_values status_counts in
        let completed := get status_counts "completed" in
        let failed := get status_counts "failed" in
        let pending := get status_counts "pending" in
        let processing := get status_counts "processing" in
        let batch := Batch.set_completed_episodes completed batch in
        let batch := Batch.set_failed_episodes failed batch in
        let percent :=
          if Z.ltb 0 total then
            (inject_Z (completed + failed) / inject_Z total * 100)%Q
          else 0%Q in
        match set_progress_percent batch percent with
        | Raises e => (db, Raises e)
        | Returns batch =>
            if Z.eqb pending 0 && Z.eqb processing 0 then
              let batch := Batch.set_status "completed" batch in
              let batch := Batch.set_completed_at (Some now) batch in
              (put_batch batch_id batch db,
               Returns (Checked (mkReply (Batch.status batch) completed
                                   failed pending processing false)))
            else
              (put_batch batch_id batch db,
               Returns (Checked (mkReply (Batch.status batch) completed
                                   failed pending processing true)))
        end
  end.

Definition retry_selected (batch_id : Z) (j : Job.t) : bool :=
  of_batch batch_id j && String.eqb (Job.status j) "failed".

Definition reset_job (j : Job.t) : Job.t :=
  let j := Job.set_status "pending" j in
  let j := Job.set_error_message None j in
  Job.set_retry_count (Job.retry_count j + 1) j.

(** The Celery task [retry_failed_jobs], up to its commit. *)
Definition retry_failed_jobs (batch_id : Z) (db : DB) : DB * string :=
  match List.filter (retry_selected batch_id) (jobs db) with
  | [] => (db, "no_failed_jobs")
  | _ :: _ =>
      (put_jobs (update_where (retry_selected batch_id) reset_job (jobs db))
         db,
       "retrying")
  end.

(** The [except Exception as e] handler of [process_episode_task]
    (lines 91-100): [if job:] guards the update, then the exception is
    raised again. *)
Definition except_block (e : exn) (job : option Job.t) (db : DB)
    : DB * result string :=
  match job with
  | Some j =>
      let upd j :=
        Job.set_error_message (Some (String.substring 0 500 (str e)))
          (Job.set_status "failed" j) in
      (put_jobs (update_where (Jobs.has_id (Job.id j)) upd (jobs db)) db,
       Raises e)
  | None => (db, Raises e)
  end.

Section Task.

(** The textual form of an id in the task's messages. *)
Variable uuid_str : Z -> string.

(** [process_episode_task]: the keywords it passes to the pipeline are
    [provider] and [unknown_speaker_label] for the constructor and
    [episode] and [job] for [process_episode]. *)
Definition process_episode_task (episode_id job_id : Z) (db : DB)
    : DB * result string :=
  match List.find (Jobs.has_id job_id) (jobs db) with
  | None =>
      except_block
        (ValueError ("Job " +:+ uuid_str job_id +:+ " not found")) None db
  | Some job =>
      match episodes db !! episode_id with
      | None =>
          except_block
            (ValueError ("Episode " +:+ uuid_str episode_id +:+ " not found"))
            (Some job) db
      | Some episode =>
          let started j :=
            Job.set_current_step (Some "downloading")
              (Job.set_status "processing" j) in
          let db :=
            put_jobs (update_where (Jobs.has_id job_id) started (jobs db))
              db in
          let job := started job in
          match Pipeline.check_kwargs "TranscriptionPipeline.__init__"
                  Pipeline.init_params
                  ["db"; "provider"; "speakers"; "unknown_speaker_label"]
          with
          | Raises e => except_block e (Some job) db
          | Returns _ =>
              match Pipeline.check_kwargs
                      "TranscriptionPipeline.process_episode"
                      Pipeline.process_episode_params ["episode"; "job"]
              with
              | Raises e => except_block e (Some job) db
              | Returns _ => (db, Returns "success")
              end
          end
      end
  end.

(** What [process_batch_task] answers, with the tasks it hands to Celery:
    one [process_episode_task] per selected job, as (episode id, job id),
    and whether [check_batch_completion] was scheduled. *)
Record batch_reply : Type := mkBatchReply {
  batch_reply_status : string;
  batch_reply_reason : option string;
  job_count : option Z;
  dispatched : list (Z * Z);
  check_scheduled : bool
}.

Definition dispatch_selected (batch_id : Z) (j : Job.t) : bool :=
  of_batch batch_id j && str_in (Job.status j) ["pending"; "failed"].

(** [process_batch_task]: the inner [_process], then the dispatch of the
    group when it answered "started" (the jobs are selected again, from the
    store [_process] committed). *)
Definition process_batch_task (batch_id : Z) (db : DB)
    : DB * result batch_reply :=
  match batches db !! batch_id with
  | None =>
      (db, Raises (ValueError ("Batch " +:+ uuid_str batch_id +:+ " not found")))
  | Some batch =>
      if negb (str_in (Batch.status batch) ["pending"; "running"; "paused"])
      then
        (db, Returns (mkBatchReply "skipped"
                        (Some ("Batch is " +:+ Batch.status batch))
                        None [] false))
      else
        let batch := Batch.set_status "running" batch in
        let db := put_batch batch_id batch db in
        match List.filter (dispatch_selected batch_id) (jobs db) with
        | [] =>
            let batch := Batch.set_status "completed" batch in
            (put_batch batch_id batch db,
             Returns (mkBatchReply "completed" (Some "No pending jobs")
                        None [] false))
        | j :: js =>
            (db,
             Returns (mkBatchReply "started" None
                        (Some (Z.of_nat (length (j :: js))))
                        (List.map (fun j => (Job.episode_id j, Job.id j))
                           (j :: js))
                        true))
        end
  end.

End Task.

End Tasks.

(** ** cli/jobs.py: the [retry] command *)

Module Cli.

Definition reset_job (j : Job.t) : Job.t :=
  let j := Job.set_status "pending" j in
  let j := Job.set_error_message None j in
  Job.set_retry_count (Job.retry_count j + 1) j.

Definition retry_job (job_id : Z) (db : DB) : DB :=
  put_jobs (update_where (Jobs.has_id job_id) reset_job (jobs db)) db.

Definition retry_batch (batch_id : Z) (db : DB) : DB :=
  put_jobs (update_where (Tasks.retry_selected batch_id) reset_job (jobs db))
    db.

(** [episode_ids] are the episodes of the channel. *)
Definition retry_channel (episode_ids : list Z) (db : DB) : DB :=
  put_jobs
    (update_where
       (fun j => existsb (Z.eqb (Job.episode_id j)) episode_ids
                 && String.eqb (Job.status j) "failed")
       reset_job (jobs db))
    db.

End Cli.

(** ** utils/retry.py: the circuit breaker

    [time.time()] readings and [recovery_timeout] are integers of one clock
    unit; floats are not modelled. *)

Module Circuit.

Inductive CircuitState : Type := CLOSED | OPEN | HALF_OPEN.

Record CircuitBreaker : Type := mkCircuitBreaker {
  name : string;
  failure_threshold : Z;
  recovery_timeout : Z;
  half_open_max_calls : Z;
  _state : CircuitState;
  _failure_count : Z;
  _last_failure_time : Z;
  _half_open_calls : Z
}.

(** The dataclass constructor with its defaults. *)
Definition new (name : string) (failure_threshold : option Z)
    (recovery_timeout : option Z) (half_open_max_calls : option Z)
    : CircuitBreaker :=
  mkCircuitBreaker name (default 5 failure_threshold)
    (default 60 recovery_timeout) (default 3 half_open_max_calls)
    CLOSED 0 0 0.

Definition openai_circuit : CircuitBreaker :=
  new "openai" (Some 5) (Some 60) None.
Definition anthropic_circuit : CircuitBreaker :=
  new "anthropic" (Some 5) (Some 60) None.
Definition qdrant_circuit : CircuitBreaker :=
  new "qdrant" (Some 3) (Some 30) None.

Definition is_state (a b : CircuitState) : bool :=
  match a, b with
  | CLOSED, CLOSED | OPEN, OPEN | HALF_OPEN, HALF_OPEN => true
  | _, _ => false
  end.

(** The [state] property: reading it at time [now] may move the breaker
    from OPEN to HALF_OPEN. *)
Definition state (now : Z) (self : CircuitBreaker)
    : CircuitBreaker * CircuitState :=
  let self :=
    if is_state (_state self) OPEN then
      if Z.leb (recovery_timeout self) (now - _last_failure_time self) then
        mkCircuitBreaker (name self) (failure_threshold self)
          (recovery_timeout self) (half_open_max_calls self)
          HALF_OPEN (_failure_count self) (_last_failure_time self) 0
      else self
    else self in
  (self, _state self).

Definition record_success (self : CircuitBreaker) : CircuitBreaker :=
  if is_state (_state self) HALF_OPEN then
    let calls := _half_open_calls self + 1 in
    if Z.leb (half_open_max_calls self) calls then
      mkCircuitBreaker (name self) (failure_threshold self)
        (recovery_timeout self) (half_open_max_calls self)
        CLOSED 0 (_last_failure_time self) calls
    else
      mkCircuitBreaker (name self) (failure_threshold self)
        (recovery_timeout self) (half_open_max_calls self)
        (_state self) (_failure_count self) (_last_failure_time self) calls
  else if is_state (_state self) CLOSED then
    mkCircuitBreaker (name self) (failure_threshold self)
      (recovery_timeout self) (half_open_max_calls self)
      (_state self) 0 (_last_failure_time self) (_half_open_calls self)
  else self.

Definition record_failure (now : Z) (self : CircuitBreaker)
    : CircuitBreaker :=
  let count := _failure_count self + 1 in
  let st :=
    if is_state (_state self) HALF_OPEN then OPEN
    else if Z.leb (failure_threshold self) count then OPEN
    else _state self in
  mkCircuitBreaker (name self) (failure_threshold self)
    (recovery_timeout self) (half_open_max_calls self)
    st count now (_half_open_calls self).

(** The breaker after [n] recorded successes in a row. *)
Definition after_successes (n : nat) (self : CircuitBreaker)
    : CircuitBreaker :=
  Nat.iter n record_success self.

(** The breaker after [n] recorded failures in a row, all at time [t]. *)
Definition after_failures (n : nat) (t : Z) (self : CircuitBreaker)
    : CircuitBreaker :=
  Nat.iter n (record_failure t) self.

(** The breaker after a history of recorded outcomes, oldest first
    ([true] for a success, [false] for a failure at time [t]). *)
Definition record (t : Z) (self : CircuitBreaker) (success : bool)
    : CircuitBreaker :=
  if success then record_success self else record_failure t self.

Definition feed (t : Z) (history : list bool) (self : CircuitBreaker)
    : CircuitBreaker :=
  fold_left (record t) history self.

(** The outcomes contain [n] failures in a row. *)
Definition has_failure_run (n : nat) (history : list bool) : Prop :=
  exists before after,
    history = (before ++ List.repeat false n ++ after)%list.

Section Wrapper.

(** The wrapped function acts on some world [W] and returns or raises. *)
Context {W A : Type}.
Variable func : W -> W * result A.

(** [wrapper]: [now] is the clock when the state is read, [later] the
    clock when a failure is recorded.  The message of the error ends, in
    the source, with the rendering of the float [recovery_timeout]. *)
Definition wrapper (now later : Z) (self : CircuitBreaker) (w : W)
    : CircuitBreaker * W * result A :=
  let '(self, s) := state now self in
  if is_state s OPEN then
    (self, w,
     Raises (CircuitOpenError
               ("Circuit " +:+ name self +:+ " is open.")))
  else
    match func w with
    | (w', Returns r) => (record_success self, w', Returns r)
    | (w', Raises e) => (record_failure later self, w', Raises e)
    end.

End Wrapper.

End Circuit.

(** ** workers/batch_processor.py: one job of a batch

    [process_job] (lines 76-105) reads the status of the batch with
    [SELECT ... FOR UPDATE SKIP LOCKED]: a row locked by another transaction
    is skipped, so that [fetchone()] gives nothing.  [get_provider], called
    by the constructor of the pipeline, either returns or raises. *)

Module BatchProcessor.

Definition current_status (locked : bool) (batch_id : Z) (db : DB)
    : option string :=
  if locked then None else Batch.status <$> batches db !! batch_id.

Definition process_job (get_provider : string -> option exn)
    (w : Pipeline.world) (now : Z) (locked : bool) (batch : Batch.t)
    (job : Job.t) (db : DB) : DB * list string * result bool :=
  if bool_decide (current_status locked (Batch.id batch) db = Some "running")
  then
    match get_provider (Batch.provider batch) with
    | Some e => (db, [], Raises e)
    | None =>
        Pipeline.process_episode w now (Job.id job) (Job.episode_id job) db
    end
  else (db, [], Returns false).

End BatchProcessor.

(** ** utils/retry.py: [retry_async]

    Delays are exact rationals (the floats are not modelled, and [0.1] is
    one tenth).  [random k] is the value [random.random()] gives before the
    sleep number [k].  The record a run returns also counts the invocations
    of the wrapped function and lists the sleeps, in order. *)

From Stdlib Require Import Qminmax.

Module Retry.

Section RetryAsync.

Context {W A : Type}.
Variables (max_retries : Z) (initial_delay max_delay exponential_base : Q).
(** [isinstance(e, exceptions)] *)
Variable exceptions : exn -> bool.
Variable func : W -> W * result A.
Variable random : nat -> Q.

Record run : Type := mkRun {
  world : W;
  sleeps : list Q;
  invocations : nat;
  outcome : result A
}.

(** [min(delay + delay * 0.1 * (random.random() * 2 - 1), max_delay)] *)
Definition sleep_time (delay r : Q) : Q :=
  Qmin (delay + delay * (1 # 10) * (r * 2 - 1)) max_delay.

(** [min(delay * exponential_base, max_delay)] *)
Definition next_delay (delay : Q) : Q :=
  Qmin (delay * exponential_base) max_delay.

(** The [for attempt in range(max_retries + 1)] loop with [n] iterations
    left, and the [raise last_exception] after it; [raise None] is a
    [TypeError]. *)
Fixpoint attempts (n : nat) (attempt : Z) (delay : Q)
    (last_exception : option exn) (w : W) (slept : list Q) (calls : nat)
    : run :=
  match n with
  | O =>
      mkRun w slept calls
        (Raises (default
                   (TypeError "exceptions must derive from BaseException")
                   last_exception))
  | S n' =>
      match func w with
      | (w', Returns a) => mkRun w' slept (S calls) (Returns a)
      | (w', Raises e) =>
          if exceptions e then
            if Z.ltb attempt max_retries then
              attempts n' (attempt + 1) (next_delay delay) (Some e) w'
                (slept ++ [sleep_time delay (random (length slept))])
                (S calls)
            else
              attempts n' (attempt + 1) delay (Some e) w' slept (S calls)
          else mkRun w' slept (S calls) (Raises e)
      end
  end.

Definition retry_async (w : W) : run :=
  attempts (Z.to_nat (max_retries + 1)) 0 initial_delay None w [] 0.

End RetryAsync.

End Retry.

(** ** services/websocket_manager.py: [ConnectionManager]

    A WebSocket is identified by a number, a channel by its name.  Python
    sets are finite sets; [disconnect] takes its channels from a copy of the
    socket's set, and the order in which it goes through them does not show
    in the result.  Whether [send_text] succeeds on a socket is given by
    [alive].  The Redis client, when there is one, is given by the channels
    on which [publish] succeeds; the listener task is not modelled. *)

Module Websocket.

Record ConnectionManager : Type := mkConnectionManager {
  active_connections : gmap Z (gset string);
  channel_connections : gmap string (gset Z)
}.

(** [ConnectionManager()] *)
Definition new : ConnectionManager := mkConnectionManager ∅ ∅.

Definition subscribe (websocket : Z) (channel : string)
    (self : ConnectionManager) : ConnectionManager :=
  match active_connections self !! websocket with
  | None => self
  | Some subscribed =>
      mkConnectionManager
        (<[websocket := subscribed ∪ {[channel]}]> (active_connections self))
        (<[channel := default ∅ (channel_connections self !! channel)
                      ∪ {[websocket]}]> (channel_connections self))
  end.

Definition _unsubscribe_internal (websocket : Z) (channel : string)
    (self : ConnectionManager) : ConnectionManager :=
  let active :=
    match active_connections self !! websocket with
    | Some subscribed =>
        <[websocket := subscribed ∖ {[channel]}]> (active_connections self)
    | None => active_connections self
    end in
  let channels :=
    match channel_connections self !! channel with
    | Some sockets =>
        let sockets := sockets ∖ {[websocket]} in
        if decide (sockets = ∅) then delete channel (channel_connections self)
        else <[channel := sockets]> (channel_connections self)
    | None => channel_connections self
    end in
  mkConnectionManager active channels.

Definition unsubscribe := _unsubscribe_internal.

Definition disconnect (websocket : Z) (self : ConnectionManager)
    : ConnectionManager :=
  match active_connections self !! websocket with
  | Some subscribed =>
      let self := set_fold (_unsubscribe_internal websocket) self subscribed in
      mkConnectionManager (delete websocket (active_connections self))
        (channel_connections self)
  | None => self
  end.

(** [connect]: the socket is accepted, its set of channels is (re)set to the
    empty set, and it is subscribed to the channels asked for. *)
Definition connect (websocket : Z) (channels : list string)
    (self : ConnectionManager) : ConnectionManager :=
  let self :=
    mkConnectionManager (<[websocket := ∅]> (active_connections self))
      (channel_connections self) in
  fold_left (fun m c => subscribe websocket c m) channels self.

(** [_broadcast_to_channel]: the sockets the message reached, and the
    manager once the sockets whose send failed have been disconnected. *)
Definition _broadcast_to_channel (alive : Z -> bool) (channel : string)
    (self : ConnectionManager) : ConnectionManager * gset Z :=
  match channel_connections self !! channel with
  | None => (self, ∅)
  | Some sockets =>
      let dead_connections := filter (fun ws => alive ws = false) sockets in
      (set_fold disconnect self dead_connections,
       filter (fun ws => alive ws = true) sockets)
  end.

(** The two maps agree: a socket lists a channel exactly when the channel
    lists the socket, and no channel is kept with an empty set. *)
Definition subscribed_to (self : ConnectionManager) (websocket : Z)
    (channel : string) : Prop :=
  exists s, active_connections self !! websocket = Some s /\ channel ∈ s.

Definition listed_in (self : ConnectionManager) (channel : string)
    (websocket : Z) : Prop :=
  exists s, channel_connections self !! channel = Some s /\ websocket ∈ s.

Definition consistent (self : ConnectionManager) : Prop :=
  (forall ws c, subscribed_to self ws c <-> listed_in self c ws) /\
  (forall c s, channel_connections self !! c = Some s -> s <> ∅).

(** [broadcast_to_all]: every registered socket is sent the message. *)
Definition broadcast_to_all (alive : Z -> bool) (self : ConnectionManager)
    : ConnectionManager * gset Z :=
  let sockets := dom (active_connections self) in
  let dead_connections := filter (fun ws => alive ws = false) sockets in
  (set_fold disconnect self dead_connections,
   filter (fun ws => alive ws = true) sockets).

(** [send_personal]: whether the message was sent. *)
Definition send_personal (alive : Z -> bool) (websocket : Z)
    (self : ConnectionManager) : ConnectionManager * bool :=
  if alive websocket then (self, true)
  else (disconnect websocket self, false).

Module JobUpdate.

Record t : Type := mk {
  type : string;
  job_id : string;
  batch_id : string;
  episode_id : string;
  status : string;
  progress : Z;
  current_step : string;
  error_message : option string;
  timestamp : Z
}.

End JobUpdate.

Module BatchUpdate.

Record t : Type := mk {
  type : string;
  batch_id : string;
  status : string;
  completed_episodes : Z;
  failed_episodes : Z;
  total_episodes : Z;
  progress_percent : Q;
  timestamp : Z
}.

End BatchUpdate.

(** What a [publish_..._update] call did: the message it built, the Redis
    channels it published on, the sockets each local broadcast reached, and
    the manager afterwards. *)
Record publication (M : Type) : Type := mkPublication {
  message : M;
  redis_channels : list string;
  local : list (string * gset Z);
  manager : ConnectionManager
}.

Arguments mkPublication {M}.
Arguments message {M}.
Arguments redis_channels {M}.
Arguments local {M}.
Arguments manager {M}.

(** The [publish] calls of a [try] block, one after the other: the first
    one that raises ends the block. *)
Fixpoint redis_publish (ok : string -> bool) (channels : list string)
    : list string :=
  match channels with
  | [] => []
  | channel :: channels =>
      if ok channel then channel :: redis_publish ok channels else []
  end.

(** The [_broadcast_to_channel] calls of the fallback, one after the
    other on the same manager. *)
Fixpoint broadcast_each (alive : Z -> bool) (channels : list string)
    (self : ConnectionManager) : ConnectionManager * list (string * gset Z) :=
  match channels with
  | [] => (self, [])
  | channel :: channels =>
      let sent := _broadcast_to_channel alive channel self in
      let rest := broadcast_each alive channels (fst sent) in
      (fst rest, (channel, snd sent) :: snd rest)
  end.

(** [if batch_id:] on a [str | None]. *)
Definition batch_channel (prefix : string) (batch_id : option string)
    : list string :=
  match batch_id with
  | Some b => if String.eqb b "" then [] else [prefix ++ b]
  | None => []
  end.

Definition publish_job_update (alive : Z -> bool)
    (redis_client : option (string -> bool)) (now : Z)
    (job_id : string) (batch_id : option string) (episode_id status : string)
    (progress : Z) (current_step : string) (error_message : option string)
    (self : ConnectionManager) : publication JobUpdate.t :=
  let update :=
    JobUpdate.mk "job_update" job_id (default "" batch_id) episode_id status
      progress current_step error_message now in
  match redis_client with
  | Some ok =>
      mkPublication update
        (redis_publish ok
           ([("ws:job:" ++ job_id)%string]
            ++ batch_channel "ws:batch:" batch_id ++ ["ws:updates"])%list)
        [] self
  | None =>
      let sent :=
        broadcast_each alive
          ([("job:" ++ job_id)%string]
           ++ batch_channel "batch:" batch_id ++ ["updates"])%list self in
      mkPublication update [] (snd sent) (fst sent)
  end.

Definition publish_batch_update (alive : Z -> bool)
    (redis_client : option (string -> bool)) (now : Z)
    (batch_id status : string)
    (completed_episodes failed_episodes total_episodes : Z)
    (self : ConnectionManager) : publication BatchUpdate.t :=
  let progress_percent :=
    if Z.ltb 0 total_episodes
    then (inject_Z (completed_episodes + failed_episodes)
          / inject_Z total_episodes * 100)%Q
    else 0%Q in
  let update :=
    BatchUpdate.mk "batch_update" batch_id status completed_episodes
      failed_episodes total_episodes progress_percent now in
  match redis_client with
  | Some ok =>
      mkPublication update
        (redis_publish ok ["ws:batch:" ++ batch_id; "ws:updates"]) [] self
  | None =>
      let sent :=
        broadcast_each alive ["batch:" ++ batch_id; "updates"] self in
      mkPublication update [] (snd sent) (fst sent)
  end.

End Websocket.

(** ** The operations that write job rows *)

Inductive operation : Type :=
| op_start_batch (now batch_id : Z)
| op_pause_batch (now batch_id : Z)
| op_resume_batch (batch_id : Z)
| op_cancel_batch (now batch_id : Z)
| op_retry_batch (batch_id : Z)
| op_retry_job (job_id : Z)
| op_pause_job (job_id : Z)
| op_resume_job (job_id : Z)
| op_cancel_job (job_id : Z)
| op_worker_retry_failed_jobs (batch_id : Z)
| op_task_retry_failed_jobs (batch_id : Z)
| op_check_batch_completion (now batch_id : Z)
| op_process_episode (w : Pipeline.world) (now job_id episode_id : Z)
| op_process_episode_task (uuid_str : Z -> string) (episode_id job_id : Z)
| op_cli_retry_job (job_id : Z)
| op_cli_retry_batch (batch_id : Z)
| op_cli_retry_channel (episode_ids : list Z).

Definition apply (o : operation) (db : DB) : DB :=
  match o with
  | op_start_batch now b => fst (Batches.start_batch now b db)
  | op_pause_batch now b => fst (Batches.pause_batch now b db)
  | op_resume_batch b => fst (Batches.resume_batch b db)
  | op_cancel_batch now b => fst (Batches.cancel_batch now b db)
  | op_retry_batch b => fst (Batches.retry_batch b db)
  | op_retry_job j => fst (Jobs.retry_job j db)
  | op_pause_job j => fst (Jobs.pause_job j db)
  | op_resume_job j => fst (Jobs.resume_job j db)
  | op_cancel_job j => fst (Jobs.cancel_job j db)
  | op_worker_retry_failed_jobs b => Worker.retry_failed_jobs b db
  | op_task_retry_failed_jobs b => fst (Tasks.retry_failed_jobs b db)
  | op_check_batch_completion now b =>
      fst (Tasks.check_batch_completion now b db)
  | op_process_episode w now j e =>
      fst (fst (Pipeline.process_episode w now j e db))
  | op_process_episode_task u e j =>
      fst (Tasks.process_episode_task u e j db)
  | op_cli_retry_job j => Cli.retry_job j db
  | op_cli_retry_batch b => Cli.retry_batch b db
  | op_cli_retry_channel es => Cli.retry_channel es db
  end.

(** A row [j'] continues a row [j]: same job, and a retry counter that is
    not smaller. *)
Definition grows (j j' : Job.t) : Prop :=
  Job.id j' = Job.id j /\ Job.retry_count j <= Job.retry_count j'.

Definition jobs_step (db db' : DB) : Prop :=
  forall (i : nat) (j : Job.t),
    jobs db !! i = Some j ->
    exists j', jobs db' !! i = Some j' /\ grows j j'.

(** ** Sample rows and stores *)

Module Sample.

Definition batch (status : string) (completed failed : Z)
    (started_at paused_at : option Z) : Batch.t :=
  Batch.mk 1 "deepgram" 10 3 completed failed 0 status
    started_at paused_at None.

Definition job (id : Z) (status : string) (retry_count : Z)
    (error_message error_code : option string) : Job.t :=
  Job.mk id (Some 1) (100 + id) "deepgram" None status 40 None
    error_message error_code retry_count None (Some 5) None.

Definition episode (id : Z) : Episode.t := Episode.mk id "queued" None.

Definition store (b : Batch.t) (js : list Job.t) : DB :=
  mkDB {[ 1 := b ]} js
    (list_to_map ((fun j => (Job.episode_id j, episode (Job.episode_id j)))
                    <$> js)).

(** A message of 600 characters. *)
Definition long_message : string :=
  String.concat "" (List.repeat "x" 600).

(** A run in which only the transcription provider raises. *)
Definition provider_down (msg : string) : Pipeline.world :=
  Pipeline.mkWorld
    (fun g => match g with
              | Pipeline.transcribe => Some (Exception msg)
              | _ => None
              end)
    "/tmp/audio/abc.mp3" None None None.

End Sample.

(** * Properties *)

(** ** Auxiliary facts *)

Lemma str_in_In (x : string) (l : list string) :
  str_in x l = true <-> In x l.
Proof.
  unfold str_in. rewrite existsb_exists. split.
  - intros (y & Hy & He). apply String.eqb_eq in He. now subst.
  - intros H. exists x. split; [exact H | apply String.eqb_refl].
Qed.

Lemma str_in_false (x : string) (l : list string) :
  str_in x l = false <-> ~ In x l.
Proof.
  rewrite <- str_in_In. destruct (str_in x l); split; congruence.
Qed.

Lemma of_batch_true (batch_id : Z) (j : Job.t) :
  of_batch batch_id j = true <-> Job.batch_id j = Some batch_id.
Proof.
  unfold of_batch. destruct (Job.batch_id j) as [b|].
  - rewrite Z.eqb_eq. split; congruence.
  - split; congruence.
Qed.

Lemma update_where_lookup sel f (js : list Job.t) (i : nat) (j : Job.t) :
  js !! i = Some j ->
  update_where sel f js !! i = Some (if sel j then f j else j).
Proof.
  intros H. unfold update_where. rewrite list_lookup_fmap, H. reflexivity.
Qed.

Lemma update_where_length sel f (js : list Job.t) :
  length (update_where sel f js) = length js.
Proof. unfold update_where. apply length_fmap. Qed.

Lemma update_where_none sel f (js : list Job.t) :
  List.filter sel js = [] -> update_where sel f js = js.
Proof.
  unfold update_where. induction js as [|j js IH]; intros H; [reflexivity|].
  cbn [List.filter] in H. rewrite fmap_cons.
  destruct (sel j); [discriminate|]. f_equal. apply IH, H.
Qed.

(** ** The batch state machine *)

Section BatchRoutes.

Import Batches.

Variables (now batch_id : Z) (db : DB) (batch : Batch.t).
Hypothesis Hrow : batches db !! batch_id = Some batch.

Lemma pause_batch_running :
  succeeded (snd (pause_batch now batch_id db))
  <-> Batch.status batch = "running".
Proof.
  unfold pause_batch. rewrite Hrow.
  destruct (String.eqb_spec (Batch.status batch) "running"); simpl; tauto.
Qed.

Lemma pause_batch_conflict :
  ~ succeeded (snd (pause_batch now batch_id db)) ->
  pause_batch now batch_id db
  = (db, HTTPException HTTP_400_BAD_REQUEST "Can only pause running batches").
Proof.
  unfold pause_batch. rewrite Hrow.
  destruct (String.eqb_spec (Batch.status batch) "running"); simpl;
    [intros H; exfalso; apply H; exact I | reflexivity].
Qed.

Lemma resume_batch_paused :
  succeeded (snd (resume_batch batch_id db))
  <-> Batch.status batch = "paused".
Proof.
  unfold resume_batch. rewrite Hrow.
  destruct (String.eqb_spec (Batch.status batch) "paused"); simpl; tauto.
Qed.

Lemma resume_batch_conflict :
  ~ succeeded (snd (resume_batch batch_id db)) ->
  resume_batch batch_id db
  = (db, HTTPException HTTP_400_BAD_REQUEST "Can only resume paused batches").
Proof.
  unfold resume_batch. rewrite Hrow.
  destruct (String.eqb_spec (Batch.status batch) "paused"); simpl;
    [intros H; exfalso; apply H; exact I | reflexivity].
Qed.

Lemma cancel_batch_conflict :
  ~ succeeded (snd (cancel_batch now batch_id db))
  <-> Batch.status batch = "completed" \/ Batch.status batch = "cancelled".
Proof.
  unfold cancel_batch. rewrite Hrow.
  destruct (str_in (Batch.status batch) ["completed"; "cancelled"]) eqn:E;
    simpl.
  - apply str_in_In in E. simpl in E. intuition congruence.
  - apply str_in_false in E. simpl in E. intuition congruence.
Qed.

Lemma cancel_batch_conflict_names_status :
  ~ succeeded (snd (cancel_batch now batch_id db)) ->
  cancel_batch now batch_id db
  = (db, HTTPException HTTP_400_BAD_REQUEST
           ("Cannot cancel batch with status: " +:+ Batch.status batch)).
Proof.
  unfold cancel_batch. rewrite Hrow.
  destruct (str_in (Batch.status batch) ["completed"; "cancelled"]); simpl;
    [reflexivity | intros H; exfalso; apply H; exact I].
Qed.

End BatchRoutes.

(** C1.  For a batch that exists, [pause] succeeds exactly from 'running',
    [resume] exactly from 'paused', [cancel] fails exactly from 'completed'
    or 'cancelled' and then names the current status in its error; a failed
    pause, resume or cancel hands back the store it was given, so the batch
    row is unchanged. *)
Theorem batch_transition_guards (now batch_id : Z) (db : DB) (batch : Batch.t) :
  batches db !! batch_id = Some batch ->
  (succeeded (snd (Batches.pause_batch now batch_id db))
   <-> Batch.status batch = "running") /\
  (succeeded (snd (Batches.resume_batch batch_id db))
   <-> Batch.status batch = "paused") /\
  (~ succeeded (snd (Batches.cancel_batch now batch_id db))
   <-> Batch.status batch = "completed" \/ Batch.status batch = "cancelled") /\
  (~ succeeded (snd (Batches.cancel_batch now batch_id db)) ->
   snd (Batches.cancel_batch now batch_id db)
   = HTTPException HTTP_400_BAD_REQUEST
       ("Cannot cancel batch with status: " +:+ Batch.status batch)) /\
  (~ succeeded (snd (Batches.pause_batch now batch_id db)) ->
   fst (Batches.pause_batch now batch_id db) = db) /\
  (~ succeeded (snd (Batches.resume_batch batch_id db)) ->
   fst (Batches.resume_batch batch_id db) = db) /\
  (~ succeeded (snd (Batches.cancel_batch now batch_id db)) ->
   fst (Batches.cancel_batch now batch_id db) = db).
Proof.
  intros Hrow. repeat split.
  - apply (pause_batch_running now batch_id db batch Hrow).
  - apply (pause_batch_running now batch_id db batch Hrow).
  - apply (resume_batch_paused batch_id db batch Hrow).
  - apply (resume_batch_paused batch_id db batch Hrow).
  - apply (cancel_batch_conflict now batch_id db batch Hrow).
  - apply (cancel_batch_conflict now batch_id db batch Hrow).
  - intros H.
    now rewrite (cancel_batch_conflict_names_status now _ _ _ Hrow H).
  - intros H. now rewrite (pause_batch_conflict now _ _ _ Hrow H).
  - intros H. now rewrite (resume_batch_conflict _ _ _ Hrow H).
  - intros H.
    now rewrite (cancel_batch_conflict_names_status now _ _ _ Hrow H).
Qed.

Lemma batch_transition_guards_witness :
  let db := Sample.store (Sample.batch "completed" 3 0 (Some 2) None) [] in
  batches db !! 1 = Some (Sample.batch "completed" 3 0 (Some 2) None) /\
  snd (Batches.cancel_batch 7 1 db)
  = HTTPException 400 "Cannot cancel batch with status: completed" /\
  fst (Batches.pause_batch 7 1 db) = db.
Proof.
  pose proof (batch_transition_guards 7 1
                (Sample.store (Sample.batch "completed" 3 0 (Some 2) None) [])
                (Sample.batch "completed" 3 0 (Some 2) None)
                ltac:(vm_compute; reflexivity)) as (_ & _ & Hc & Hn & Hp & _).
  cbv zeta. split; [vm_compute; reflexivity|]. split.
  - apply Hn. apply Hc. left. reflexivity.
  - apply Hp. vm_compute. tauto.
Defined.

(** ** Cancelling a batch *)

Lemma cancel_selected_true (batch_id : Z) (j : Job.t) :
  of_batch batch_id j
  && str_in (Job.status j) ["pending"; "downloading"; "uploading"] = true
  <-> Job.batch_id j = Some batch_id
      /\ In (Job.status j) ["pending"; "downloading"; "uploading"].
Proof. now rewrite andb_true_iff, of_batch_true, str_in_In. Qed.

(** C6.  On a batch that is neither 'completed' nor 'cancelled', [cancel]
    succeeds, writes the batch row with status 'cancelled' and
    [completed_at = now] (nothing else changed), turns every job of the batch
    that is 'pending', 'downloading' or 'uploading' into 'cancelled', and
    leaves every other job row as it was. *)
Theorem cancel_batch_effect (now batch_id : Z) (db : DB) (batch : Batch.t) :
  batches db !! batch_id = Some batch ->
  Batch.status batch <> "completed" ->
  Batch.status batch <> "cancelled" ->
  let db' := fst (Batches.cancel_batch now batch_id db) in
  succeeded (snd (Batches.cancel_batch now batch_id db)) /\
  (exists b',
      batches db' !! batch_id = Some b' /\
      Batch.status b' = "cancelled" /\
      Batch.completed_at b' = Some now /\
      b' = Batch.set_completed_at (Some now)
             (Batch.set_status "cancelled" batch)) /\
  length (jobs db') = length (jobs db) /\
  (forall (i : nat) (j : Job.t),
      jobs db !! i = Some j ->
      (Job.batch_id j = Some batch_id ->
       In (Job.status j) ["pending"; "downloading"; "uploading"] ->
       jobs db' !! i = Some (Job.set_status "cancelled" j)) /\
      (~ (Job.batch_id j = Some batch_id /\
          In (Job.status j) ["pending"; "downloading"; "uploading"]) ->
       jobs db' !! i = Some j)).
Proof.
  intros Hrow Hc Hx. unfold Batches.cancel_batch. rewrite Hrow.
  assert (E : str_in (Batch.status batch) ["completed"; "cancelled"] = false).
  { apply str_in_false. simpl. intuition congruence. }
  rewrite E. cbn [fst snd]. split; [exact I|]. split; [|split].
  - exists (Batch.set_completed_at (Some now)
              (Batch.set_status "cancelled" batch)).
    split; [|repeat split].
    unfold put_jobs, put_batch. cbn [batches].
    apply lookup_insert_eq.
  - unfold put_jobs. cbn [jobs]. apply update_where_length.
  - intros i j Hj. unfold put_jobs. cbn [jobs].
    rewrite (update_where_lookup _ _ _ _ _ Hj). split.
    + intros Hb Hs.
      assert (S : of_batch batch_id j
                  && str_in (Job.status j)
                       ["pending"; "downloading"; "uploading"] = true)
        by (apply cancel_selected_true; tauto).
      now rewrite S.
    + intros Hn.
      destruct (of_batch batch_id j
                && str_in (Job.status j)
                     ["pending"; "downloading"; "uploading"]) eqn:S;
        [|reflexivity].
      apply cancel_selected_true in S. tauto.
Qed.

Lemma cancel_batch_effect_witness :
  let db := Sample.store (Sample.batch "running" 0 0 (Some 2) None)
              [Sample.job 1 "pending" 0 None None;
               Sample.job 2 "pending" 0 None None;
               Sample.job 3 "transcribing" 0 None None] in
  let db' := fst (Batches.cancel_batch 9 1 db) in
  jobs db' !! 0%nat
  = Some (Job.set_status "cancelled" (Sample.job 1 "pending" 0 None None)) /\
  jobs db' !! 2%nat = Some (Sample.job 3 "transcribing" 0 None None).
Proof.
  pose (db := Sample.store (Sample.batch "running" 0 0 (Some 2) None)
                [Sample.job 1 "pending" 0 None None;
                 Sample.job 2 "pending" 0 None None;
                 Sample.job 3 "transcribing" 0 None None]).
  destruct (cancel_batch_effect 9 1 db
              (Sample.batch "running" 0 0 (Some 2) None)
              ltac:(vm_compute; reflexivity)
              ltac:(vm_compute; discriminate)
              ltac:(vm_compute; discriminate)) as (_ & _ & _ & H).
  cbv zeta. fold db. split.
  - apply (H 0%nat (Sample.job 1 "pending" 0 None None) eq_refl);
      [reflexivity | simpl; tauto].
  - apply (H 2%nat (Sample.job 3 "transcribing" 0 None None) eq_refl).
    intros [_ Hin]. simpl in Hin. intuition discriminate.
Defined.

(** ** Starting a batch *)

Lemma start_batch_row (now batch_id : Z) (db : DB) (batch : Batch.t) :
  batches db !! batch_id = Some batch ->
  In (Batch.status batch) ["pending"; "paused"] ->
  succeeded (snd (Batches.start_batch now batch_id db)) /\
  batches (fst (Batches.start_batch now batch_id db)) !! batch_id
  = Some (Batch.set_paused_at None
            (Batch.set_started_at (Some now)
               (Batch.set_status "running" batch))).
Proof.
  intros Hrow Hs. unfold Batches.start_batch. rewrite Hrow.
  apply str_in_In in Hs. rewrite Hs. cbn [negb fst snd].
  split; [exact I|]. unfold put_batch. cbn [batches].
  apply lookup_insert_eq.
Qed.

(** C9 (the code does otherwise).  A batch started at time 10 and paused at
    time 20 is started again at time 99: the start succeeds, the status is
    'running', [paused_at] is cleared, and [started_at] is 99, not the 10 it
    held. *)
Theorem start_batch_restamps_started_at :
  let paused := Sample.batch "paused" 1 0 (Some 10) (Some 20) in
  let r := Batches.start_batch 99 1 (Sample.store paused []) in
  succeeded (snd r) /\
  (Batch.status <$> batches (fst r) !! 1) = Some "running" /\
  (Batch.paused_at <$> batches (fst r) !! 1) = Some None /\
  (Batch.started_at <$> batches (fst r) !! 1) = Some (Some 99) /\
  Batch.started_at paused = Some 10.
Proof. vm_compute. repeat split. Qed.

(** ** Retrying a batch *)

Lemma retry_selected_true (batch_id : Z) (j : Job.t) :
  Batches.retry_selected batch_id j = true
  <-> Job.batch_id j = Some batch_id
      /\ In (Job.status j) ["failed"; "cancelled"].
Proof.
  unfold Batches.retry_selected.
  now rewrite andb_true_iff, of_batch_true, str_in_In.
Qed.

Lemma filter_nil_iff {A : Type} (p : A -> bool) (l : list A) :
  List.filter p l = [] <-> forall x, In x l -> p x = false.
Proof.
  induction l as [|a l IH]; simpl.
  - split; [intros _ x [] | reflexivity].
  - destruct (p a) eqn:E; split.
    + discriminate.
    + intros H. specialize (H a (or_introl eq_refl)). congruence.
    + intros H x [<-|Hx]; [exact E | now apply IH].
    + intros H. apply IH. intros x Hx. apply H. now right.
Qed.

Lemma retry_batch_no_eligible (batch_id : Z) (db : DB) (batch : Batch.t) :
  batches db !! batch_id = Some batch ->
  List.filter (Batches.retry_selected batch_id) (jobs db) = [] ->
  Batches.retry_batch batch_id db
  = (db, HTTPException HTTP_400_BAD_REQUEST
           "No failed or cancelled jobs to retry").
Proof.
  intros Hrow Hnil. unfold Batches.retry_batch. now rewrite Hrow, Hnil.
Qed.

Lemma retry_batch_eligible (batch_id : Z) (db : DB) (batch : Batch.t) :
  batches db !! batch_id = Some batch ->
  List.filter (Batches.retry_selected batch_id) (jobs db) <> [] ->
  let n := Z.of_nat
             (length (List.filter (Batches.retry_selected batch_id) (jobs db))) in
  Batches.retry_batch batch_id db
  = (put_jobs
       (update_where (Batches.retry_selected batch_id) Batches.reset_job
          (jobs db))
       (put_batch batch_id
          (if str_in (Batch.status batch) ["failed"; "cancelled"; "completed"]
           then Batch.set_failed_episodes
                  (Z.max 0 (Batch.failed_episodes batch - n))
                  (Batch.set_completed_at None
                     (Batch.set_status "running" batch))
           else batch)
          db),
     Ok (mkBody "retrying" batch_id (Some n) (Some batch_id))).
Proof.
  intros Hrow Hne. unfold Batches.retry_batch. rewrite Hrow.
  destruct (List.filter (Batches.retry_selected batch_id) (jobs db));
    [congruence | reflexivity].
Qed.

(** C7, amended.  When no job of the batch is 'failed' or 'cancelled',
    [retry] returns an error and the store is unchanged.  Otherwise it
    succeeds; every job of the batch that is 'failed' or 'cancelled' becomes
    'pending' with [error_message], [started_at], [completed_at] and
    [current_step] cleared and [progress] 0, and every other job row is
    unchanged; when the batch is 'failed', 'cancelled' or 'completed' its
    row becomes 'running' with [completed_at] cleared and [failed_episodes]
    lowered by the number of jobs retried, not below 0; in any other status
    the batch row is left as it is. *)
Theorem retry_batch_effect (batch_id : Z) (db : DB) (batch : Batch.t) :
  batches db !! batch_id = Some batch ->
  let eligible (j : Job.t) :=
    Job.batch_id j = Some batch_id
    /\ In (Job.status j) ["failed"; "cancelled"] in
  let n := Z.of_nat
             (length (List.filter (Batches.retry_selected batch_id) (jobs db))) in
  let db' := fst (Batches.retry_batch batch_id db) in
  ((forall j, In j (jobs db) -> ~ eligible j) ->
   Batches.retry_batch batch_id db
   = (db, HTTPException HTTP_400_BAD_REQUEST
            "No failed or cancelled jobs to retry")) /\
  ((exists j, In j (jobs db) /\ eligible j) ->
   snd (Batches.retry_batch batch_id db)
   = Ok (mkBody "retrying" batch_id (Some n) (Some batch_id)) /\
   (forall (i : nat) (j : Job.t),
       jobs db !! i = Some j ->
       (eligible j ->
        exists j',
          jobs db' !! i = Some j' /\
          Job.status j' = "pending" /\
          Job.error_message j' = None /\
          Job.started_at j' = None /\
          Job.completed_at j' = None /\
          Job.progress j' = 0 /\
          Job.current_step j' = None /\
          Job.retry_count j' = Job.retry_count j /\
          Job.id j' = Job.id j /\
          Job.episode_id j' = Job.episode_id j) /\
       (~ eligible j -> jobs db' !! i = Some j)) /\
   (In (Batch.status batch) ["failed"; "cancelled"; "completed"] ->
    batches db' !! batch_id
    = Some (Batch.set_failed_episodes
              (Z.max 0 (Batch.failed_episodes batch - n))
              (Batch.set_completed_at None
                 (Batch.set_status "running" batch)))) /\
   (~ In (Batch.status batch) ["failed"; "cancelled"; "completed"] ->
    batches db' !! batch_id = Some batch)).
Proof.
  intros Hrow eligible n db'. split.
  - intros Hnone. apply (retry_batch_no_eligible _ _ _ Hrow).
    apply filter_nil_iff. intros j Hj.
    destruct (Batches.retry_selected batch_id j) eqn:E; [|reflexivity].
    apply retry_selected_true in E. exfalso. exact (Hnone j Hj E).
  - intros (j0 & Hin & Hel).
    assert (Hne : List.filter (Batches.retry_selected batch_id) (jobs db) <> []).
    { intros Hnil. rewrite filter_nil_iff in Hnil.
      apply retry_selected_true in Hel. rewrite (Hnil j0 Hin) in Hel.
      discriminate. }
    subst db'. rewrite (retry_batch_eligible _ _ _ Hrow Hne). cbn [fst snd].
    fold n. split; [reflexivity|]. split; [|split].
    + intros i j Hj. unfold put_jobs. cbn [jobs].
      rewrite (update_where_lookup _ _ _ _ _ Hj). split.
      * intros He. apply retry_selected_true in He. rewrite He.
        eexists. split; [reflexivity|]. repeat split.
      * intros Hn.
        destruct (Batches.retry_selected batch_id j) eqn:E; [|reflexivity].
        apply retry_selected_true in E. contradiction.
    + intros Hs. apply str_in_In in Hs. rewrite Hs.
      unfold put_jobs, put_batch. cbn [batches]. apply lookup_insert_eq.
    + intros Hs. apply str_in_false in Hs. rewrite Hs.
      unfold put_jobs, put_batch. cbn [batches]. apply lookup_insert_eq.
Qed.

Lemma retry_batch_effect_witness :
  let db := Sample.store (Sample.batch "completed" 1 2 (Some 2) None)
              [Sample.job 1 "failed" 3 (Some "boom") None;
               Sample.job 2 "done" 0 None None] in
  (Batch.failed_episodes <$> batches (fst (Batches.retry_batch 1 db)) !! 1)
  = Some 1 /\
  (Batch.status <$> batches (fst (Batches.retry_batch 1 db)) !! 1)
  = Some "running".
Proof.
  pose (b := Sample.batch "completed" 1 2 (Some 2) None).
  pose (db := Sample.store b
                [Sample.job 1 "failed" 3 (Some "boom") None;
                 Sample.job 2 "done" 0 None None]).
  destruct (retry_batch_effect 1 db b ltac:(vm_compute; reflexivity))
    as [_ H].
  destruct H as (_ & _ & Hb & _).
  { exists (Sample.job 1 "failed" 3 (Some "boom") None).
    split; [left; reflexivity | split; [reflexivity | left; reflexivity]]. }
  cbv zeta. fold b db. rewrite Hb; [split; reflexivity|].
  right. right. left. reflexivity.
Defined.

(** C7 as stated fails: a 'paused' batch with one failed job is retried; the
    call succeeds, yet the batch is still 'paused' and its
    [failed_episodes] is still 1. *)
Lemma retry_batch_paused_counterexample :
  let db := Sample.store (Sample.batch "paused" 0 1 (Some 2) (Some 4))
              [Sample.job 1 "failed" 0 (Some "boom") None] in
  let r := Batches.retry_batch 1 db in
  succeeded (snd r) /\
  ~ (exists b', batches (fst r) !! 1 = Some b' /\
                Batch.status b' = "running" /\
                Batch.failed_episodes b' = 0).
Proof.
  cbv zeta. split; [vm_compute; exact I|].
  intros (b' & Hb & Hs & _). vm_compute in Hb.
  injection Hb as <-. discriminate Hs.
Qed.

(** ** Progress of a batch *)

(** C10.  Reading [progress_percent] always returns a number and never
    raises: it is 0 when [total_episodes] is 0 and
    [completed_episodes / total_episodes * 100] otherwise, and it does not
    depend on [failed_episodes]. *)
Theorem progress_percent_total (self : Batch.t) :
  (exists q, progress_percent self = Returns q) /\
  (Batch.total_episodes self = 0 -> progress_percent self = Returns 0%Q) /\
  (Batch.total_episodes self <> 0 ->
   progress_percent self
   = Returns (inject_Z (Batch.completed_episodes self)
              / inject_Z (Batch.total_episodes self) * 100)%Q) /\
  (forall v, progress_percent (Batch.set_failed_episodes v self)
             = progress_percent self).
Proof.
  unfold progress_percent, truediv.
  destruct (Z.eqb_spec (Batch.total_episodes self) 0) as [E|E].
  - repeat split; eauto; try congruence.
    intros v. cbn [Batch.set_failed_episodes Batch.total_episodes].
    apply Z.eqb_eq in E. now rewrite E.
  - repeat split; eauto; try congruence.
    intros v.
    cbn [Batch.set_failed_episodes Batch.total_episodes
         Batch.completed_episodes].
    apply Z.eqb_neq in E. now rewrite E.
Qed.

Lemma progress_percent_total_witness :
  let b := Sample.batch "running" 1 2 (Some 2) None in
  Batch.total_episodes b <> 0 /\
  progress_percent b = Returns (inject_Z 1 / inject_Z 3 * 100)%Q /\
  progress_percent (Batch.set_failed_episodes 0 b) = progress_percent b.
Proof.
  cbv zeta.
  destruct (progress_percent_total (Sample.batch "running" 1 2 (Some 2) None))
    as (_ & _ & Hq & Hf).
  split; [vm_compute; discriminate|]. split.
  - apply Hq. vm_compute. discriminate.
  - apply Hf.
Defined.

(** ** The counters of a batch under completing jobs *)

(** Two batch rows built by setters are equal when their counters are. *)
Ltac batch_rows_eq :=
  unfold Batch.set_failed_episodes, Batch.set_completed_episodes;
  cbn; f_equal; lia.

Section StatsLoop.

Import Worker.

Variable batch_id : Z.

Lemma increment_completed_row (db : DB) (b : Batch.t) :
  batches db !! batch_id = Some b ->
  batches (increment_completed batch_id db) !! batch_id
  = Some (Batch.set_completed_episodes (Batch.completed_episodes b + 1) b).
Proof.
  intros H. unfold increment_completed. cbn [batches].
  now rewrite lookup_alter_eq, H.
Qed.

Lemma increment_failed_row (db : DB) (b : Batch.t) :
  batches db !! batch_id = Some b ->
  batches (increment_failed batch_id db) !! batch_id
  = Some (Batch.set_failed_episodes (Batch.failed_episodes b + 1) b).
Proof.
  intros H. unfold increment_failed. cbn [batches].
  now rewrite lookup_alter_eq, H.
Qed.

(** Every attempt that returns adds 1 to exactly one counter of the row,
    by one UPDATE. *)
Lemma update_stats_returned (s : bool) (l : locals) (db : DB) (b : Batch.t) :
  batches db !! batch_id = Some b ->
  exists db',
    update_stats batch_id (await_attempt (Returned s) l) db = Returns db' /\
    jobs db' = jobs db /\
    batches db' !! batch_id
    = Some (if s
            then Batch.set_completed_episodes
                   (Batch.completed_episodes b + 1) b
            else Batch.set_failed_episodes
                   (Batch.failed_episodes b + 1) b).
Proof.
  intros H. destruct s; cbn.
  - eexists. split; [reflexivity|]. split; [reflexivity|].
    now apply increment_completed_row.
  - eexists. split; [reflexivity|]. split; [reflexivity|].
    now apply increment_failed_row.
Qed.

(** When no attempt raises, the loop ends and the row holds its initial
    counters plus the numbers of successes and of failures. *)
Lemma stats_loop_returned (attempts : list attempt) :
  Forall returned attempts ->
  forall (l : locals) (db : DB) (b : Batch.t),
    batches db !! batch_id = Some b ->
    exists l' db',
      stats_loop batch_id attempts l db = Returns (l', db') /\
      jobs db' = jobs db /\
      batches db' !! batch_id
      = Some (Batch.set_failed_episodes
                (Batch.failed_episodes b + failures attempts)
                (Batch.set_completed_episodes
                   (Batch.completed_episodes b + successes attempts) b)).
Proof.
  induction 1 as [|a rest Ha _ IH]; intros l db b Hb.
  - exists l, db. split; [reflexivity|]. split; [reflexivity|].
    rewrite Hb. f_equal. destruct b. batch_rows_eq.
  - destruct a as [s|e]; [|destruct Ha].
    destruct (update_stats_returned s l db b Hb) as (db1 & E1 & J1 & B1).
    cbn [stats_loop]. rewrite E1.
    destruct (IH (await_attempt (Returned s) l) db1 _ B1)
      as (l' & db' & E & J & B).
    exists l', db'. split; [exact E|]. split; [congruence|].
    rewrite B. f_equal. destruct b, s; batch_rows_eq.
Qed.

Lemma successes_Permutation (xs ys : list attempt) :
  Permutation xs ys -> successes xs = successes ys.
Proof. induction 1; cbn; lia. Qed.

Lemma failures_Permutation (xs ys : list attempt) :
  Permutation xs ys -> failures xs = failures ys.
Proof. induction 1; cbn; lia. Qed.

(** Without raised attempts the row the loop leaves does not depend on the
    order of completion. *)
Lemma stats_loop_order (xs ys : list attempt) (l1 l2 : locals) (db : DB)
    (b : Batch.t) :
  Forall returned xs -> Permutation xs ys ->
  batches db !! batch_id = Some b ->
  exists l1' l2' db1 db2,
    stats_loop batch_id xs l1 db = Returns (l1', db1) /\
    stats_loop batch_id ys l2 db = Returns (l2', db2) /\
    batches db1 !! batch_id = batches db2 !! batch_id.
Proof.
  intros Hx Hp Hb.
  assert (Hy : Forall returned ys).
  { rewrite Forall_forall in *. intros a Ha. apply Hx.
    apply list_elem_of_In. apply list_elem_of_In in Ha.
    now rewrite Hp. }
  destruct (stats_loop_returned xs Hx l1 db b Hb) as (l1' & db1 & E1 & _ & B1).
  destruct (stats_loop_returned ys Hy l2 db b Hb) as (l2' & db2 & E2 & _ & B2).
  exists l1', l2', db1, db2. split; [exact E1|]. split; [exact E2|].
  rewrite B1, B2.
  now rewrite (successes_Permutation _ _ Hp), (failures_Permutation _ _ Hp).
Qed.

End StatsLoop.

(** C2 (the code does otherwise).  A batch holds [completed_episodes = 3]
    and two of its jobs complete, the first returning [True], the second
    raising.  The loop counts one success and one failure in its locals, but
    the UPDATE of the second iteration follows the [success] left by the
    first: the row ends with [completed_episodes = 5] and
    [failed_episodes = 0] instead of 4 and 1.  In the other order the loop
    stops with [UnboundLocalError] before any UPDATE.  The final status
    update then stores the locals, 1 and 1, over the row. *)
Theorem stats_loop_stale_success :
  let db := Sample.store (Sample.batch "running" 3 0 (Some 2) None) [] in
  let boom := Worker.Raised (Exception "connection lost") in
  let attempts := [Worker.Returned true; boom] in
  Worker.successes attempts = 1 /\
  Worker.failures attempts = 1 /\
  (exists l db',
      Worker.stats_loop 1 attempts Worker.initial_locals db = Returns (l, db') /\
      Worker.completed l = 1 /\
      Worker.failed l = 1 /\
      (Batch.completed_episodes <$> batches db' !! 1) = Some 5 /\
      (Batch.failed_episodes <$> batches db' !! 1) = Some 0) /\
  (exists m,
      Worker.stats_loop 1 [boom; Worker.Returned true] Worker.initial_locals db
      = Raises (UnboundLocalError m)) /\
  (exists db',
      Worker.process_batch_stats 9 1 attempts db = Returns db' /\
      (Batch.completed_episodes <$> batches db' !! 1) = Some 1 /\
      (Batch.failed_episodes <$> batches db' !! 1) = Some 1).
Proof.
  cbv zeta. split; [reflexivity|]. split; [reflexivity|]. split; [|split].
  - eexists _, _. split; [vm_compute; reflexivity|].
    repeat split; vm_compute; reflexivity.
  - eexists. vm_compute. reflexivity.
  - eexists. split; [vm_compute; reflexivity|].
    split; vm_compute; reflexivity.
Qed.

(** ** Reconciling a batch *)

(** On a running batch [check_batch_completion] reaches the assignment of
    [progress_percent] and raises there, before its commit. *)
Lemma check_batch_completion_running (now batch_id : Z) (db : DB)
    (batch : Batch.t) :
  batches db !! batch_id = Some batch ->
  Batch.status batch = "running" ->
  exists m,
    Tasks.check_batch_completion now batch_id db
    = (db, Raises (AttributeError m)).
Proof.
  intros Hrow Hs. unfold Tasks.check_batch_completion.
  rewrite Hrow, Hs. cbn. eexists. reflexivity.
Qed.

(** C3 (the code does otherwise).  A running batch has one job 'done' and
    one job 'failed', none pending or processing.  Reconciling it raises
    [AttributeError] and leaves the store as it was: the batch is still
    'running', [failed_episodes] is still 0 and [completed_at] is unset. *)
Theorem check_batch_completion_raises :
  let db := Sample.store (Sample.batch "running" 0 0 (Some 2) None)
              [Sample.job 1 "done" 0 None None;
               Sample.job 2 "failed" 0 (Some "boom") None] in
  let r := Tasks.check_batch_completion 9 1 db in
  (exists m, snd r = Raises (AttributeError m)) /\
  fst r = db /\
  (Batch.status <$> batches (fst r) !! 1) = Some "running" /\
  (Batch.failed_episodes <$> batches (fst r) !! 1) = Some 0 /\
  (Batch.completed_at <$> batches (fst r) !! 1) = Some None.
Proof.
  cbv zeta. split; [eexists; vm_compute; reflexivity|].
  split; [reflexivity|]. repeat split.
Qed.

(** ** Failure of a pipeline run *)

Section PipelineRun.

Import Pipeline.

Variables (w : world) (now : Z).

(** The [try] block ends with the first failure of the run, if there is
    one, and otherwise returns. *)
Lemma try_block_outcome (s : st) :
  snd (try_block w now s)
  = match first_failure w with
    | Some e => Raises e
    | None => Returns tt
    end.
Proof.
  unfold try_block, first_failure, stages, failure_at, bind, step,
    _download_audio, _transcribe, _cleanup, call, bind, step.
  cbn [List.fold_right fst snd].
  destruct (raises w download_audio); [reflexivity|].
  destruct (raises w transcribe); [reflexivity|].
  destruct (transcription_failed w); [reflexivity|]. cbn [fmap option_fmap option_map].
  destruct (raises w label_speakers); [reflexivity|].
  destruct (raises w save_utterances); [reflexivity|].
  destruct (raises w chunk_transcript); [reflexivity|].
  destruct (raises w embed_and_store); [reflexivity|].
  destruct (raises w cleanup_audio); [reflexivity|].
  destruct (raises w save_transcript_backup); reflexivity.
Qed.

(** Once the download has returned, the local [audio_path] holds its
    path. *)
Lemma try_block_audio_path (s : st) :
  raises w download_audio = None ->
  audio_path (fst (try_block w now s)) = Some (downloaded_path w).
Proof.
  intros Hd.
  unfold try_block, bind, step, _download_audio, _transcribe, _cleanup,
    call, bind, step.
  rewrite Hd. cbn [fst snd].
  destruct (raises w transcribe); [reflexivity|].
  destruct (transcription_failed w); [reflexivity|].
  destruct (raises w label_speakers); [reflexivity|].
  destruct (raises w save_utterances); [reflexivity|].
  destruct (raises w chunk_transcript); [reflexivity|].
  destruct (raises w embed_and_store); [reflexivity|].
  destruct (raises w cleanup_audio); [reflexivity|].
  destruct (raises w save_transcript_backup); reflexivity.
Qed.

Lemma cleanup_state (s : st) :
  fst (_cleanup w s)
  = mkSt (job s) (episode s) (audio_path s)
      (cleanup_calls s ++ [default "" (audio_path s)])%list.
Proof.
  unfold _cleanup, call. now destruct (raises w cleanup_audio).
Qed.

Lemma except_block_effect (e : exn) (s : st) :
  let r := except_block w now e s in
  snd r = Returns false /\
  Job.status (job (fst r)) = "failed" /\
  Job.error_message (job (fst r)) = Some (str e) /\
  Job.completed_at (job (fst r)) = Some now /\
  Job.retry_count (job (fst r)) = Job.retry_count (job s) /\
  Episode.status (episode (fst r)) = "failed" /\
  (forall p, audio_path s = Some p ->
             cleanup_calls (fst r) = (cleanup_calls s ++ [p])%list).
Proof.
  unfold except_block. cbn [fst snd].
  destruct (audio_path s) as [p|] eqn:Ea.
  - rewrite cleanup_state, Ea. cbn.
    repeat split. now intros p' [= <-].
  - repeat split. discriminate.
Qed.

End PipelineRun.

Lemma first_failure_of_raise (w : Pipeline.world) (g : Pipeline.stage)
    (e : exn) :
  Pipeline.raises w g = Some e ->
  exists ex, Pipeline.first_failure w = Some ex.
Proof.
  intros H. unfold Pipeline.first_failure, Pipeline.stages.
  cbn [List.fold_right].
  repeat match goal with
         | |- exists ex, match ?f with Some _ => _ | None => _ end = Some ex =>
             destruct f eqn:?; [eexists; reflexivity|]
         end.
  unfold Pipeline.failure_at in *.
  destruct g; rewrite H in *; discriminate.
Qed.

Lemma substring_prefix_length (n : nat) (s : string) :
  (String.length (String.substring 0 n s) <= n)%nat.
Proof.
  revert s. induction n as [|n IH]; intros [|c s]; cbn; try lia.
  specialize (IH s). lia.
Qed.

(** The handler of the Celery task: the job rows with the task's job id are
    marked failed with the message cut to 500 characters, no episode is
    touched, and the exception is raised again. *)
Lemma task_except_block_effect (e : exn) (job : Job.t) (db : DB) :
  let t := Tasks.except_block e (Some job) db in
  snd t = Raises e /\
  episodes (fst t) = episodes db /\
  batches (fst t) = batches db /\
  (forall (i : nat) (j : Job.t),
      jobs db !! i = Some j ->
      (Job.id j = Job.id job ->
       exists j',
         jobs (fst t) !! i = Some j' /\
         Job.status j' = "failed" /\
         Job.error_message j' = Some (String.substring 0 500 (str e)) /\
         (exists m, Job.error_message j' = Some m
                    /\ (String.length m <= 500)%nat)) /\
      (Job.id j <> Job.id job -> jobs (fst t) !! i = Some j)).
Proof.
  cbv zeta. unfold Tasks.except_block, put_jobs. cbn [fst snd jobs episodes batches].
  split; [reflexivity|]. split; [reflexivity|]. split; [reflexivity|].
  intros i j Hj. rewrite (update_where_lookup _ _ _ _ _ Hj).
  unfold Jobs.has_id. split; intros Hid.
  - apply Z.eqb_eq in Hid. rewrite Hid.
    eexists. split; [reflexivity|]. split; [reflexivity|].
    split; [reflexivity|].
    eexists. split; [reflexivity|]. apply substring_prefix_length.
  - apply Z.eqb_neq in Hid. now rewrite Hid.
Qed.

(** C5, amended.  When a stage of a pipeline run raises, [process_episode]
    ends in its handler with the first exception raised: the job is marked
    'failed' with [error_message = str(e)] in full and [completed_at = now],
    the episode is marked 'failed', [cleanup_audio] is called on the staged
    file whenever the download had returned its path, and the run returns
    [False]; nothing is raised to the caller.  Cutting the message to 500
    characters and raising again is what the handler of the Celery task
    does, on the job row only. *)
Theorem process_episode_failure (w : Pipeline.world) (now : Z)
    (j : Job.t) (e : Episode.t) (g : Pipeline.stage) (e0 : exn) :
  Pipeline.raises w g = Some e0 ->
  exists ex,
    Pipeline.first_failure w = Some ex /\
    let r := Pipeline.run w now (Pipeline.initial j e) in
    snd r = Returns false /\
    Job.status (Pipeline.job (fst r)) = "failed" /\
    Job.error_message (Pipeline.job (fst r)) = Some (str ex) /\
    Job.completed_at (Pipeline.job (fst r)) = Some now /\
    Episode.status (Pipeline.episode (fst r)) = "failed" /\
    (Pipeline.raises w Pipeline.download_audio = None ->
     In (Pipeline.downloaded_path w) (Pipeline.cleanup_calls (fst r))) /\
    (forall (db : DB) (row : Job.t),
        let t := Tasks.except_block ex (Some row) db in
        snd t = Raises ex /\
        episodes (fst t) = episodes db /\
        forall (i : nat) (j' : Job.t),
          jobs db !! i = Some j' -> Job.id j' = Job.id row ->
          exists j'',
            jobs (fst t) !! i = Some j'' /\
            Job.status j'' = "failed" /\
            Job.error_message j''
            = Some (String.substring 0 500 (str ex))).
Proof.
  intros Hg. destruct (first_failure_of_raise w g e0 Hg) as [ex Hex].
  exists ex. split; [exact Hex|]. cbv zeta.
  pose proof (try_block_outcome w now (Pipeline.initial j e)) as Ho.
  pose proof (try_block_audio_path w now (Pipeline.initial j e)) as Ha.
  rewrite Hex in Ho. unfold Pipeline.run.
  destruct (Pipeline.try_block w now (Pipeline.initial j e)) as [s' r'].
  cbn [fst snd] in Ho, Ha. subst r'.
  destruct (except_block_effect w now ex s') as (R & S & M & C & _ & E & P).
  do 5 (split; [assumption|]). split.
  - intros Hd. rewrite (P _ (Ha Hd)). apply in_or_app. right. now left.
  - intros db row.
    destruct (task_except_block_effect ex row db) as (T1 & T2 & _ & T4).
    split; [exact T1|]. split; [exact T2|].
    intros i j' Hj Hid. destruct (T4 i j' Hj) as [H1 _].
    destruct (H1 Hid) as (j'' & L & St & Ms & _). eauto.
Qed.

Lemma process_episode_failure_witness :
  let w := Sample.provider_down "503 from provider" in
  let r := Pipeline.run w 9
             (Pipeline.initial (Sample.job 1 "pending" 0 None None)
                (Sample.episode 101)) in
  snd r = Returns false /\
  Job.error_message (Pipeline.job (fst r)) = Some "503 from provider" /\
  Pipeline.cleanup_calls (fst r) = ["/tmp/audio/abc.mp3"].
Proof.
  destruct (process_episode_failure (Sample.provider_down "503 from provider")
              9 (Sample.job 1 "pending" 0 None None) (Sample.episode 101)
              Pipeline.transcribe (Exception "503 from provider") eq_refl)
    as (ex & Hex & R & _ & M & _).
  cbv zeta. split; [exact R|]. split.
  - rewrite M. vm_compute in Hex. now injection Hex as <-.
  - vm_compute. reflexivity.
Defined.

(** C5 as stated fails: the transcription provider raises with a message of
    600 characters; the run returns [False] rather than raising, and the job
    carries the whole message. *)
Lemma process_episode_swallows_counterexample :
  let w := Sample.provider_down Sample.long_message in
  let r := Pipeline.run w 9
             (Pipeline.initial (Sample.job 1 "pending" 0 None None)
                (Sample.episode 101)) in
  ~ (exists ex, snd r = Raises ex) /\
  snd r = Returns false /\
  Job.error_message (Pipeline.job (fst r)) = Some Sample.long_message /\
  String.length Sample.long_message = 600%nat.
Proof.
  cbv zeta. split; [|split; [|split]].
  - intros [ex H]. vm_compute in H. discriminate H.
  - vm_compute. reflexivity.
  - vm_compute. reflexivity.
  - vm_compute. reflexivity.
Qed.

(** ** The retry counter of a job *)

Lemma grows_refl (j : Job.t) : grows j j.
Proof. split; [reflexivity | lia]. Qed.

Lemma jobs_step_same (db db' : DB) :
  jobs db' = jobs db -> jobs_step db db'.
Proof.
  intros E i j Hj. exists j. rewrite E. split; [exact Hj | apply grows_refl].
Qed.

Lemma jobs_step_update (db db' : DB) sel f :
  jobs db' = update_where sel f (jobs db) ->
  (forall j, grows j (f j)) ->
  jobs_step db db'.
Proof.
  intros E Hf i j Hj. rewrite E, (update_where_lookup _ _ _ _ _ Hj).
  eexists. split; [reflexivity|].
  destruct (sel j); [apply Hf | apply grows_refl].
Qed.

Lemma jobs_step_trans (db1 db2 db3 : DB) :
  jobs_step db1 db2 -> jobs_step db2 db3 -> jobs_step db1 db3.
Proof.
  intros H12 H23 i j Hj.
  destruct (H12 i j Hj) as (j2 & L2 & I2 & R2).
  destruct (H23 i j2 L2) as (j3 & L3 & I3 & R3).
  exists j3. split; [exact L3|]. split; [congruence | lia].
Qed.

Lemma jobs_mark_episodes (l : list Job.t) (v : string) (db : DB) :
  jobs (fold_left (fun d j => mark_episode (Job.episode_id j) v d) l db)
  = jobs db.
Proof.
  revert db. induction l as [|j l IH]; intros db; [reflexivity|].
  cbn [fold_left]. now rewrite IH.
Qed.

Section PipelineKeys.

Import Pipeline.

Lemma keeps_bind m k : keeps m -> keeps k -> keeps (bind m k).
Proof.
  intros Hm Hk s. unfold bind. specialize (Hm s).
  destruct (m s) as [s' [u|e]]; cbn [fst] in *; [|exact Hm].
  now rewrite Hk.
Qed.

Lemma keeps_call w g : keeps (call w g).
Proof. intros s. unfold call. now destruct (raises w g). Qed.

Lemma keeps_step f : (forall s, key (f s) = key s) -> keeps (step f).
Proof. intros H s. apply H. Qed.

Lemma update_job_key now status progress stp cost (j : Job.t) :
  Job.id (_update_job now status progress stp cost j) = Job.id j /\
  Job.retry_count (_update_job now status progress stp cost j)
  = Job.retry_count j.
Proof.
  unfold _update_job. repeat case_match; split; reflexivity.
Qed.

Lemma keeps_update_job now status progress stp cost :
  keeps (step (with_job (_update_job now status progress stp cost))).
Proof.
  apply keeps_step. intros s. unfold key, with_job. cbn [job].
  destruct (update_job_key now status progress stp cost (job s)) as [-> ->].
  reflexivity.
Qed.

Lemma try_block_keeps w now : keeps (try_block w now).
Proof.
  unfold try_block, _download_audio, _transcribe.
  repeat first
    [ apply keeps_bind
    | apply keeps_update_job
    | apply keeps_call
    | apply keeps_step; intros s; reflexivity ].
  - intros s. unfold key.
    now destruct (transcription_failed w).
  - intros s. unfold _cleanup, call.
    now destruct (raises w cleanup_audio).
Qed.

Lemma run_keeps w now s : key (fst (run w now s)) = key s.
Proof.
  unfold run. pose proof (try_block_keeps w now s) as H.
  destruct (try_block w now s) as [s' [u|e]]; cbn [fst] in *;
    [exact H|].
  rewrite <- H. unfold except_block. cbn [fst].
  destruct (audio_path s') as [p|];
    try rewrite cleanup_state; reflexivity.
Qed.

Lemma run_grows w now (row : Job.t) (e : Episode.t) :
  grows row (job (fst (run w now (initial row e)))).
Proof.
  pose proof (run_keeps w now (initial row e)) as H.
  unfold key in H. cbn [initial job] in H. injection H as Hi Hr.
  split; [exact Hi | lia].
Qed.

End PipelineKeys.

Ltac grows_by_computation :=
  let j := fresh "j" in
  intros j; split; [reflexivity|];
  match goal with
  | |- ?a <= ?b =>
      first [ replace b with a by reflexivity; lia
            | replace b with (a + 1) by reflexivity; lia ]
  end.

Ltac jobs_step_one :=
  first [ apply jobs_step_same; reflexivity
        | eapply jobs_step_update;
          [ reflexivity
          | first [ grows_by_computation | intros; apply run_grows ] ] ].

Ltac jobs_step_cases := repeat case_match; jobs_step_one.

Lemma worker_retry_failed_jobs_rows (batch_id : Z) (db : DB) :
  jobs (Worker.retry_failed_jobs batch_id db)
  = update_where (Worker.retry_selected batch_id) Worker.reset_job (jobs db).
Proof.
  unfold Worker.retry_failed_jobs. case_match; cbn [jobs put_batch];
    now rewrite jobs_mark_episodes.
Qed.

(** No operation lowers the retry counter of a job row. *)
Lemma apply_jobs_step (o : operation) (db : DB) : jobs_step db (apply o db).
Proof.
  destruct o; unfold apply.
  - unfold Batches.start_batch. jobs_step_cases.
  - unfold Batches.pause_batch. jobs_step_cases.
  - unfold Batches.resume_batch. jobs_step_cases.
  - unfold Batches.cancel_batch. jobs_step_cases.
  - unfold Batches.retry_batch. jobs_step_cases.
  - unfold Jobs.retry_job. jobs_step_cases.
  - unfold Jobs.pause_job. jobs_step_cases.
  - unfold Jobs.resume_job. jobs_step_cases.
  - unfold Jobs.cancel_job. jobs_step_cases.
  - eapply jobs_step_update;
      [apply worker_retry_failed_jobs_rows | grows_by_computation].
  - unfold Tasks.retry_failed_jobs. jobs_step_cases.
  - unfold Tasks.check_batch_completion, set_progress_percent.
    jobs_step_cases.
  - unfold Pipeline.process_episode. jobs_step_cases.
  - unfold Tasks.process_episode_task, Tasks.except_block.
    repeat case_match; try jobs_step_one;
      match goal with
      | |- jobs_step db (fst (put_jobs _ ?mid, _)) =>
          apply (jobs_step_trans db mid); jobs_step_one
      end.
  - unfold Cli.retry_job. jobs_step_cases.
  - unfold Cli.retry_batch. jobs_step_cases.
  - unfold Cli.retry_channel. jobs_step_cases.
Qed.

Lemma worker_retry_selected_true (batch_id : Z) (j : Job.t) :
  Worker.retry_selected batch_id j = true
  <-> Job.batch_id j = Some batch_id /\ Job.status j = "failed"
      /\ Job.retry_count j < 3.
Proof.
  unfold Worker.retry_selected.
  rewrite !andb_true_iff, of_batch_true, String.eqb_eq, Z.ltb_lt. tauto.
Qed.

Lemma lookup_In (js : list Job.t) (i : nat) (j : Job.t) :
  js !! i = Some j -> In j js.
Proof. intros H. apply list_elem_of_In. eapply list_elem_of_lookup_2, H. Qed.

(** C8.  No operation on the store lowers the [retry_count] of a job row.
    The automatic retry of the controller, [retry_failed_jobs], re-queues
    exactly the failed jobs of the batch whose [retry_count] is below 3 and
    adds 1 to their counter, so a job that has been retried 3 times is left
    as it is.  The batch-level [retry] re-queues a failed job of the batch
    whatever its [retry_count], which it does not change. *)
Theorem retry_count_monotone_and_bounded :
  (forall (o : operation) (db : DB) (i : nat) (j : Job.t),
      jobs db !! i = Some j ->
      exists j',
        jobs (apply o db) !! i = Some j' /\
        Job.id j' = Job.id j /\
        Job.retry_count j <= Job.retry_count j') /\
  (forall (batch_id : Z) (db : DB) (i : nat) (j : Job.t),
      jobs db !! i = Some j ->
      (Job.batch_id j = Some batch_id -> Job.status j = "failed" ->
       Job.retry_count j < 3 ->
       exists j',
         jobs (Worker.retry_failed_jobs batch_id db) !! i = Some j' /\
         Job.status j' = "pending" /\
         Job.retry_count j' = Job.retry_count j + 1) /\
      (~ (Job.batch_id j = Some batch_id /\ Job.status j = "failed"
          /\ Job.retry_count j < 3) ->
       jobs (Worker.retry_failed_jobs batch_id db) !! i = Some j) /\
      (3 <= Job.retry_count j ->
       jobs (Worker.retry_failed_jobs batch_id db) !! i = Some j)) /\
  (forall (batch_id : Z) (db : DB) (batch : Batch.t) (i : nat) (j : Job.t),
      batches db !! batch_id = Some batch ->
      jobs db !! i = Some j ->
      Job.batch_id j = Some batch_id -> Job.status j = "failed" ->
      exists j',
        jobs (fst (Batches.retry_batch batch_id db)) !! i = Some j' /\
        Job.status j' = "pending" /\
        Job.error_message j' = None /\
        Job.retry_count j' = Job.retry_count j).
Proof.
  split; [|split].
  - intros o db i j Hj. exact (apply_jobs_step o db i j Hj).
  - intros batch_id db i j Hj.
    rewrite worker_retry_failed_jobs_rows, (update_where_lookup _ _ _ _ _ Hj).
    assert (Hno : ~ (Job.batch_id j = Some batch_id /\ Job.status j = "failed"
                     /\ Job.retry_count j < 3) ->
                  (if Worker.retry_selected batch_id j
                   then Some (Worker.reset_job j) else Some j) = Some j).
    { intros Hn. destruct (Worker.retry_selected batch_id j) eqn:E;
        [|reflexivity].
      apply worker_retry_selected_true in E. contradiction. }
    split; [|split].
    + intros Hb Hs Hr.
      assert (E : Worker.retry_selected batch_id j = true)
        by (apply worker_retry_selected_true; tauto).
      rewrite E. eexists. split; [reflexivity|]. split; reflexivity.
    + intros Hn. specialize (Hno Hn).
      now destruct (Worker.retry_selected batch_id j).
    + intros Hr.
      assert (Hn : ~ (Job.batch_id j = Some batch_id
                      /\ Job.status j = "failed" /\ Job.retry_count j < 3))
        by lia.
      specialize (Hno Hn). now destruct (Worker.retry_selected batch_id j).
  - intros batch_id db batch i j Hrow Hj Hb Hs.
    assert (E : Batches.retry_selected batch_id j = true).
    { apply retry_selected_true. split; [exact Hb|]. rewrite Hs. now left. }
    assert (Hne : List.filter (Batches.retry_selected batch_id) (jobs db) <> []).
    { intros Hnil. rewrite filter_nil_iff in Hnil.
      rewrite (Hnil j (lookup_In _ _ _ Hj)) in E. discriminate. }
    rewrite (retry_batch_eligible _ _ _ Hrow Hne). cbn [fst put_jobs jobs].
    rewrite (update_where_lookup _ _ _ _ _ Hj), E.
    eexists. split; [reflexivity|]. repeat split.
Qed.

Lemma retry_count_monotone_and_bounded_witness :
  let worn := Sample.job 1 "failed" 3 (Some "boom") None in
  let db := Sample.store (Sample.batch "completed" 0 1 (Some 2) None) [worn] in
  jobs (Worker.retry_failed_jobs 1 db) !! 0%nat = Some worn /\
  exists j',
    jobs (fst (Batches.retry_batch 1 db)) !! 0%nat = Some j' /\
    Job.status j' = "pending" /\
    Job.error_message j' = None /\
    Job.retry_count j' = 3.
Proof.
  pose (worn := Sample.job 1 "failed" 3 (Some "boom") None).
  pose (b := Sample.batch "completed" 0 1 (Some 2) None).
  destruct retry_count_monotone_and_bounded as (_ & Hw & Hr).
  cbv zeta. fold worn b. split.
  - apply (Hw 1 (Sample.store b [worn]) 0%nat worn eq_refl).
    vm_compute. discriminate.
  - apply (Hr 1 (Sample.store b [worn]) b 0%nat worn);
      vm_compute; reflexivity.
Defined.

(** ** The circuit breaker *)

Section Breaker.

Import Circuit.

Lemma record_success_half_open (cb : CircuitBreaker) :
  _state cb = HALF_OPEN ->
  _half_open_calls cb + 1 < half_open_max_calls cb ->
  _state (record_success cb) = HALF_OPEN /\
  _half_open_calls (record_success cb) = _half_open_calls cb + 1 /\
  half_open_max_calls (record_success cb) = half_open_max_calls cb.
Proof.
  intros Hs Hc. unfold record_success. rewrite Hs. cbn [is_state].
  destruct (Z.leb_spec (half_open_max_calls cb) (_half_open_calls cb + 1));
    [lia|]. now cbn.
Qed.

Lemma record_success_closes (cb : CircuitBreaker) :
  _state cb = HALF_OPEN ->
  half_open_max_calls cb <= _half_open_calls cb + 1 ->
  _state (record_success cb) = CLOSED /\
  _failure_count (record_success cb) = 0.
Proof.
  intros Hs Hc. unfold record_success. rewrite Hs. cbn [is_state].
  destruct (Z.leb_spec (half_open_max_calls cb) (_half_open_calls cb + 1));
    [|lia]. now cbn.
Qed.

Lemma after_successes_S (k : nat) (cb : CircuitBreaker) :
  after_successes (S k) cb = record_success (after_successes k cb).
Proof. reflexivity. Qed.

(** Fewer trial successes than [half_open_max_calls] keep the breaker
    half open, counting them. *)
Lemma after_successes_half_open (k : nat) (cb : CircuitBreaker) :
  _state cb = HALF_OPEN ->
  _half_open_calls cb + Z.of_nat k < half_open_max_calls cb ->
  _state (after_successes k cb) = HALF_OPEN /\
  _half_open_calls (after_successes k cb)
  = _half_open_calls cb + Z.of_nat k /\
  half_open_max_calls (after_successes k cb) = half_open_max_calls cb.
Proof.
  intros Hs. induction k as [|k IH]; intros Hk.
  - cbn. repeat split; [exact Hs | lia].
  - destruct IH as (S1 & C1 & M1); [lia|].
    rewrite after_successes_S.
    destruct (record_success_half_open _ S1) as (S2 & C2 & M2); [lia|].
    split; [exact S2|]. split; [lia | congruence].
Qed.

Lemma after_successes_closed (cb : CircuitBreaker) :
  _state cb = HALF_OPEN ->
  _half_open_calls cb = 0 ->
  1 <= half_open_max_calls cb ->
  _state (after_successes (Z.to_nat (half_open_max_calls cb)) cb) = CLOSED /\
  _failure_count (after_successes (Z.to_nat (half_open_max_calls cb)) cb) = 0.
Proof.
  intros Hs Hc Hm.
  replace (Z.to_nat (half_open_max_calls cb))
    with (S (Z.to_nat (half_open_max_calls cb - 1))) by lia.
  destruct (after_successes_half_open
              (Z.to_nat (half_open_max_calls cb - 1)) cb Hs)
    as (S1 & C1 & M1); [lia|].
  rewrite after_successes_S.
  apply record_success_closes; [exact S1 | lia].
Qed.

Context {W A : Type}.
Variable func : W -> W * result A.

Lemma wrapper_not_open (now later : Z) (cb : CircuitBreaker) (w : W) :
  _state cb <> OPEN ->
  wrapper func now later cb w
  = match func w with
    | (w', Returns r) => (record_success cb, w', Returns r)
    | (w', Raises e) => (record_failure later cb, w', Raises e)
    end.
Proof.
  intros Hs. unfold wrapper, state.
  destruct (_state cb) eqn:E; [|congruence|];
    cbn [is_state]; rewrite E; reflexivity.
Qed.

Lemma wrapper_open_rejects (now later : Z) (cb : CircuitBreaker) (w : W) :
  _state cb = OPEN ->
  now - _last_failure_time cb < recovery_timeout cb ->
  wrapper func now later cb w
  = (cb, w, Raises (CircuitOpenError ("Circuit " +:+ name cb +:+ " is open."))).
Proof.
  intros Hs Ht. unfold wrapper, state. rewrite Hs. cbn [is_state].
  destruct (Z.leb_spec (recovery_timeout cb) (now - _last_failure_time cb));
    [lia|]. now rewrite Hs.
Qed.

Lemma state_half_opens (now : Z) (cb : CircuitBreaker) :
  _state cb = OPEN ->
  recovery_timeout cb <= now - _last_failure_time cb ->
  snd (state now cb) = HALF_OPEN /\
  _half_open_calls (fst (state now cb)) = 0 /\
  _failure_count (fst (state now cb)) = _failure_count cb /\
  half_open_max_calls (fst (state now cb)) = half_open_max_calls cb.
Proof.
  intros Hs Ht. unfold state. rewrite Hs. cbn [is_state].
  destruct (Z.leb_spec (recovery_timeout cb) (now - _last_failure_time cb));
    [|lia]. now cbn.
Qed.

End Breaker.

Lemma wrapper_open_elapsed {W A : Type} (func : W -> W * result A)
    (now later : Z) (cb : Circuit.CircuitBreaker) (w : W) :
  Circuit._state cb = Circuit.OPEN ->
  Circuit.recovery_timeout cb <= now - Circuit._last_failure_time cb ->
  Circuit.wrapper func now later cb w
  = match func w with
    | (w', Returns r) =>
        (Circuit.record_success (fst (Circuit.state now cb)), w', Returns r)
    | (w', Raises e) =>
        (Circuit.record_failure later (fst (Circuit.state now cb)), w',
         Raises e)
    end.
Proof.
  intros Hs Ht. unfold Circuit.wrapper, Circuit.state. rewrite Hs.
  cbn [Circuit.is_state].
  destruct (Z.leb_spec (Circuit.recovery_timeout cb)
              (now - Circuit._last_failure_time cb)); [|lia].
  reflexivity.
Qed.

(** C4.  The breaker is a machine with three states.  Closed: a wrapped call
    that returns resets the failure count, one that raises adds 1 to it, and
    the state becomes open once the count reaches [failure_threshold].
    Open, less than [recovery_timeout] after the last failure: the wrapped
    call raises [CircuitOpenError] and neither the breaker nor the world of
    the wrapped function changes, so the function is not invoked.  Open,
    [recovery_timeout] or more after the last failure: reading the state
    gives half open with the trial count at 0, and the call goes through.
    Half open: a call that raises makes the state open; fewer than
    [half_open_max_calls] successes keep it half open, and
    [half_open_max_calls] successes close it with the failure count 0.  A
    breaker is created closed, with threshold 5 and timeout 60 by default. *)
Theorem circuit_breaker_machine {W A : Type} (func : W -> W * result A)
    (cb : Circuit.CircuitBreaker) (now later : Z) (w : W) :
  let r := Circuit.wrapper func now later cb w in
  let cb' := fst (fst r) in
  (Circuit._state cb = Circuit.CLOSED ->
   (forall w' a, func w = (w', Returns a) ->
                 Circuit._state cb' = Circuit.CLOSED /\
                 Circuit._failure_count cb' = 0) /\
   (forall w' e, func w = (w', Raises e) ->
                 Circuit._failure_count cb' = Circuit._failure_count cb + 1 /\
                 Circuit._last_failure_time cb' = later /\
                 (Circuit.failure_threshold cb <= Circuit._failure_count cb + 1
                  -> Circuit._state cb' = Circuit.OPEN) /\
                 (Circuit._failure_count cb + 1 < Circuit.failure_threshold cb
                  -> Circuit._state cb' = Circuit.CLOSED))) /\
  (Circuit._state cb = Circuit.OPEN ->
   now - Circuit._last_failure_time cb < Circuit.recovery_timeout cb ->
   exists m, r = (cb, w, Raises (CircuitOpenError m))) /\
  (Circuit._state cb = Circuit.OPEN ->
   Circuit.recovery_timeout cb <= now - Circuit._last_failure_time cb ->
   snd (Circuit.state now cb) = Circuit.HALF_OPEN /\
   Circuit._half_open_calls (fst (Circuit.state now cb)) = 0 /\
   snd (fst r) = fst (func w) /\
   snd r = snd (func w)) /\
  (Circuit._state cb = Circuit.HALF_OPEN ->
   (forall w' e, func w = (w', Raises e) ->
                 Circuit._state cb' = Circuit.OPEN) /\
   (forall w' a, func w = (w', Returns a) ->
                 cb' = Circuit.record_success cb)) /\
  (Circuit._state cb = Circuit.HALF_OPEN ->
   Circuit._half_open_calls cb = 0 ->
   1 <= Circuit.half_open_max_calls cb ->
   (forall k : nat,
       Z.of_nat k < Circuit.half_open_max_calls cb ->
       Circuit._state (Circuit.after_successes k cb) = Circuit.HALF_OPEN) /\
   Circuit._state
     (Circuit.after_successes (Z.to_nat (Circuit.half_open_max_calls cb)) cb)
   = Circuit.CLOSED /\
   Circuit._failure_count
     (Circuit.after_successes (Z.to_nat (Circuit.half_open_max_calls cb)) cb)
   = 0) /\
  (forall n : string,
      Circuit._state (Circuit.new n None None None) = Circuit.CLOSED /\
      Circuit._failure_count (Circuit.new n None None None) = 0 /\
      Circuit.failure_threshold (Circuit.new n None None None) = 5 /\
      Circuit.recovery_timeout (Circuit.new n None None None) = 60).
Proof.
  cbv zeta. split; [|split; [|split; [|split; [|split]]]].
  - intros Hs.
    assert (Hn : Circuit._state cb <> Circuit.OPEN) by (rewrite Hs; discriminate).
    rewrite (wrapper_not_open func now later cb w Hn). split.
    + intros w' a ->. cbn [fst snd]. unfold Circuit.record_success.
      rewrite Hs. now cbn.
    + intros w' e ->. cbn [fst snd]. unfold Circuit.record_failure.
      rewrite Hs. cbn.
      split; [reflexivity|]. split; [reflexivity|].
      destruct (Z.leb_spec (Circuit.failure_threshold cb)
                  (Circuit._failure_count cb + 1));
        split; intros; first [lia | reflexivity].
  - intros Hs Ht. eexists.
    apply (wrapper_open_rejects func now later cb w Hs Ht).
  - intros Hs Ht.
    destruct (state_half_opens now cb Hs Ht) as (S1 & C1 & _ & _).
    rewrite (wrapper_open_elapsed func now later cb w Hs Ht).
    split; [exact S1|]. split; [exact C1|].
    destruct (func w) as [w' [a|e]]; split; reflexivity.
  - intros Hs.
    assert (Hn : Circuit._state cb <> Circuit.OPEN) by (rewrite Hs; discriminate).
    rewrite (wrapper_not_open func now later cb w Hn). split.
    + intros w' e ->. cbn [fst snd]. unfold Circuit.record_failure.
      now rewrite Hs.
    + intros w' a ->. reflexivity.
  - intros Hs Hc Hm. split.
    + intros k Hk.
      apply (after_successes_half_open k cb Hs). lia.
    + apply (after_successes_closed cb Hs Hc Hm).
  - intros n. repeat split.
Qed.

Lemma circuit_breaker_machine_witness :
  let tripped := Circuit.after_failures 5 100 Circuit.openai_circuit in
  let count_call (calls : nat) := (S calls, Returns tt) in
  Circuit._state tripped = Circuit.OPEN /\
  exists m,
    Circuit.wrapper count_call 130 131 tripped 0%nat
    = (tripped, 0%nat, Raises (CircuitOpenError m)).
Proof.
  cbv zeta. split; [vm_compute; reflexivity|].
  apply (circuit_breaker_machine
           (fun calls : nat => (S calls, Returns tt))
           (Circuit.after_failures 5 100 Circuit.openai_circuit)
           130 131 0%nat).
  - vm_compute. reflexivity.
  - vm_compute. reflexivity.
Defined.

(** * Further properties of the orchestration code *)

(** ** Batch routes *)

(** X1.  [start] is accepted exactly from 'pending' and 'paused'.  When it
    is refused the error names the current status and the store is
    unchanged; when it is accepted the batch row is 'running' with
    [started_at = now] and [paused_at] cleared, no job row is touched, and
    the batch is handed to the background controller. *)
Theorem start_batch_guard (now batch_id : Z) (db : DB) (batch : Batch.t) :
  batches db !! batch_id = Some batch ->
  (succeeded (snd (Batches.start_batch now batch_id db))
   <-> Batch.status batch = "pending" \/ Batch.status batch = "paused") /\
  (~ succeeded (snd (Batches.start_batch now batch_id db)) ->
   Batches.start_batch now batch_id db
   = (db, HTTPException HTTP_400_BAD_REQUEST
            ("Cannot start batch with status: " +:+ Batch.status batch))) /\
  (succeeded (snd (Batches.start_batch now batch_id db)) ->
   snd (Batches.start_batch now batch_id db)
   = Ok (mkBody "started" batch_id None (Some batch_id)) /\
   jobs (fst (Batches.start_batch now batch_id db)) = jobs db /\
   forall k, k <> batch_id ->
             batches (fst (Batches.start_batch now batch_id db)) !! k
             = batches db !! k).
Proof.
  intros Hrow. unfold Batches.start_batch. rewrite Hrow.
  destruct (str_in (Batch.status batch) ["pending"; "paused"]) eqn:E;
    cbn [negb fst snd succeeded].
  - apply str_in_In in E. simpl in E. split; [intuition|].
    split; [tauto|]. intros _. split; [reflexivity|]. split; [reflexivity|].
    intros k Hk. unfold put_batch. cbn [batches].
    now apply lookup_insert_ne.
  - apply str_in_false in E. simpl in E. split; [intuition|].
    split; [reflexivity | tauto].
Qed.

Lemma start_batch_guard_witness :
  let db := Sample.store (Sample.batch "completed" 3 0 (Some 2) None) [] in
  Batches.start_batch 7 1 db
  = (db, HTTPException 400 "Cannot start batch with status: completed").
Proof.
  destruct (start_batch_guard 7 1
              (Sample.store (Sample.batch "completed" 3 0 (Some 2) None) [])
              (Sample.batch "completed" 3 0 (Some 2) None)
              ltac:(vm_compute; reflexivity)) as (_ & H & _).
  cbv zeta. apply H. vm_compute. tauto.
Defined.

(** X2.  Every batch route answers 404 "Batch not found" for an id that is
    not in the store, and leaves the store as it is. *)
Theorem batch_routes_not_found (now batch_id : Z) (db : DB) :
  batches db !! batch_id = None ->
  let nf := HTTPException HTTP_404_NOT_FOUND "Batch not found" in
  Batches.start_batch now batch_id db = (db, nf) /\
  Batches.pause_batch now batch_id db = (db, nf) /\
  Batches.resume_batch batch_id db = (db, nf) /\
  Batches.cancel_batch now batch_id db = (db, nf) /\
  Batches.retry_batch batch_id db = (db, nf) /\
  Batches.delete_batch batch_id db
  = (db, Batches.Refused HTTP_404_NOT_FOUND "Batch not found").
Proof.
  intros H. unfold Batches.start_batch, Batches.pause_batch,
    Batches.resume_batch, Batches.cancel_batch, Batches.retry_batch,
    Batches.delete_batch.
  rewrite H. repeat split.
Qed.

Lemma batch_routes_not_found_witness :
  let db := Sample.store (Sample.batch "running" 0 0 None None) [] in
  Batches.cancel_batch 7 2 db
  = (db, HTTPException 404 "Batch not found").
Proof.
  cbv zeta.
  apply (batch_routes_not_found 7 2
           (Sample.store (Sample.batch "running" 0 0 None None) [])
           ltac:(vm_compute; reflexivity)).
Defined.

(** X3.  Pausing a running batch and resuming it gives back the store it
    started from, whenever the batch had no [paused_at]: the pair is a round
    trip on the batch row and touches no job. *)
Theorem pause_resume_round_trip (now batch_id : Z) (db : DB) (batch : Batch.t) :
  batches db !! batch_id = Some batch ->
  Batch.status batch = "running" ->
  Batch.paused_at batch = None ->
  succeeded (snd (Batches.pause_batch now batch_id db)) /\
  Batches.resume_batch batch_id (fst (Batches.pause_batch now batch_id db))
  = (db, Ok (mkBody "resumed" batch_id None (Some batch_id))).
Proof.
  intros Hrow Hs Hp. unfold Batches.pause_batch. rewrite Hrow, Hs.
  rewrite String.eqb_refl. cbn [negb fst snd]. split; [exact I|].
  unfold Batches.resume_batch, put_batch. cbn [batches].
  rewrite lookup_insert_eq.
  unfold Batch.set_paused_at, Batch.set_status. cbn [Batch.status].
  rewrite String.eqb_refl. cbn [negb]. f_equal.
  destruct db as [bs js es]. cbn [batches jobs episodes] in *. f_equal.
  rewrite insert_insert_eq. apply insert_id. rewrite Hrow. f_equal.
  destruct batch. cbn in *. subst. reflexivity.
Qed.

Lemma pause_resume_round_trip_witness :
  let db := Sample.store (Sample.batch "running" 1 0 (Some 2) None)
              [Sample.job 1 "transcribing" 0 None None] in
  fst (Batches.resume_batch 1 (fst (Batches.pause_batch 7 1 db))) = db.
Proof.
  cbv zeta.
  destruct (pause_resume_round_trip 7 1
              (Sample.store (Sample.batch "running" 1 0 (Some 2) None)
                 [Sample.job 1 "transcribing" 0 None None])
              (Sample.batch "running" 1 0 (Some 2) None)
              ltac:(vm_compute; reflexivity) eq_refl eq_refl) as [_ H].
  now rewrite H.
Defined.

Lemma update_where_In sel f (js : list Job.t) (x : Job.t) :
  In x (update_where sel f js) ->
  exists j, In j js /\ x = if sel j then f j else j.
Proof.
  unfold update_where. intros H. apply list_elem_of_In in H.
  apply list_elem_of_fmap in H as (j & -> & Hj).
  exists j. split; [now apply list_elem_of_In | reflexivity].
Qed.

Lemma retry_selected_after_reset (batch_id : Z) (j : Job.t) :
  Batches.retry_selected batch_id
    (if Batches.retry_selected batch_id j then Batches.reset_job j else j)
  = false.
Proof.
  destruct (Batches.retry_selected batch_id j) eqn:E; [|exact E].
  unfold Batches.retry_selected, Batches.reset_job. cbn.
  apply andb_false_r.
Qed.

(** X4.  A batch retry that succeeded leaves no job of the batch in
    'failed' or 'cancelled': the same retry asked again at once is refused
    with "No failed or cancelled jobs to retry" and changes nothing. *)
Theorem retry_batch_twice (batch_id : Z) (db : DB) (batch : Batch.t) :
  batches db !! batch_id = Some batch ->
  succeeded (snd (Batches.retry_batch batch_id db)) ->
  Batches.retry_batch batch_id (fst (Batches.retry_batch batch_id db))
  = (fst (Batches.retry_batch batch_id db),
     HTTPException HTTP_400_BAD_REQUEST
       "No failed or cancelled jobs to retry").
Proof.
  intros Hrow Hok.
  destruct (List.filter (Batches.retry_selected batch_id) (jobs db)) eqn:Ef.
  - rewrite (retry_batch_no_eligible _ _ _ Hrow Ef) in Hok. destruct Hok.
  - assert (Hne : List.filter (Batches.retry_selected batch_id) (jobs db)
                  <> []) by (rewrite Ef; discriminate).
    rewrite (retry_batch_eligible _ _ _ Hrow Hne). cbn [fst].
    eapply retry_batch_no_eligible.
    + unfold put_jobs, put_batch. cbn [batches]. apply lookup_insert_eq.
    + unfold put_jobs. cbn [jobs]. apply filter_nil_iff. intros x Hx.
      apply update_where_In in Hx as (j0 & _ & ->).
      apply retry_selected_after_reset.
Qed.

Lemma retry_batch_twice_witness :
  let db := Sample.store (Sample.batch "completed" 1 1 (Some 2) None)
              [Sample.job 1 "failed" 0 (Some "boom") None] in
  snd (Batches.retry_batch 1 (fst (Batches.retry_batch 1 db)))
  = HTTPException 400 "No failed or cancelled jobs to retry".
Proof.
  cbv zeta.
  rewrite (retry_batch_twice 1
             (Sample.store (Sample.batch "completed" 1 1 (Some 2) None)
                [Sample.job 1 "failed" 0 (Some "boom") None])
             (Sample.batch "completed" 1 1 (Some 2) None)
             ltac:(vm_compute; reflexivity) ltac:(vm_compute; exact I)).
  reflexivity.
Defined.

(** X5.  [delete] is refused exactly for a 'running' or 'pending' batch,
    with the store unchanged (a 'paused' or 'failed' batch can be deleted).
    When it goes through, the batch is gone, the jobs left are exactly the
    jobs of other batches, in their order, and no other batch or episode is
    touched. *)
Theorem delete_batch_effect (batch_id : Z) (db : DB) (batch : Batch.t) :
  batches db !! batch_id = Some batch ->
  let r := Batches.delete_batch batch_id db in
  (In (Batch.status batch) ["running"; "pending"] ->
   r = (db, Batches.Refused HTTP_400_BAD_REQUEST
              "Cannot delete active batch. Cancel it first.")) /\
  (~ In (Batch.status batch) ["running"; "pending"] ->
   snd r = Batches.NoContent /\
   batches (fst r) !! batch_id = None /\
   (forall k, k <> batch_id -> batches (fst r) !! k = batches db !! k) /\
   (forall j, In j (jobs (fst r))
              <-> In j (jobs db) /\ Job.batch_id j <> Some batch_id) /\
   jobs (fst r)
   = List.filter (fun j => negb (of_batch batch_id j)) (jobs db) /\
   episodes (fst r) = episodes db).
Proof.
  intros Hrow. cbv zeta. unfold Batches.delete_batch. rewrite Hrow. split.
  - intros Hs. apply str_in_In in Hs. now rewrite Hs.
  - intros Hs. apply str_in_false in Hs. rewrite Hs. cbn [fst snd].
    split; [reflexivity|]. split; [apply lookup_delete_eq|].
    split; [intros k Hk; now apply lookup_delete_ne|].
    split; [|split; reflexivity].
    intros j. cbn [jobs]. rewrite filter_In, negb_true_iff.
    rewrite <- of_batch_true.
    destruct (of_batch batch_id j); intuition congruence.
Qed.

Lemma delete_batch_effect_witness :
  let db := Sample.store (Sample.batch "paused" 0 0 (Some 2) (Some 3))
              [Sample.job 1 "pending" 0 None None] in
  snd (Batches.delete_batch 1 db) = Batches.NoContent /\
  jobs (fst (Batches.delete_batch 1 db)) = [].
Proof.
  cbv zeta.
  destruct (delete_batch_effect 1
              (Sample.store (Sample.batch "paused" 0 0 (Some 2) (Some 3))
                 [Sample.job 1 "pending" 0 None None])
              (Sample.batch "paused" 0 0 (Some 2) (Some 3))
              ltac:(vm_compute; reflexivity)) as [_ H].
  destruct H as (H1 & _ & _ & _ & H5 & _).
  { simpl. intuition discriminate. }
  split; [exact H1|]. rewrite H5. reflexivity.
Defined.

(** ** Job routes *)

Section JobRoutes.

Variables (job_id : Z) (db : DB) (job : Job.t).
Hypothesis Hfound : List.find (Jobs.has_id job_id) (jobs db) = Some job.

Lemma pause_job_guard :
  (succeeded (snd (Jobs.pause_job job_id db))
   <-> In (Job.status job)
         ["processing"; "transcribing"; "downloading"; "embedding";
          "chunking"]) /\
  (~ succeeded (snd (Jobs.pause_job job_id db)) ->
   Jobs.pause_job job_id db
   = (db, HTTPException HTTP_400_BAD_REQUEST
            ("Cannot pause job with status: " +:+ Job.status job))).
Proof.
  unfold Jobs.pause_job. rewrite Hfound.
  destruct (str_in (Job.status job) _) eqn:E; cbn [negb fst snd succeeded].
  - apply str_in_In in E. tauto.
  - apply str_in_false in E. tauto.
Qed.

Lemma resume_job_guard :
  (succeeded (snd (Jobs.resume_job job_id db)) <-> Job.status job = "paused") /\
  (~ succeeded (snd (Jobs.resume_job job_id db)) ->
   Jobs.resume_job job_id db
   = (db, HTTPException HTTP_400_BAD_REQUEST
            ("Cannot resume job with status: " +:+ Job.status job))).
Proof.
  unfold Jobs.resume_job. rewrite Hfound.
  destruct (String.eqb_spec (Job.status job) "paused");
    cbn [negb fst snd succeeded]; tauto.
Qed.

Lemma cancel_job_guard :
  (succeeded (snd (Jobs.cancel_job job_id db))
   <-> ~ In (Job.status job) ["done"; "cancelled"]) /\
  (~ succeeded (snd (Jobs.cancel_job job_id db)) ->
   Jobs.cancel_job job_id db
   = (db, HTTPException HTTP_400_BAD_REQUEST
            ("Cannot cancel job with status: " +:+ Job.status job))).
Proof.
  unfold Jobs.cancel_job. rewrite Hfound.
  destruct (str_in (Job.status job) _) eqn:E; cbn [negb fst snd succeeded].
  - apply str_in_In in E. tauto.
  - apply str_in_false in E. tauto.
Qed.

Lemma retry_job_guard :
  (succeeded (snd (Jobs.retry_job job_id db)) <-> Job.status job = "failed") /\
  (~ succeeded (snd (Jobs.retry_job job_id db)) ->
   Jobs.retry_job job_id db
   = (db, HTTPException HTTP_400_BAD_REQUEST "Can only retry failed jobs")).
Proof.
  unfold Jobs.retry_job. rewrite Hfound.
  destruct (String.eqb_spec (Job.status job) "failed");
    cbn [negb fst snd succeeded]; tauto.
Qed.

End JobRoutes.

(** X6.  The job routes are guarded by the status of the job: [pause] is
    accepted exactly from 'processing', 'transcribing', 'downloading',
    'embedding' and 'chunking' (not from 'uploading' or 'labeling'),
    [resume] exactly from 'paused', [retry] exactly from 'failed', and
    [cancel] from every status but 'done' and 'cancelled'.  A refused call
    leaves the store unchanged, and the error of pause, resume and cancel
    names the current status. *)
Theorem job_transition_guards (job_id : Z) (db : DB) (job : Job.t) :
  List.find (Jobs.has_id job_id) (jobs db) = Some job ->
  (succeeded (snd (Jobs.pause_job job_id db))
   <-> In (Job.status job)
         ["processing"; "transcribing"; "downloading"; "embedding";
          "chunking"]) /\
  (succeeded (snd (Jobs.resume_job job_id db)) <-> Job.status job = "paused") /\
  (succeeded (snd (Jobs.retry_job job_id db)) <-> Job.status job = "failed") /\
  (succeeded (snd (Jobs.cancel_job job_id db))
   <-> ~ In (Job.status job) ["done"; "cancelled"]) /\
  (~ succeeded (snd (Jobs.pause_job job_id db)) ->
   Jobs.pause_job job_id db
   = (db, HTTPException HTTP_400_BAD_REQUEST
            ("Cannot pause job with status: " +:+ Job.status job))) /\
  (~ succeeded (snd (Jobs.resume_job job_id db)) ->
   Jobs.resume_job job_id db
   = (db, HTTPException HTTP_400_BAD_REQUEST
            ("Cannot resume job with status: " +:+ Job.status job))) /\
  (~ succeeded (snd (Jobs.retry_job job_id db)) ->
   Jobs.retry_job job_id db
   = (db, HTTPException HTTP_400_BAD_REQUEST "Can only retry failed jobs")) /\
  (~ succeeded (snd (Jobs.cancel_job job_id db)) ->
   Jobs.cancel_job job_id db
   = (db, HTTPException HTTP_400_BAD_REQUEST
            ("Cannot cancel job with status: " +:+ Job.status job))).
Proof.
  intros H.
  destruct (pause_job_guard job_id db job H) as [P1 P2].
  destruct (resume_job_guard job_id db job H) as [R1 R2].
  destruct (retry_job_guard job_id db job H) as [T1 T2].
  destruct (cancel_job_guard job_id db job H) as [C1 C2].
  repeat split; first [apply P1 | apply R1 | apply T1 | apply C1 | assumption].
Qed.

Lemma job_transition_guards_witness :
  let db := Sample.store (Sample.batch "running" 0 0 (Some 2) None)
              [Sample.job 1 "labeling" 0 None None] in
  Jobs.pause_job 1 db
  = (db, HTTPException 400 "Cannot pause job with status: labeling").
Proof.
  cbv zeta.
  destruct (job_transition_guards 1
              (Sample.store (Sample.batch "running" 0 0 (Some 2) None)
                 [Sample.job 1 "labeling" 0 None None])
              (Sample.job 1 "labeling" 0 None None) eq_refl)
    as (P & _ & _ & _ & H & _).
  apply H. intros Hok. apply P in Hok. simpl in Hok.
  intuition discriminate.
Defined.

(** X7.  Retrying a failed job resets every column of its row that records
    the failed attempt (status 'pending', progress 0, step, error message,
    error code and both timestamps cleared), adds 1 to its [retry_count],
    marks its episode 'queued', and touches no other job and no batch: the
    [failed_episodes] of the batch it belongs to stays as it was. *)
Theorem retry_job_effect (job_id : Z) (db : DB) (job : Job.t) :
  List.find (Jobs.has_id job_id) (jobs db) = Some job ->
  Job.status job = "failed" ->
  let db' := fst (Jobs.retry_job job_id db) in
  batches db' = batches db /\
  (forall (i : nat) (j : Job.t),
      jobs db !! i = Some j ->
      (Job.id j = job_id ->
       exists j',
         jobs db' !! i = Some j' /\
         Job.status j' = "pending" /\ Job.progress j' = 0 /\
         Job.current_step j' = None /\ Job.error_message j' = None /\
         Job.error_code j' = None /\ Job.started_at j' = None /\
         Job.completed_at j' = None /\
         Job.retry_count j' = Job.retry_count j + 1 /\
         Job.batch_id j' = Job.batch_id j /\
         Job.episode_id j' = Job.episode_id j) /\
      (Job.id j <> job_id -> jobs db' !! i = Some j)) /\
  (forall e, episodes db !! Job.episode_id job = Some e ->
             episodes db' !! Job.episode_id job
             = Some (Episode.set_status "queued" e)) /\
  (forall k, k <> Job.episode_id job -> episodes db' !! k = episodes db !! k).
Proof.
  intros Hf Hs. cbv zeta. unfold Jobs.retry_job. rewrite Hf, Hs.
  rewrite String.eqb_refl. cbn [negb fst].
  unfold mark_episode, put_episodes, put_jobs. cbn [batches jobs episodes].
  split; [reflexivity|]. split; [|split].
  - intros i j Hj. rewrite (update_where_lookup _ _ _ _ _ Hj).
    unfold Jobs.has_id. split; intros Hid.
    + apply Z.eqb_eq in Hid. rewrite Hid. eexists.
      split; [reflexivity|]. repeat split.
    + apply Z.eqb_neq in Hid. now rewrite Hid.
  - intros e He. now rewrite lookup_alter_eq, He.
  - intros k Hk. now apply lookup_alter_ne.
Qed.

Lemma retry_job_effect_witness :
  let failed := Sample.job 1 "failed" 2 (Some "boom") (Some "E42") in
  let db := Sample.store (Sample.batch "completed" 0 1 (Some 2) None)
              [failed] in
  batches (fst (Jobs.retry_job 1 db)) = batches db /\
  episodes (fst (Jobs.retry_job 1 db)) !! 101
  = Some (Episode.set_status "queued" (Sample.episode 101)).
Proof.
  cbv zeta.
  destruct (retry_job_effect 1
              (Sample.store (Sample.batch "completed" 0 1 (Some 2) None)
                 [Sample.job 1 "failed" 2 (Some "boom") (Some "E42")])
              (Sample.job 1 "failed" 2 (Some "boom") (Some "E42"))
              eq_refl eq_refl) as (Hb & _ & He & _).
  split; [exact Hb|]. exact (He (Sample.episode 101) eq_refl).
Defined.

(** X8.  Pausing a job and resuming it does not give back the status it
    had: whatever stage the job was paused in, it comes back 'pending', with
    nothing else of its row changed, and its episode is 'queued'. *)
Theorem pause_resume_job (job_id : Z) (db : DB) (job : Job.t) :
  List.find (Jobs.has_id job_id) (jobs db) = Some job ->
  succeeded (snd (Jobs.pause_job job_id db)) ->
  let db' := fst (Jobs.resume_job job_id (fst (Jobs.pause_job job_id db))) in
  succeeded (snd (Jobs.resume_job job_id (fst (Jobs.pause_job job_id db)))) /\
  (forall (i : nat) (j : Job.t),
      jobs db !! i = Some j ->
      jobs db' !! i
      = Some (if Jobs.has_id job_id j then Job.set_status "pending" j else j)) /\
  (forall e, episodes db !! Job.episode_id job = Some e ->
             episodes db' !! Job.episode_id job
             = Some (Episode.set_status "queued" e)).
Proof.
  intros Hf Hok. cbv zeta.
  assert (Hid : Jobs.has_id job_id job = true)
    by (apply find_some in Hf; tauto).
  unfold Jobs.pause_job in *. rewrite Hf in *.
  destruct (str_in (Job.status job) _); cbn [negb fst snd] in *;
    [|destruct Hok].
  assert (Hf' : List.find (Jobs.has_id job_id)
                  (update_where (Jobs.has_id job_id)
                     (Job.set_status "paused") (jobs db))
                = Some (Job.set_status "paused" job)).
  { clear Hok. unfold update_where. revert Hf.
    induction (jobs db) as [|a l IH]; [discriminate|].
    rewrite fmap_cons. cbn [List.find].
    destruct (Jobs.has_id job_id a) eqn:Ea.
    - intros [= ->]. unfold Jobs.has_id in *. cbn. now rewrite Ea.
    - rewrite Ea. exact IH. }
  unfold Jobs.resume_job, put_jobs. cbn [jobs]. rewrite Hf'.
  cbn [Job.set_status Job.status]. rewrite String.eqb_refl.
  cbn [negb fst snd succeeded]. split; [exact I|].
  unfold mark_episode, put_episodes. cbn [jobs episodes]. split.
  - intros i j Hj.
    rewrite (update_where_lookup _ _ _ _ _
               (update_where_lookup _ (Job.set_status "paused") _ _ _ Hj)).
    destruct (Jobs.has_id job_id j) eqn:E.
    + unfold Jobs.has_id in *. cbn. now rewrite E.
    + now rewrite E.
  - intros e He. cbn. now rewrite lookup_alter_eq, He.
Qed.

Lemma pause_resume_job_witness :
  let db := Sample.store (Sample.batch "running" 0 0 (Some 2) None)
              [Sample.job 1 "embedding" 0 None None] in
  jobs (fst (Jobs.resume_job 1 (fst (Jobs.pause_job 1 db)))) !! 0%nat
  = Some (Job.set_status "pending" (Sample.job 1 "embedding" 0 None None)).
Proof.
  cbv zeta.
  destruct (pause_resume_job 1
              (Sample.store (Sample.batch "running" 0 0 (Some 2) None)
                 [Sample.job 1 "embedding" 0 None None])
              (Sample.job 1 "embedding" 0 None None)
              eq_refl ltac:(vm_compute; exact I)) as (_ & H & _).
  exact (H 0%nat (Sample.job 1 "embedding" 0 None None) eq_refl).
Defined.

(** ** The background controller *)

Section Controller.

Import Worker.

Variable batch_id : Z.

Lemma update_stats_bound (l : locals) (db : DB) (b : Batch.t) (s : bool) :
  batches db !! batch_id = Some b ->
  success l = Some s ->
  exists db' b',
    update_stats batch_id l db = Returns db' /\
    jobs db' = jobs db /\ episodes db' = episodes db /\
    batches db' !! batch_id = Some b' /\
    Batch.status b' = Batch.status b /\
    Batch.completed_episodes b <= Batch.completed_episodes b' /\
    Batch.failed_episodes b <= Batch.failed_episodes b' /\
    Batch.completed_episodes b' + Batch.failed_episodes b'
    = Batch.completed_episodes b + Batch.failed_episodes b + 1.
Proof.
  intros Hb Hs. unfold update_stats. rewrite Hs. destruct s.
  - eexists _, _. split; [reflexivity|]. split; [reflexivity|].
    split; [reflexivity|].
    split; [apply increment_completed_row, Hb|]. cbn. repeat split; lia.
  - eexists _, _. split; [reflexivity|]. split; [reflexivity|].
    split; [reflexivity|].
    split; [apply increment_failed_row, Hb|]. cbn. repeat split; lia.
Qed.

Lemma await_attempt_success (a : attempt) (l : locals) :
  is_Some (success l) \/ returned a ->
  is_Some (success (await_attempt a l)) /\
  completed (await_attempt a l) + failed (await_attempt a l)
  = completed l + failed l + 1.
Proof.
  intros H. destruct a as [[|]|e]; cbn;
    try (split; [eexists; reflexivity | lia]).
  destruct H as [H|[]]. split; [exact H | lia].
Qed.

Lemma stats_loop_bound (attempts : list attempt) :
  forall (l : locals) (db : DB) (b : Batch.t),
    batches db !! batch_id = Some b ->
    is_Some (success l) \/ attempts = [] \/
      (exists s rest, attempts = Returned s :: rest) ->
    exists l' db' b',
      stats_loop batch_id attempts l db = Returns (l', db') /\
      jobs db' = jobs db /\ episodes db' = episodes db /\
      batches db' !! batch_id = Some b' /\
      Batch.status b' = Batch.status b /\
      Batch.completed_episodes b <= Batch.completed_episodes b' /\
      Batch.failed_episodes b <= Batch.failed_episodes b' /\
      Batch.completed_episodes b' + Batch.failed_episodes b'
      = Batch.completed_episodes b + Batch.failed_episodes b
        + Z.of_nat (length attempts) /\
      completed l' + failed l'
      = completed l + failed l + Z.of_nat (length attempts).
Proof.
  induction attempts as [|a rest IH]; intros l db b Hb Hl.
  - exists l, db, b. cbn. repeat split; try assumption; lia.
  - assert (Ha : is_Some (success l) \/ returned a).
    { destruct Hl as [H|[H|(s & r & H)]]; [now left | discriminate|].
      injection H as -> ->. right. exact I. }
    destruct (await_attempt_success a l Ha) as [[s Hs] Hc].
    destruct (update_stats_bound _ db b s Hb Hs)
      as (db1 & b1 & E1 & J1 & P1 & B1 & S1 & C1 & F1 & T1).
    cbn [stats_loop]. rewrite E1.
    destruct (IH (await_attempt a l) db1 b1 B1) as
      (l' & db' & b' & E & J & P & B & S & C & F & T & L);
      [left; eauto|].
    exists l', db', b'. split; [exact E|].
    cbn [length]. repeat split; try congruence; lia.
Qed.

Lemma stats_loop_first_raised (e : exn) (rest : list attempt) (db : DB) :
  exists m,
    stats_loop batch_id (Raised e :: rest) initial_locals db
    = Raises (UnboundLocalError m).
Proof. eexists. reflexivity. Qed.

End Controller.

(** X9.  In the completion loop of the controller, as long as the first
    attempt to complete returned a boolean, every attempt, returned or
    raised, adds 1 to exactly one of the two counters of the batch row and
    to one of the two local counts: both sums grow by the number of
    attempts, neither counter decreases, and no job or episode row is
    written.  When the first attempt to complete raised, the loop stops with
    [UnboundLocalError] before updating anything. *)
Theorem stats_loop_counts (batch_id : Z) (db : DB) (b : Batch.t)
    (s : bool) (e : exn) (rest : list Worker.attempt) :
  batches db !! batch_id = Some b ->
  (exists l' db' b',
      Worker.stats_loop batch_id (Worker.Returned s :: rest)
        Worker.initial_locals db = Returns (l', db') /\
      jobs db' = jobs db /\ episodes db' = episodes db /\
      batches db' !! batch_id = Some b' /\
      Batch.completed_episodes b <= Batch.completed_episodes b' /\
      Batch.failed_episodes b <= Batch.failed_episodes b' /\
      Batch.completed_episodes b' + Batch.failed_episodes b'
      = Batch.completed_episodes b + Batch.failed_episodes b
        + Z.of_nat (length (Worker.Returned s :: rest)) /\
      Worker.completed l' + Worker.failed l'
      = Z.of_nat (length (Worker.Returned s :: rest))) /\
  (exists m,
      Worker.stats_loop batch_id (Worker.Raised e :: rest)
        Worker.initial_locals db = Raises (UnboundLocalError m)).
Proof.
  intros Hb. split; [|apply stats_loop_first_raised].
  destruct (stats_loop_bound batch_id (Worker.Returned s :: rest)
              Worker.initial_locals db b Hb) as
    (l' & db' & b' & E & J & P & B & _ & C & F & T & L); [right; right; eauto|].
  exists l', db', b'. cbn [Worker.initial_locals Worker.completed
                           Worker.failed] in L.
  repeat split; try assumption; lia.
Qed.

Lemma stats_loop_counts_witness :
  let db := Sample.store (Sample.batch "running" 2 1 (Some 2) None) [] in
  exists l' db' b',
    Worker.stats_loop 1
      [Worker.Returned false; Worker.Raised (Exception "x");
       Worker.Returned true] Worker.initial_locals db = Returns (l', db') /\
    batches db' !! 1 = Some b' /\
    Batch.completed_episodes b' + Batch.failed_episodes b' = 6.
Proof.
  cbv zeta.
  destruct (stats_loop_counts 1
              (Sample.store (Sample.batch "running" 2 1 (Some 2) None) [])
              (Sample.batch "running" 2 1 (Some 2) None) false
              (Exception "x")
              [Worker.Raised (Exception "x"); Worker.Returned true]
              ltac:(vm_compute; reflexivity)) as [H _].
  destruct H as (l' & db' & b' & E & _ & _ & B & _ & _ & T & _).
  exists l', db', b'. split; [exact E|]. split; [exact B|].
  rewrite T. reflexivity.
Defined.

(** X10.  The final status update of the controller writes only a batch
    that is still 'running'.  A batch that was paused or cancelled while its
    jobs ran is left exactly as the pause or the cancel wrote it, whatever
    the loop counted. *)
Theorem final_update_respects_pause_and_cancel (now later batch_id : Z)
    (l : Worker.locals) (db : DB) (batch : Batch.t) :
  batches db !! batch_id = Some batch ->
  (Batch.status batch <> "running" ->
   Worker.final_update later batch_id l db = db) /\
  (succeeded (snd (Batches.pause_batch now batch_id db)) ->
   Worker.final_update later batch_id l
     (fst (Batches.pause_batch now batch_id db))
   = fst (Batches.pause_batch now batch_id db)) /\
  (succeeded (snd (Batches.cancel_batch now batch_id db)) ->
   Worker.final_update later batch_id l
     (fst (Batches.cancel_batch now batch_id db))
   = fst (Batches.cancel_batch now batch_id db)).
Proof.
  intros Hrow. split; [|split].
  - intros Hs. unfold Worker.final_update. rewrite Hrow.
    destruct (String.eqb_spec (Batch.status batch) "running");
      [contradiction | reflexivity].
  - unfold Batches.pause_batch. rewrite Hrow.
    destruct (negb _); cbn [fst snd succeeded]; [tauto|]. intros _.
    unfold Worker.final_update, put_batch. cbn [batches].
    now rewrite lookup_insert_eq.
  - unfold Batches.cancel_batch. rewrite Hrow.
    destruct (str_in _ _); cbn [fst snd succeeded]; [tauto|]. intros _.
    unfold Worker.final_update, put_jobs, put_batch. cbn [batches].
    now rewrite lookup_insert_eq.
Qed.

Lemma final_update_respects_pause_and_cancel_witness :
  let db := Sample.store (Sample.batch "running" 0 0 (Some 2) None)
              [Sample.job 1 "transcribing" 0 None None] in
  Worker.final_update 20 1 (Worker.mkLocals 1 0 (Some true))
    (fst (Batches.cancel_batch 10 1 db))
  = fst (Batches.cancel_batch 10 1 db).
Proof.
  cbv zeta.
  apply (final_update_respects_pause_and_cancel 10 20 1
           (Worker.mkLocals 1 0 (Some true))
           (Sample.store (Sample.batch "running" 0 0 (Some 2) None)
              [Sample.job 1 "transcribing" 0 None None])
           (Sample.batch "running" 0 0 (Some 2) None)
           ltac:(vm_compute; reflexivity)).
  vm_compute. exact I.
Defined.





(** X12.  Before it runs the pipeline, [process_job] reads the status of
    the batch under [FOR UPDATE SKIP LOCKED].  When the row is locked by
    another transaction, when the batch is gone, or when its status is not
    'running', the job is skipped: [False] is returned and nothing is
    written.  When the provider cannot be built, the exception leaves
    [process_job] and again nothing is written, so the job stays as it
    was.  Only otherwise does the job go through the pipeline. *)
Theorem process_job_gate (get_provider : string -> option exn)
    (w : Pipeline.world) (now : Z) (locked : bool) (batch : Batch.t)
    (job : Job.t) (db : DB) :
  let r := BatchProcessor.process_job get_provider w now locked batch job db in
  (locked = true -> r = (db, [], Returns false)) /\
  (batches db !! Batch.id batch = None -> r = (db, [], Returns false)) /\
  (forall b, batches db !! Batch.id batch = Some b ->
             Batch.status b <> "running" -> r = (db, [], Returns false)) /\
  (forall b e, locked = false ->
               batches db !! Batch.id batch = Some b ->
               Batch.status b = "running" ->
               get_provider (Batch.provider batch) = Some e ->
               r = (db, [], Raises e)) /\
  (forall b, locked = false ->
             batches db !! Batch.id batch = Some b ->
             Batch.status b = "running" ->
             get_provider (Batch.provider batch) = None ->
             r = Pipeline.process_episode w now (Job.id job)
                   (Job.episode_id job) db).
Proof.
  cbv zeta. unfold BatchProcessor.process_job, BatchProcessor.current_status.
  split; [intros ->; reflexivity|].
  split; [intros ->; now destruct locked|].
  split; [|split].
  - intros b -> Hs. destruct locked; [reflexivity|]. cbn.
    rewrite bool_decide_eq_false_2; [reflexivity | congruence].
  - intros b e -> -> Hs ->. cbn. rewrite Hs.
    now rewrite bool_decide_eq_true_2.
  - intros b -> -> Hs ->. cbn. rewrite Hs.
    now rewrite bool_decide_eq_true_2.
Qed.

Lemma process_job_gate_witness :
  let db := Sample.store (Sample.batch "running" 0 0 (Some 2) None)
              [Sample.job 1 "pending" 0 None None] in
  BatchProcessor.process_job (fun _ => None) (Sample.provider_down "x") 9
    true (Sample.batch "running" 0 0 (Some 2) None)
    (Sample.job 1 "pending" 0 None None) db
  = (db, [], Returns false).
Proof.
  cbv zeta.
  destruct (process_job_gate (fun _ => None) (Sample.provider_down "x") 9
              true (Sample.batch "running" 0 0 (Some 2) None)
              (Sample.job 1 "pending" 0 None None)
              (Sample.store (Sample.batch "running" 0 0 (Some 2) None)
                 [Sample.job 1 "pending" 0 None None])) as [H _].
  apply H. reflexivity.
Defined.

(** ** Pipeline runs *)

Lemma first_failure_none (w : Pipeline.world) :
  Pipeline.first_failure w = None ->
  (forall g, Pipeline.raises w g = None) /\
  Pipeline.transcription_failed w = None.
Proof.
  unfold Pipeline.first_failure, Pipeline.stages, Pipeline.failure_at.
  cbn [List.fold_right]. intros H.
  destruct (Pipeline.raises w Pipeline.download_audio) eqn:?;
    [discriminate H|].
  destruct (Pipeline.raises w Pipeline.transcribe) eqn:?; [discriminate H|].
  destruct (Pipeline.transcription_failed w); [discriminate H|].
  cbn [fmap option_fmap option_map] in H.
  destruct (Pipeline.raises w Pipeline.label_speakers) eqn:?;
    [discriminate H|].
  destruct (Pipeline.raises w Pipeline.save_utterances) eqn:?;
    [discriminate H|].
  destruct (Pipeline.raises w Pipeline.chunk_transcript) eqn:?;
    [discriminate H|].
  destruct (Pipeline.raises w Pipeline.embed_and_store) eqn:?;
    [discriminate H|].
  destruct (Pipeline.raises w Pipeline.cleanup_audio) eqn:?;
    [discriminate H|].
  destruct (Pipeline.raises w Pipeline.save_transcript_backup) eqn:?;
    [discriminate H|].
  split; [|reflexivity]. intros g. destruct g; assumption.
Qed.

(** X13.  A pipeline run in which no stage fails returns [True] and leaves
    the job 'done' at progress 100 with step "Complete" and
    [completed_at = now]; [started_at] is stamped only if it was unset; the
    provider's job id is recorded, the cost only when the transcript reports
    one; [error_message] and [retry_count] are left as they were.  The
    episode is 'done' with [processed_at = now], and the staged audio is
    cleaned up exactly once. *)
Theorem process_episode_success (w : Pipeline.world) (now : Z)
    (j : Job.t) (e : Episode.t) :
  Pipeline.first_failure w = None ->
  let r := Pipeline.run w now (Pipeline.initial j e) in
  let j' := Pipeline.job (fst r) in
  snd r = Returns true /\
  Job.status j' = "done" /\
  Job.progress j' = 100 /\
  Job.current_step j' = Some "Complete" /\
  Job.completed_at j' = Some now /\
  Job.started_at j' = Some (default now (Job.started_at j)) /\
  Job.provider_job_id j' = Pipeline.transcript_provider_job_id w /\
  Job.cost_cents j'
  = match Pipeline.transcript_cost_cents w with
    | Some c => Some c
    | None => Job.cost_cents j
    end /\
  Job.error_message j' = Job.error_message j /\
  Job.retry_count j' = Job.retry_count j /\
  Episode.status (Pipeline.episode (fst r)) = "done" /\
  Episode.processed_at (Pipeline.episode (fst r)) = Some now /\
  Pipeline.cleanup_calls (fst r) = [Pipeline.downloaded_path w].
Proof.
  intros Hff. destruct (first_failure_none w Hff) as [Hr Ht]. cbv zeta.
  unfold Pipeline.run, Pipeline.try_block, Pipeline.bind, Pipeline.step,
    Pipeline._download_audio, Pipeline._transcribe, Pipeline._cleanup,
    Pipeline.call, Pipeline.bind, Pipeline.step.
  rewrite !Hr, Ht. destruct j. destruct started_at;
    destruct (Pipeline.transcript_cost_cents w); cbn; repeat split.
Qed.

Lemma process_episode_success_witness :
  let w := Pipeline.mkWorld (fun _ => None) "/tmp/a.mp3" None (Some "dg-1")
             (Some 42) in
  let r := Pipeline.run w 9
             (Pipeline.initial (Sample.job 1 "pending" 0 None None)
                (Sample.episode 101)) in
  snd r = Returns true /\
  Job.started_at (Pipeline.job (fst r)) = Some 5 /\
  Job.cost_cents (Pipeline.job (fst r)) = Some 42.
Proof.
  cbv zeta.
  destruct (process_episode_success
              (Pipeline.mkWorld (fun _ => None) "/tmp/a.mp3" None
                 (Some "dg-1") (Some 42))
              9 (Sample.job 1 "pending" 0 None None) (Sample.episode 101)
              eq_refl) as (R & _ & _ & _ & _ & S & _ & C & _).
  split; [exact R|]. split; [exact S | exact C].
Defined.

(** X14.  When the download itself raises, nothing was staged and the
    handler does not call [cleanup_audio] at all.  The job is 'failed' with
    the message of the exception, still at progress 5 and step "Downloading
    audio", with [started_at] stamped if it was unset; the episode is
    'failed'; the run returns [False]. *)
Theorem process_episode_download_failure (w : Pipeline.world) (now : Z)
    (j : Job.t) (e : Episode.t) (ex : exn) :
  Pipeline.raises w Pipeline.download_audio = Some ex ->
  let r := Pipeline.run w now (Pipeline.initial j e) in
  let j' := Pipeline.job (fst r) in
  snd r = Returns false /\
  Pipeline.cleanup_calls (fst r) = [] /\
  Job.status j' = "failed" /\
  Job.error_message j' = Some (str ex) /\
  Job.progress j' = 5 /\
  Job.current_step j' = Some "Downloading audio" /\
  Job.started_at j' = Some (default now (Job.started_at j)) /\
  Job.completed_at j' = Some now /\
  Episode.status (Pipeline.episode (fst r)) = "failed".
Proof.
  intros Hd. cbv zeta.
  unfold Pipeline.run, Pipeline.try_block, Pipeline.bind, Pipeline.step,
    Pipeline._download_audio, Pipeline.call, Pipeline.bind, Pipeline.step.
  rewrite Hd. destruct j. destruct started_at; cbn; repeat split.
Qed.

Lemma process_episode_download_failure_witness :
  let w := Pipeline.mkWorld
             (fun g => match g with
                       | Pipeline.download_audio => Some (Exception "video is private")
                       | _ => None
                       end) "/tmp/a.mp3" None None None in
  let r := Pipeline.run w 9
             (Pipeline.initial (Sample.job 1 "pending" 0 None None)
                (Sample.episode 101)) in
  Pipeline.cleanup_calls (fst r) = [] /\
  Job.error_message (Pipeline.job (fst r)) = Some "video is private".
Proof.
  cbv zeta.
  destruct (process_episode_download_failure
              (Pipeline.mkWorld
                 (fun g => match g with
                           | Pipeline.download_audio =>
                               Some (Exception "video is private")
                           | _ => None
                           end) "/tmp/a.mp3" None None None)
              9 (Sample.job 1 "pending" 0 None None) (Sample.episode 101)
              (Exception "video is private") eq_refl)
    as (_ & C & _ & M & _).
  split; [exact C | exact M].
Defined.

Lemma run_never_raises (w : Pipeline.world) (now : Z) (s : Pipeline.st) :
  exists b, snd (Pipeline.run w now s) = Returns b.
Proof.
  unfold Pipeline.run.
  destruct (Pipeline.try_block w now s) as [s' [u|ex]]; [eexists; reflexivity|].
  exists false. apply (except_block_effect w now ex s').
Qed.

(** X15.  [process_episode] works on one job and one episode only.  When
    the job or the episode is missing it returns [False] and writes
    nothing.  Otherwise it returns a boolean (a failing stage never makes it
    raise), it writes no batch row (the counters of the batch are not its
    business), no job with another id, and no other episode. *)
Theorem process_episode_frame (w : Pipeline.world) (now job_id episode_id : Z)
    (db : DB) :
  let r := Pipeline.process_episode w now job_id episode_id db in
  let db' := fst (fst r) in
  (episodes db !! episode_id = None \/
   List.find (Jobs.has_id job_id) (jobs db) = None ->
   r = (db, [], Returns false)) /\
  (exists b, snd r = Returns b) /\
  batches db' = batches db /\
  (forall (i : nat) (j : Job.t),
      jobs db !! i = Some j -> Job.id j <> job_id -> jobs db' !! i = Some j) /\
  (forall k, k <> episode_id -> episodes db' !! k = episodes db !! k).
Proof.
  cbv zeta. unfold Pipeline.process_episode.
  destruct (episodes db !! episode_id) as [e|] eqn:Ee;
    destruct (List.find (Jobs.has_id job_id) (jobs db)) as [j|] eqn:Ej;
    try (repeat split; [eexists; reflexivity | intros; assumption.. ]).
  destruct (run_never_raises w now (Pipeline.initial j e)) as [b Hb].
  destruct (Pipeline.run w now (Pipeline.initial j e)) as [s r] eqn:Er.
  cbn [fst snd] in *. split; [intros [H|H]; discriminate H|].
  split; [eauto|]. split; [reflexivity|]. split.
  - intros i j0 Hj Hid. unfold put_episodes, put_jobs. cbn [jobs].
    rewrite (update_where_lookup _ _ _ _ _ Hj). unfold Jobs.has_id.
    apply Z.eqb_neq in Hid. now rewrite Hid.
  - intros k Hk. unfold put_episodes. cbn [episodes].
    now apply lookup_insert_ne.
Qed.

Lemma process_episode_frame_witness :
  let db := Sample.store (Sample.batch "running" 0 0 (Some 2) None)
              [Sample.job 1 "pending" 0 None None] in
  Pipeline.process_episode (Sample.provider_down "x") 9 2 101 db
  = (db, [], Returns false).
Proof.
  cbv zeta.
  destruct (process_episode_frame (Sample.provider_down "x") 9 2 101
              (Sample.store (Sample.batch "running" 0 0 (Some 2) None)
                 [Sample.job 1 "pending" 0 None None])) as [H _].
  apply H. right. reflexivity.
Defined.

(** ** Celery tasks *)

Lemma init_kwargs_rejected :
  Pipeline.check_kwargs "TranscriptionPipeline.__init__" Pipeline.init_params
    ["db"; "provider"; "speakers"; "unknown_speaker_label"]
  = Raises (TypeError
              "TranscriptionPipeline.__init__() got an unexpected keyword argument 'provider'").
Proof. vm_compute. reflexivity. Qed.

(** X16.  [process_episode_task] never returns: it always ends by raising.
    An unknown job id gives [ValueError] with nothing written.  For a known
    job, every path ends in the handler, which leaves the job 'failed' with
    a message of at most 500 characters: [ValueError] when the episode is
    missing and otherwise [TypeError], because the task passes the keyword
    [provider] to a constructor whose parameter is [provider_name], so the
    pipeline is never run.  No batch and no episode is ever written. *)
Theorem process_episode_task_always_raises (uuid_str : Z -> string)
    (episode_id job_id : Z) (db : DB) :
  let r := Tasks.process_episode_task uuid_str episode_id job_id db in
  (exists e, snd r = Raises e) /\
  batches (fst r) = batches db /\
  episodes (fst r) = episodes db /\
  (List.find (Jobs.has_id job_id) (jobs db) = None ->
   r = (db, Raises (ValueError ("Job " +:+ uuid_str job_id +:+ " not found")))) /\
  (forall job,
      List.find (Jobs.has_id job_id) (jobs db) = Some job ->
      (episodes db !! episode_id = None ->
       snd r = Raises (ValueError ("Episode " +:+ uuid_str episode_id
                                   +:+ " not found"))) /\
      (is_Some (episodes db !! episode_id) ->
       exists m, snd r = Raises (TypeError m)) /\
      forall (i : nat) (j : Job.t),
        jobs db !! i = Some j ->
        (Job.id j = job_id ->
         exists j' m,
           jobs (fst r) !! i = Some j' /\
           Job.status j' = "failed" /\
           Job.error_message j' = Some m /\
           (String.length m <= 500)%nat /\
           Job.retry_count j' = Job.retry_count j) /\
        (Job.id j <> job_id -> jobs (fst r) !! i = Some j)).
Proof.
  cbv zeta. unfold Tasks.process_episode_task.
  destruct (List.find (Jobs.has_id job_id) (jobs db)) as [job|] eqn:Ef.
  2:{ cbn. repeat split; eauto; try discriminate. }
  assert (Hid : Job.id job = job_id).
  { apply find_some in Ef as [_ H]. now apply Z.eqb_eq in H. }
  destruct (episodes db !! episode_id) as [e|] eqn:Ee.
  - rewrite init_kwargs_rejected. unfold Tasks.except_block, put_jobs.
    cbn [fst snd batches episodes jobs Job.id Job.set_current_step
         Job.set_status].
    split; [eauto|]. split; [reflexivity|]. split; [reflexivity|].
    split; [discriminate|]. intros job0 [= <-].
    split; [discriminate|]. split; [eauto|].
    intros i j Hj.
    rewrite (update_where_lookup _ _ _ _ _
               (update_where_lookup _ _ _ _ _ Hj)).
    rewrite Hid. unfold Jobs.has_id. split; intros Hj'.
    + apply Z.eqb_eq in Hj'. rewrite Hj'. cbn. rewrite Hj'.
      eexists _, _. split; [reflexivity|]. split; [reflexivity|].
      split; [reflexivity|].
      split; [apply Nat.leb_le; vm_compute; reflexivity|].
      reflexivity.
    + apply Z.eqb_neq in Hj'. rewrite Hj'. now rewrite Hj'.
  - unfold Tasks.except_block, put_jobs. cbn [fst snd batches episodes jobs].
    split; [eauto|]. split; [reflexivity|]. split; [reflexivity|].
    split; [discriminate|]. intros job0 [= <-].
    split; [reflexivity|]. split; [intros [? H]; discriminate H|].
    intros i j Hj. rewrite (update_where_lookup _ _ _ _ _ Hj).
    rewrite Hid. unfold Jobs.has_id. split; intros Hj'.
    + apply Z.eqb_eq in Hj'. rewrite Hj'.
      eexists _, _. split; [reflexivity|]. split; [reflexivity|].
      split; [reflexivity|]. split; [apply substring_prefix_length|].
      reflexivity.
    + apply Z.eqb_neq in Hj'. now rewrite Hj'.
Qed.

Lemma process_episode_task_always_raises_witness :
  let db := Sample.store (Sample.batch "running" 0 0 (Some 2) None)
              [Sample.job 1 "pending" 0 None None] in
  exists m,
    snd (Tasks.process_episode_task (fun _ => "id") 101 1 db)
    = Raises (TypeError m).
Proof.
  cbv zeta.
  destruct (process_episode_task_always_raises (fun _ => "id") 101 1
              (Sample.store (Sample.batch "running" 0 0 (Some 2) None)
                 [Sample.job 1 "pending" 0 None None]))
    as (_ & _ & _ & _ & H).
  destruct (H (Sample.job 1 "pending" 0 None None) eq_refl) as (_ & Ht & _).
  apply Ht. eexists. vm_compute. reflexivity.
Defined.

Lemma tasks_retry_selected_true (batch_id : Z) (j : Job.t) :
  Tasks.retry_selected batch_id j = true
  <-> Job.batch_id j = Some batch_id /\ Job.status j = "failed".
Proof.
  unfold Tasks.retry_selected.
  now rewrite andb_true_iff, of_batch_true, String.eqb_eq.
Qed.

(** X17.  The Celery task [retry_failed_jobs] has no retry ceiling: every
    failed job of the batch, whatever its [retry_count], goes back to
    'pending' with its error message cleared and its counter raised by 1,
    while its error code, progress, step and timestamps stay as the failed
    attempt left them.  Jobs that are not failed, other batches' jobs, all
    batch rows and all episodes are untouched; with no failed job the task
    answers "no_failed_jobs" and writes nothing. *)
Theorem task_retry_failed_jobs_effect (batch_id : Z) (db : DB) :
  let r := Tasks.retry_failed_jobs batch_id db in
  ((forall j, In j (jobs db) ->
              ~ (Job.batch_id j = Some batch_id /\ Job.status j = "failed")) ->
   r = (db, "no_failed_jobs")) /\
  ((exists j, In j (jobs db) /\ Job.batch_id j = Some batch_id
              /\ Job.status j = "failed") ->
   snd r = "retrying") /\
  batches (fst r) = batches db /\
  episodes (fst r) = episodes db /\
  (forall (i : nat) (j : Job.t),
      jobs db !! i = Some j ->
      (Job.batch_id j = Some batch_id -> Job.status j = "failed" ->
       jobs (fst r) !! i
       = Some (Job.set_retry_count (Job.retry_count j + 1)
                 (Job.set_error_message None
                    (Job.set_status "pending" j)))) /\
      (~ (Job.batch_id j = Some batch_id /\ Job.status j = "failed") ->
       jobs (fst r) !! i = Some j)).
Proof.
  cbv zeta. unfold Tasks.retry_failed_jobs.
  destruct (List.filter (Tasks.retry_selected batch_id) (jobs db)) as [|a l]
    eqn:Ef; cbn [fst snd].
  - rewrite filter_nil_iff in Ef. split; [reflexivity|]. split.
    { intros (j & Hin & Hb & Hs).
      assert (Tasks.retry_selected batch_id j = true)
        by (apply tasks_retry_selected_true; tauto).
      rewrite (Ef j Hin) in H. discriminate. }
    split; [reflexivity|]. split; [reflexivity|].
    intros i j Hj. split; [|tauto]. intros Hb Hs.
    assert (Tasks.retry_selected batch_id j = true)
      by (apply tasks_retry_selected_true; tauto).
    rewrite (Ef j (lookup_In _ _ _ Hj)) in H. discriminate.
  - split.
    { intros Hnone.
      assert (Ha : In a (List.filter (Tasks.retry_selected batch_id) (jobs db)))
        by (rewrite Ef; now left).
      apply filter_In in Ha as [Hin Hsel].
      apply tasks_retry_selected_true in Hsel. destruct (Hnone a Hin Hsel). }
    split; [reflexivity|]. split; [reflexivity|]. split; [reflexivity|].
    intros i j Hj. unfold put_jobs. cbn [jobs].
    rewrite (update_where_lookup _ _ _ _ _ Hj). split.
    + intros Hb Hs.
      assert (E : Tasks.retry_selected batch_id j = true)
        by (apply tasks_retry_selected_true; tauto).
      now rewrite E.
    + intros Hn. destruct (Tasks.retry_selected batch_id j) eqn:E;
        [|reflexivity].
      apply tasks_retry_selected_true in E. contradiction.
Qed.

Lemma task_retry_failed_jobs_effect_witness :
  let worn := Sample.job 1 "failed" 7 (Some "boom") (Some "E42") in
  let db := Sample.store (Sample.batch "completed" 0 1 (Some 2) None) [worn] in
  (Job.retry_count <$> jobs (fst (Tasks.retry_failed_jobs 1 db)) !! 0%nat)
  = Some 8.
Proof.
  cbv zeta.
  destruct (task_retry_failed_jobs_effect 1
              (Sample.store (Sample.batch "completed" 0 1 (Some 2) None)
                 [Sample.job 1 "failed" 7 (Some "boom") (Some "E42")]))
    as (_ & _ & _ & _ & H).
  destruct (H 0%nat (Sample.job 1 "failed" 7 (Some "boom") (Some "E42"))
              eq_refl) as [H1 _].
  rewrite (H1 eq_refl eq_refl). reflexivity.
Defined.

Lemma dispatch_selected_true (batch_id : Z) (j : Job.t) :
  Tasks.dispatch_selected batch_id j = true
  <-> Job.batch_id j = Some batch_id
      /\ In (Job.status j) ["pending"; "failed"].
Proof.
  unfold Tasks.dispatch_selected.
  now rewrite andb_true_iff, of_batch_true, str_in_In.
Qed.

(** X18.  [process_batch_task] never writes a job row.  A batch that is not
    'pending', 'running' or 'paused' is skipped with nothing written.  From
    those three statuses (a paused batch included) the batch is set
    'running'; if none of its jobs is 'pending' or 'failed' it is then set
    'completed', with [completed_at] left as it was, and nothing is
    dispatched; otherwise one episode task is dispatched for each of its
    'pending' or 'failed' jobs, in the order of the rows, and the completion
    check is scheduled. *)
Theorem process_batch_task_effect (uuid_str : Z -> string) (batch_id : Z)
    (db : DB) (batch : Batch.t) :
  batches db !! batch_id = Some batch ->
  let r := Tasks.process_batch_task uuid_str batch_id db in
  let selected := List.filter (Tasks.dispatch_selected batch_id) (jobs db) in
  jobs (fst r) = jobs db /\
  episodes (fst r) = episodes db /\
  (~ In (Batch.status batch) ["pending"; "running"; "paused"] ->
   r = (db, Returns (Tasks.mkBatchReply "skipped"
                       (Some ("Batch is " +:+ Batch.status batch))
                       None [] false))) /\
  (In (Batch.status batch) ["pending"; "running"; "paused"] ->
   (selected = [] ->
    batches (fst r) !! batch_id = Some (Batch.set_status "completed" batch) /\
    snd r = Returns (Tasks.mkBatchReply "completed" (Some "No pending jobs")
                       None [] false)) /\
   (selected <> [] ->
    batches (fst r) !! batch_id = Some (Batch.set_status "running" batch) /\
    snd r = Returns (Tasks.mkBatchReply "started" None
                       (Some (Z.of_nat (length selected)))
                       (List.map (fun j => (Job.episode_id j, Job.id j))
                          selected)
                       true))).
Proof.
  intros Hrow. cbv zeta. unfold Tasks.process_batch_task. rewrite Hrow.
  destruct (str_in (Batch.status batch) ["pending"; "running"; "paused"])
    eqn:E; cbn [negb].
  - apply str_in_In in E.
    change (jobs (put_batch batch_id (Batch.set_status "running" batch) db))
      with (jobs db).
    destruct (List.filter (Tasks.dispatch_selected batch_id) (jobs db))
      as [|a l] eqn:Ef; cbn [fst snd].
    + split; [reflexivity|]. split; [reflexivity|]. split; [tauto|].
      intros _. split; [|congruence]. intros _.
      split; [|reflexivity]. unfold put_batch. cbn [batches].
      rewrite lookup_insert_eq. reflexivity.
    + split; [reflexivity|]. split; [reflexivity|]. split; [tauto|].
      intros _. split; [discriminate|]. intros _.
      split; [|reflexivity]. unfold put_batch. cbn [batches].
      apply lookup_insert_eq.
  - apply str_in_false in E. cbn [fst snd].
    split; [reflexivity|]. split; [reflexivity|]. split; [reflexivity|tauto].
Qed.

Lemma process_batch_task_effect_witness :
  let db := Sample.store (Sample.batch "paused" 1 1 (Some 2) (Some 4))
              [Sample.job 1 "done" 0 None None;
               Sample.job 2 "failed" 3 (Some "boom") None] in
  (Batch.status <$> batches (fst (Tasks.process_batch_task (fun _ => "id") 1 db)) !! 1)
  = Some "running" /\
  (Tasks.dispatched <$>
     match snd (Tasks.process_batch_task (fun _ => "id") 1 db) with
     | Returns r => Some r
     | Raises _ => None
     end) = Some [(102, 2)].
Proof.
  cbv zeta.
  destruct (process_batch_task_effect (fun _ => "id") 1
              (Sample.store (Sample.batch "paused" 1 1 (Some 2) (Some 4))
                 [Sample.job 1 "done" 0 None None;
                  Sample.job 2 "failed" 3 (Some "boom") None])
              (Sample.batch "paused" 1 1 (Some 2) (Some 4))
              ltac:(vm_compute; reflexivity)) as (_ & _ & _ & H).
  destruct H as [_ H]; [simpl; tauto|].
  destruct H as [Hb Hr]; [vm_compute; discriminate|].
  rewrite Hb, Hr. split; reflexivity.
Defined.

(** ** More on the circuit breaker *)

Section BreakerHistory.

Import Circuit.

Variable t : Z.

Lemma feed_snoc (h : list bool) (o : bool) (cb : CircuitBreaker) :
  feed t (h ++ [o]) cb = record t (feed t h cb) o.
Proof. unfold feed. now rewrite fold_left_app. Qed.

Lemma feed_app (h1 h2 : list bool) (cb : CircuitBreaker) :
  feed t (h1 ++ h2) cb = feed t h2 (feed t h1 cb).
Proof. unfold feed. now rewrite fold_left_app. Qed.

Lemma record_threshold (cb : CircuitBreaker) (o : bool) :
  failure_threshold (record t cb o) = failure_threshold cb.
Proof.
  unfold record, record_success, record_failure.
  destruct o; repeat case_match; reflexivity.
Qed.

Lemma feed_threshold (h : list bool) (cb : CircuitBreaker) :
  failure_threshold (feed t h cb) = failure_threshold cb.
Proof.
  revert cb. induction h as [|o h IH]; intros cb; [reflexivity|].
  unfold feed in *. cbn [fold_left]. now rewrite IH, record_threshold.
Qed.

(** An open breaker stays open under recorded outcomes: only reading the
    state after the timeout moves it on. *)
Lemma record_open (cb : CircuitBreaker) (o : bool) :
  _state cb = OPEN -> _state (record t cb o) = OPEN.
Proof.
  intros Hs. unfold record, record_success, record_failure.
  destruct o; rewrite Hs; cbn [is_state]; [exact Hs|].
  cbn. destruct (Z.leb _ _); reflexivity.
Qed.

Lemma feed_open (h : list bool) (cb : CircuitBreaker) :
  _state cb = OPEN -> _state (feed t h cb) = OPEN.
Proof.
  revert cb. induction h as [|o h IH]; intros cb Hs; [exact Hs|].
  unfold feed in *. cbn [fold_left]. apply IH. now apply record_open.
Qed.

(** A closed breaker is closed or open after an outcome, and its count stays
    non-negative while it is closed. *)
Lemma record_closed (cb : CircuitBreaker) (o : bool) :
  _state cb = CLOSED -> 0 <= _failure_count cb ->
  (_state (record t cb o) = CLOSED /\ 0 <= _failure_count (record t cb o)) \/
  _state (record t cb o) = OPEN.
Proof.
  intros Hs Hc. unfold record, record_success, record_failure.
  destruct o; rewrite Hs; cbn [is_state].
  - left. cbn. split; [reflexivity | lia].
  - cbn. destruct (Z.leb _ _); [now right|]. left. split; [reflexivity | lia].
Qed.

Lemma feed_closed (h : list bool) (cb : CircuitBreaker) :
  _state cb = CLOSED -> 0 <= _failure_count cb ->
  (_state (feed t h cb) = CLOSED /\ 0 <= _failure_count (feed t h cb)) \/
  _state (feed t h cb) = OPEN.
Proof.
  revert cb. induction h as [|o h IH]; intros cb Hs Hc; [now left|].
  unfold feed in *. cbn [fold_left].
  destruct (record_closed cb o Hs Hc) as [[Hs' Hc']|Ho].
  - now apply IH.
  - right. now apply (feed_open h).
Qed.

(** [n] failures on a closed breaker: it is open as soon as the count has
    reached the threshold. *)
Lemma failures_open (n : nat) (cb : CircuitBreaker) :
  _state cb = CLOSED ->
  failure_threshold cb <= _failure_count cb + Z.of_nat n ->
  (0 < n)%nat ->
  _state (feed t (List.repeat false n) cb) = OPEN.
Proof.
  revert cb. induction n as [|n IH]; intros cb Hs Hc Hn; [lia|].
  cbn [List.repeat]. unfold feed in *. cbn [fold_left].
  destruct (Z.leb_spec (failure_threshold cb) (_failure_count cb + 1)).
  - apply (feed_open _ (record t cb false)).
    unfold record, record_failure. rewrite Hs. cbn.
    destruct (Z.leb_spec (failure_threshold cb) (_failure_count cb + 1));
      [reflexivity | lia].
  - assert (Hs' : _state (record t cb false) = CLOSED).
    { unfold record, record_failure. rewrite Hs. cbn.
      destruct (Z.leb_spec (failure_threshold cb) (_failure_count cb + 1));
        [lia | reflexivity]. }
    apply IH; [exact Hs' | | lia].
    rewrite record_threshold. unfold record, record_failure. cbn. lia.
Qed.

(** The failures at the end of a history. *)
Lemma repeat_snoc {A : Type} (x : A) (n : nat) :
  (List.repeat x n ++ [x])%list = List.repeat x (S n).
Proof.
  induction n as [|n IH]; [reflexivity|].
  cbn [List.repeat]. rewrite <- app_comm_cons. now rewrite IH.
Qed.

(** Without a run of [threshold] failures the breaker stays closed, and its
    count is the number of failures since the last success. *)
Lemma feed_no_run (h : list bool) (cb : CircuitBreaker) :
  _state cb = CLOSED -> _failure_count cb = 0 ->
  1 <= failure_threshold cb ->
  ~ has_failure_run (Z.to_nat (failure_threshold cb)) h ->
  exists before k,
    h = (before ++ List.repeat false k)%list /\
    (forall b, before <> (b ++ [false])%list) /\
    _state (feed t h cb) = CLOSED /\
    _failure_count (feed t h cb) = Z.of_nat k.
Proof.
  intros Hs Hc Ht. induction h as [|o h IH] using rev_ind; intros Hrun.
  - exists [], 0%nat. repeat split; try assumption.
    intros b Hb. destruct b; discriminate Hb.
  - destruct IH as (before & k & -> & Hb & S1 & C1).
    { intros (b & a & E). apply Hrun. exists b, (a ++ [o])%list.
      rewrite E. now rewrite <- !app_assoc. }
    rewrite feed_snoc. destruct o.
    + exists ((before ++ List.repeat false k) ++ [true])%list, 0%nat.
      rewrite app_nil_r. split; [reflexivity|]. split.
      * intros b Hb'. apply app_inj_tail in Hb' as [_ Hb']. discriminate.
      * unfold record, record_success. rewrite S1. cbn. split; reflexivity.
    + exists before, (S k). rewrite <- app_assoc, repeat_snoc.
      split; [reflexivity|]. split; [exact Hb|].
      assert (Hk : Z.of_nat (S k) < failure_threshold cb).
      { destruct (Z.lt_ge_cases (Z.of_nat (S k)) (failure_threshold cb))
          as [H|H]; [exact H|]. exfalso. apply Hrun.
        exists (before
                ++ List.repeat false (S k - Z.to_nat (failure_threshold cb)))%list,
          [].
        rewrite app_nil_r, <- !app_assoc, repeat_snoc. f_equal.
        rewrite <- repeat_app. f_equal. lia. }
      unfold record, record_failure. rewrite S1, C1, feed_threshold. cbn.
      destruct (Z.leb_spec (failure_threshold cb) (Z.of_nat k + 1)); [lia|].
      split; [reflexivity | lia].
Qed.

Lemma feed_run (h : list bool) (cb : CircuitBreaker) :
  _state cb = CLOSED -> _failure_count cb = 0 ->
  1 <= failure_threshold cb ->
  has_failure_run (Z.to_nat (failure_threshold cb)) h ->
  _state (feed t h cb) = OPEN.
Proof.
  intros Hs Hc Ht (before & after & ->).
  rewrite !feed_app. apply feed_open.
  destruct (feed_closed before cb Hs) as [[S1 C1]|O1]; [lia| |].
  - apply failures_open; [exact S1 | | lia].
    rewrite feed_threshold. lia.
  - now apply feed_open.
Qed.

End BreakerHistory.

(** X19.  A breaker that starts closed with no failure counted is driven
    by a history of recorded successes and failures as follows: if the
    history contains [failure_threshold] failures in a row the breaker is
    open; if it does not, the breaker is closed and its count is the number
    of failures since the last success.  Failures separated by a success
    never add up. *)
Theorem breaker_opens_on_consecutive_failures (t : Z)
    (cb : Circuit.CircuitBreaker) (history : list bool) :
  Circuit._state cb = Circuit.CLOSED ->
  Circuit._failure_count cb = 0 ->
  1 <= Circuit.failure_threshold cb ->
  (Circuit.has_failure_run (Z.to_nat (Circuit.failure_threshold cb)) history ->
   Circuit._state (Circuit.feed t history cb) = Circuit.OPEN) /\
  (~ Circuit.has_failure_run (Z.to_nat (Circuit.failure_threshold cb)) history ->
   Circuit._state (Circuit.feed t history cb) = Circuit.CLOSED /\
   exists before k,
     history = (before ++ List.repeat false k)%list /\
     (forall b, before <> (b ++ [false])%list) /\
     Circuit._failure_count (Circuit.feed t history cb) = Z.of_nat k).
Proof.
  intros Hs Hc Ht. split.
  - now apply feed_run.
  - intros Hn.
    destruct (feed_no_run t history cb Hs Hc Ht Hn)
      as (before & k & E & Hb & S1 & C1).
    split; [exact S1|]. exists before, k. auto.
Qed.

Lemma breaker_opens_on_consecutive_failures_witness :
  Circuit._state
    (Circuit.feed 100 [false; false; true; false; false; false; false]
       Circuit.openai_circuit) = Circuit.CLOSED /\
  Circuit._state
    (Circuit.feed 100 [true; false; false; false; false; false; true]
       Circuit.openai_circuit) = Circuit.OPEN.
Proof.
  destruct (breaker_opens_on_consecutive_failures 100 Circuit.openai_circuit
              [false; false; true; false; false; false; false]
              eq_refl eq_refl ltac:(vm_compute; discriminate)) as [_ Hc].
  destruct (breaker_opens_on_consecutive_failures 100 Circuit.openai_circuit
              [true; false; false; false; false; false; true]
              eq_refl eq_refl ltac:(vm_compute; discriminate)) as [Ho _].
  split.
  - apply Hc. intros (b & a & E). vm_compute in E.
    destruct b as [|x1 [|x2 [|x3 [|x4 [|x5 [|x6 [|x7 [|x8 b]]]]]]]];
      cbn in E; try discriminate E.
  - apply Ho. exists [true], [true]. reflexivity.
Defined.

(** ** Bounded retry *)

Section RetryBounds.

Import Retry.

Context {W A : Type}.
Variables (max_retries : Z) (initial_delay max_delay exponential_base : Q).
Variable exceptions : exn -> bool.
Variable func : W -> W * result A.
Variable random : nat -> Q.

Lemma sleep_time_capped (delay r : Q) :
  (sleep_time max_delay delay r <= max_delay)%Q.
Proof. unfold sleep_time. apply Q.le_min_r. Qed.

(** While [n] iterations are left at index [attempt], the run invokes the
    function at most [n] more times and sleeps only after an attempt whose
    index is below [max_retries]. *)
Lemma attempts_bounds (n : nat) :
  forall (attempt : Z) (delay : Q) (last : option exn) (w : W)
         (slept : list Q) (calls : nat),
    Z.of_nat n + attempt = max_retries + 1 ->
    Forall (fun s => (s <= max_delay)%Q) slept ->
    let r := attempts max_retries max_delay exponential_base exceptions func random
               n attempt delay last w slept calls in
    (invocations r <= calls + n)%nat /\
    (length (sleeps r) + 1 <= length slept + Nat.max n 1)%nat /\
    Forall (fun s => (s <= max_delay)%Q) (sleeps r).
Proof.
  induction n as [|n IH]; intros attempt delay last w slept calls Hn Hs;
    cbv zeta; cbn [attempts].
  - cbn. repeat split; [lia | lia | exact Hs].
  - destruct (func w) as [w' [a|e]].
    + cbn. repeat split; [lia | lia | exact Hs].
    + destruct (exceptions e).
      * destruct (Z.ltb_spec attempt max_retries).
        -- destruct (IH (attempt + 1) (next_delay max_delay exponential_base
                                          delay)
                       (Some e) w'
                       (slept ++ [sleep_time max_delay delay
                                    (random (length slept))])%list
                       (S calls)) as (I & L & F);
             [lia | | ].
           { apply Forall_app. split; [exact Hs|].
             constructor; [apply sleep_time_capped | constructor]. }
           rewrite length_app in L. cbn [length] in L.
           assert (1 <= n)%nat by lia.
           repeat split; [lia | lia | exact F].
        -- destruct (IH (attempt + 1) delay (Some e) w' slept (S calls))
             as (I & L & F); [lia | exact Hs |].
           repeat split; [lia | lia | exact F].
      * cbn. repeat split; [lia | lia | exact Hs].
Qed.

(** When every invocation raises an exception of the retried classes, all
    the iterations are used. *)
Hypothesis always_fails :
  forall w, exists w' e, func w = (w', Raises e) /\ exceptions e = true.


End RetryBounds.

(** X20.  [retry_async] invokes the wrapped function at most
    [max_retries + 1] times and sleeps at most [max_retries] times, never
    longer than [max_delay].  With a negative [max_retries] the function is
    not invoked at all and the wrapper raises [TypeError] (it raises its
    [last_exception], still [None]).  Otherwise a first call that returns is
    answered at once, and an exception outside the retried classes leaves at
    once, without a sleep. *)
Theorem retry_async_bounds {W A : Type} (max_retries : Z)
    (initial_delay max_delay exponential_base : Q) (exceptions : exn -> bool)
    (func : W -> W * result A) (random : nat -> Q) (w : W) :
  let r := Retry.retry_async max_retries initial_delay max_delay
             exponential_base exceptions func random w in
  (Retry.invocations r <= Z.to_nat (max_retries + 1))%nat /\
  (length (Retry.sleeps r) <= Z.to_nat max_retries)%nat /\
  Forall (fun s => (s <= max_delay)%Q) (Retry.sleeps r) /\
  (max_retries < 0 ->
   r = Retry.mkRun w [] 0
         (Raises (TypeError "exceptions must derive from BaseException"))) /\
  (0 <= max_retries ->
   (forall w' a, func w = (w', Returns a) ->
                 r = Retry.mkRun w' [] 1 (Returns a)) /\
   (forall w' e, func w = (w', Raises e) -> exceptions e = false ->
                 r = Retry.mkRun w' [] 1 (Raises e))).
Proof.
  cbv zeta. unfold Retry.retry_async.
  destruct (Z.lt_ge_cases max_retries 0) as [Hneg|Hpos].
  - replace (Z.to_nat (max_retries + 1)) with 0%nat by lia. cbn.
    repeat split; try lia; try constructor.
  - destruct (attempts_bounds max_retries max_delay exponential_base
                exceptions func random (Z.to_nat (max_retries + 1)) 0
                initial_delay None w [] 0%nat) as (I & L & F);
      [lia | constructor |].
    cbn [length] in L.
    split; [lia|]. split; [lia|]. split; [exact F|]. split; [lia|].
    intros _. replace (Z.to_nat (max_retries + 1))
      with (S (Z.to_nat max_retries)) by lia.
    cbn [Retry.attempts]. split.
    + intros w' a ->. reflexivity.
    + intros w' e -> ->. reflexivity.
Qed.

Lemma retry_async_bounds_witness :
  Retry.retry_async (-1) 1 30 2 (fun _ => true)
    (fun calls : nat => (S calls, Returns tt)) (fun _ => 1 # 2) 0%nat
  = Retry.mkRun 0%nat [] 0
      (Raises (TypeError "exceptions must derive from BaseException")).
Proof.
  apply (retry_async_bounds (-1) 1 30 2 (fun _ => true)
           (fun calls : nat => (S calls, Returns tt)) (fun _ => 1 # 2) 0%nat).
  lia.
Defined.



(** ** The connection manager *)

#[local] Set Warnings "-clear-no-such-hyp".

Section Connections.

Import Websocket.

Implicit Types (m : ConnectionManager) (ws : Z) (c : string).

Lemma subscribe_subscribed m ws c ws' c' :
  subscribed_to (subscribe ws c m) ws' c'
  <-> subscribed_to m ws' c'
      \/ (ws' = ws /\ c' = c /\ is_Some (active_connections m !! ws)).
Proof.
  unfold subscribed_to, subscribe.
  destruct (active_connections m !! ws) as [s|] eqn:E; cbn.
  - destruct (decide (ws' = ws)) as [->|Hne].
    + rewrite lookup_insert_eq, E. split.
      * intros (s' & [= <-] & Hin). apply elem_of_union in Hin as [H|H].
        -- left. eauto.
        -- right. apply elem_of_singleton in H. eauto.
      * intros [(s' & [= <-] & Hin)|(_ & -> & _)];
          eexists; (split; [reflexivity|]); set_solver.
    + rewrite lookup_insert_ne by congruence. split; [eauto|].
      intros [H|(-> & _)]; [exact H | congruence].
  - split; [eauto|]. intros [H|(_ & _ & [? H])]; [exact H | discriminate].
Qed.

Lemma subscribe_listed m ws c c' ws' :
  listed_in (subscribe ws c m) c' ws'
  <-> listed_in m c' ws'
      \/ (ws' = ws /\ c' = c /\ is_Some (active_connections m !! ws)).
Proof.
  unfold listed_in, subscribe.
  destruct (active_connections m !! ws) as [s|] eqn:E; cbn.
  - destruct (decide (c' = c)) as [->|Hne].
    + rewrite lookup_insert_eq. split.
      * intros (s' & [= <-] & Hin). apply elem_of_union in Hin as [H|H].
        -- left. destruct (channel_connections m !! c) as [t|]; cbn in H;
             [eauto | set_solver].
        -- right. apply elem_of_singleton in H. eauto.
      * intros [(s' & Hl & Hin)|(-> & _ & _)];
          eexists; (split; [reflexivity|]); [rewrite Hl; cbn|]; set_solver.
    + rewrite lookup_insert_ne by congruence. split; [eauto|].
      intros [H|(_ & -> & _)]; [exact H | congruence].
  - split; [eauto|]. intros [H|(_ & _ & [? H])]; [exact H | discriminate].
Qed.

Lemma subscribe_nonempty m ws c :
  (forall c' s, channel_connections m !! c' = Some s -> s <> ∅) ->
  forall c' s,
    channel_connections (subscribe ws c m) !! c' = Some s -> s <> ∅.
Proof.
  intros Hm c' s. unfold subscribe.
  destruct (active_connections m !! ws); cbn; [|apply Hm].
  destruct (decide (c' = c)) as [->|Hne].
  - rewrite lookup_insert_eq. intros [= <-]. set_solver.
  - rewrite lookup_insert_ne by congruence. apply Hm.
Qed.

Lemma unsubscribe_subscribed m ws c ws' c' :
  subscribed_to (_unsubscribe_internal ws c m) ws' c'
  <-> subscribed_to m ws' c' /\ ~ (ws' = ws /\ c' = c).
Proof.
  unfold subscribed_to, _unsubscribe_internal. cbn.
  destruct (active_connections m !! ws) as [s|] eqn:E.
  - destruct (decide (ws' = ws)) as [->|Hne].
    + rewrite lookup_insert_eq, E. split.
      * intros (s' & [= <-] & Hin). split; [exists s; set_solver|].
        set_solver.
      * intros [(s' & [= <-] & Hin) Hn]. eexists. split; [reflexivity|].
        set_solver.
    + rewrite lookup_insert_ne by congruence. intuition congruence.
  - split.
    + intros (s & Hl & Hin). split; [eauto|]. intros [-> _]. congruence.
    + tauto.
Qed.

Lemma unsubscribe_listed m ws c c' ws' :
  listed_in (_unsubscribe_internal ws c m) c' ws'
  <-> listed_in m c' ws' /\ ~ (ws' = ws /\ c' = c).
Proof.
  unfold listed_in, _unsubscribe_internal. cbn.
  destruct (channel_connections m !! c) as [t|] eqn:E.
  - destruct (decide (t ∖ {[ws]} = ∅)) as [He|He].
    + destruct (decide (c' = c)) as [->|Hne].
      * rewrite lookup_delete_eq, E. split.
        -- intros (s & H & _). discriminate H.
        -- intros [(s & [= <-] & Hin) Hn]. exfalso.
           assert (ws' ∈ t ∖ {[ws]}) by set_solver. set_solver.
      * rewrite lookup_delete_ne by congruence. intuition congruence.
    + destruct (decide (c' = c)) as [->|Hne].
      * rewrite lookup_insert_eq, E. split.
        -- intros (s & [= <-] & Hin). split; [exists t; set_solver|].
           set_solver.
        -- intros [(s & [= <-] & Hin) Hn]. eexists.
           split; [reflexivity|]. set_solver.
      * rewrite lookup_insert_ne by congruence. intuition congruence.
  - split.
    + intros (s & Hl & Hin). split; [eauto|]. intros [_ ->]. congruence.
    + tauto.
Qed.

Lemma unsubscribe_nonempty m ws c :
  (forall c' s, channel_connections m !! c' = Some s -> s <> ∅) ->
  forall c' s,
    channel_connections (_unsubscribe_internal ws c m) !! c' = Some s ->
    s <> ∅.
Proof.
  intros Hm c' s. unfold _unsubscribe_internal. cbn.
  destruct (channel_connections m !! c) as [t|] eqn:E; [|apply Hm].
  destruct (decide (t ∖ {[ws]} = ∅)) as [He|He].
  - destruct (decide (c' = c)) as [->|Hne].
    + rewrite lookup_delete_eq. discriminate.
    + rewrite lookup_delete_ne by congruence. apply Hm.
  - destruct (decide (c' = c)) as [->|Hne].
    + rewrite lookup_insert_eq. congruence.
    + rewrite lookup_insert_ne by congruence. apply Hm.
Qed.

Lemma unsubscribe_active_other m ws c ws' :
  ws' <> ws ->
  active_connections (_unsubscribe_internal ws c m) !! ws'
  = active_connections m !! ws'.
Proof.
  intros Hne. unfold _unsubscribe_internal. cbn.
  destruct (active_connections m !! ws); [|reflexivity].
  now rewrite lookup_insert_ne by congruence.
Qed.

Lemma unsubscribe_connected m ws c ws' :
  is_Some (active_connections (_unsubscribe_internal ws c m) !! ws')
  <-> is_Some (active_connections m !! ws').
Proof.
  unfold _unsubscribe_internal. cbn.
  destruct (active_connections m !! ws) as [s|] eqn:E; [|reflexivity].
  destruct (decide (ws' = ws)) as [->|Hne].
  - rewrite lookup_insert_eq, E. split; eauto.
  - now rewrite lookup_insert_ne by congruence.
Qed.

Lemma consistent_new : consistent new.
Proof.
  split.
  - intros ws c. unfold subscribed_to, listed_in, new. cbn.
    split; intros (s & H & _); rewrite lookup_empty in H; discriminate.
  - intros c s H. unfold new in H. cbn in H. rewrite lookup_empty in H.
    discriminate.
Qed.

Lemma consistent_subscribe m ws c :
  consistent m -> consistent (subscribe ws c m).
Proof.
  intros [Hc Hn]. split.
  - intros ws' c'. rewrite subscribe_subscribed, subscribe_listed, Hc.
    reflexivity.
  - now apply subscribe_nonempty.
Qed.

Lemma consistent_unsubscribe m ws c :
  consistent m -> consistent (_unsubscribe_internal ws c m).
Proof.
  intros [Hc Hn]. split.
  - intros ws' c'. rewrite unsubscribe_subscribed, unsubscribe_listed, Hc.
    reflexivity.
  - now apply unsubscribe_nonempty.
Qed.

End Connections.

Section Disconnect.

Import Websocket.

Implicit Types (m : ConnectionManager) (ws : Z) (c : string).

(** Unsubscribing a socket from the channels of a set removes exactly these
    subscriptions, and nothing of any other socket. *)
Lemma unsubscribe_all m ws (channels : gset string) :
  let r := set_fold (_unsubscribe_internal ws) m channels in
  (forall ws' c', subscribed_to r ws' c'
                  <-> subscribed_to m ws' c' /\ ~ (ws' = ws /\ c' ∈ channels)) /\
  (forall c' ws', listed_in r c' ws'
                  <-> listed_in m c' ws' /\ ~ (ws' = ws /\ c' ∈ channels)) /\
  ((forall c' s, channel_connections m !! c' = Some s -> s <> ∅) ->
   forall c' s, channel_connections r !! c' = Some s -> s <> ∅) /\
  (forall ws', ws' <> ws ->
               active_connections r !! ws' = active_connections m !! ws') /\
  (forall ws', is_Some (active_connections r !! ws')
               <-> is_Some (active_connections m !! ws')).
Proof.
  cbv zeta.
  apply (set_fold_ind_L
           (fun r (X : gset string) =>
              (forall ws' c', subscribed_to r ws' c'
                              <-> subscribed_to m ws' c'
                                  /\ ~ (ws' = ws /\ c' ∈ X)) /\
              (forall c' ws', listed_in r c' ws'
                              <-> listed_in m c' ws'
                                  /\ ~ (ws' = ws /\ c' ∈ X)) /\
              ((forall c' s, channel_connections m !! c' = Some s -> s <> ∅) ->
               forall c' s, channel_connections r !! c' = Some s -> s <> ∅) /\
              (forall ws', ws' <> ws ->
                           active_connections r !! ws'
                           = active_connections m !! ws') /\
              (forall ws', is_Some (active_connections r !! ws')
                           <-> is_Some (active_connections m !! ws')))).
  - repeat split; try tauto; try set_solver.
  - intros x X r Hx (Hs & Hl & Hn & Ho & Hc).
    split; [|split; [|split; [|split]]].
    + intros ws' c'. rewrite unsubscribe_subscribed, Hs. set_solver.
    + intros c' ws'. rewrite unsubscribe_listed, Hl. set_solver.
    + intros Hm. apply unsubscribe_nonempty. now apply Hn.
    + intros ws' Hne. rewrite unsubscribe_active_other by exact Hne.
      now apply Ho.
    + intros ws'. rewrite unsubscribe_connected. apply Hc.
Qed.

Lemma disconnect_spec m ws :
  consistent m ->
  (forall ws' c', subscribed_to (disconnect ws m) ws' c'
                  <-> subscribed_to m ws' c' /\ ws' <> ws) /\
  (forall c' ws', listed_in (disconnect ws m) c' ws'
                  <-> listed_in m c' ws' /\ ws' <> ws) /\
  (forall c' s, channel_connections (disconnect ws m) !! c' = Some s ->
                s <> ∅) /\
  active_connections (disconnect ws m) !! ws = None /\
  (forall ws', ws' <> ws ->
               active_connections (disconnect ws m) !! ws'
               = active_connections m !! ws').
Proof.
  intros [Hc Hn]. unfold disconnect.
  destruct (active_connections m !! ws) as [s|] eqn:E.
  - destruct (unsubscribe_all m ws s) as (Hs & Hl & Hne & Ho & _).
    split; [|split; [|split; [|split]]].
    + intros ws' c'. unfold subscribed_to at 1. cbn.
      destruct (decide (ws' = ws)) as [->|Hd].
      * rewrite lookup_delete_eq. split; [intros (? & H & _); discriminate H|].
        tauto.
      * rewrite lookup_delete_ne by congruence.
        fold (subscribed_to
                (set_fold (_unsubscribe_internal ws) m s) ws' c').
        rewrite Hs. tauto.
    + intros c' ws'. unfold listed_in at 1. cbn.
      fold (listed_in (set_fold (_unsubscribe_internal ws) m s) c' ws').
      rewrite Hl. split.
      * intros [H Hx]. split; [exact H|]. intros ->. apply Hx.
        split; [reflexivity|]. apply Hc in H as (s' & Hs' & Hin).
        congruence.
      * intros [H Hx]. split; [exact H|]. tauto.
    + cbn. now apply Hne.
    + cbn. apply lookup_delete_eq.
    + intros ws' Hd. cbn. rewrite lookup_delete_ne by congruence.
      now apply Ho.
  - split; [|split; [|split; [|split]]].
    + intros ws' c'. split; [|tauto]. intros H. split; [exact H|].
      intros ->. destruct H as (s & H & _). congruence.
    + intros c' ws'. split; [|tauto]. intros H. split; [exact H|].
      intros ->. apply Hc in H as (s & H & _). congruence.
    + exact Hn.
    + exact E.
    + reflexivity.
Qed.

Lemma consistent_disconnect m ws :
  consistent m -> consistent (disconnect ws m).
Proof.
  intros H. destruct (disconnect_spec m ws H) as (Hs & Hl & Hn & _).
  destruct H as [Hc _]. split; [|exact Hn].
  intros ws' c'. rewrite Hs, Hl, Hc. reflexivity.
Qed.

Lemma consistent_connect m ws (channels : list string) :
  consistent m -> active_connections m !! ws = None ->
  consistent (connect ws channels m).
Proof.
  intros [Hc Hn] Hnew. unfold connect.
  assert (H0 : consistent
                 (mkConnectionManager (<[ws := ∅]> (active_connections m))
                    (channel_connections m))).
  { split; [|exact Hn]. intros ws' c'.
    transitivity (listed_in m c' ws'); [|reflexivity]. rewrite <- Hc.
    unfold subscribed_to. cbn. destruct (decide (ws' = ws)) as [->|Hd].
    - rewrite lookup_insert_eq, Hnew. split.
      + intros (s & [= <-] & Hin). set_solver.
      + intros (s & H & _). discriminate H.
    - now rewrite lookup_insert_ne by congruence. }
  revert H0. generalize (mkConnectionManager
                          (<[ws := ∅]> (active_connections m))
                          (channel_connections m)).
  induction channels as [|c l IH]; intros m0 H0; [exact H0|].
  cbn [fold_left]. apply IH. now apply consistent_subscribe.
Qed.

(** Disconnecting the sockets of a set. *)
Lemma disconnect_all m (dead : gset Z) :
  consistent m ->
  let r := set_fold disconnect m dead in
  consistent r /\
  (forall ws c, subscribed_to r ws c <-> subscribed_to m ws c /\ ws ∉ dead) /\
  (forall ws, ws ∈ dead -> active_connections r !! ws = None) /\
  (forall ws, ws ∉ dead ->
              active_connections r !! ws = active_connections m !! ws).
Proof.
  intros Hm. cbv zeta.
  apply (set_fold_ind_L
           (fun r (X : gset Z) =>
              consistent r /\
              (forall ws c, subscribed_to r ws c
                            <-> subscribed_to m ws c /\ ws ∉ X) /\
              (forall ws, ws ∈ X -> active_connections r !! ws = None) /\
              (forall ws, ws ∉ X ->
                          active_connections r !! ws
                          = active_connections m !! ws))).
  - split; [exact Hm|]. split; [|split]; [|set_solver|reflexivity].
    intros ws c. set_solver.
  - intros x X r Hx (Hr & Hs & Hd & Ho).
    destruct (disconnect_spec r x Hr) as (Hs' & _ & _ & Hx' & Ho').
    split; [now apply consistent_disconnect|]. split; [|split].
    + intros ws c. rewrite Hs', Hs. set_solver.
    + intros ws Hin. destruct (decide (ws = x)) as [->|Hne]; [exact Hx'|].
      rewrite Ho' by exact Hne. apply Hd. set_solver.
    + intros ws Hin. assert (ws <> x) by set_solver.
      rewrite Ho' by assumption. apply Ho. set_solver.
Qed.

End Disconnect.

(** X22.  The two maps of the connection manager stay in agreement: a new
    manager is consistent, and [subscribe], [unsubscribe], [disconnect] and
    the clean-up of a broadcast keep it so; [connect] keeps it so for a
    socket that is not registered yet. *)
Theorem connection_manager_consistent (m : Websocket.ConnectionManager)
    (ws : Z) (c : string) (channels : list string) (alive : Z -> bool) :
  Websocket.consistent Websocket.new /\
  (Websocket.consistent m ->
   Websocket.consistent (Websocket.subscribe ws c m) /\
   Websocket.consistent (Websocket.unsubscribe ws c m) /\
   Websocket.consistent (Websocket.disconnect ws m) /\
   Websocket.consistent (fst (Websocket._broadcast_to_channel alive c m)) /\
   (Websocket.active_connections m !! ws = None ->
    Websocket.consistent (Websocket.connect ws channels m))).
Proof.
  split; [apply consistent_new|]. intros Hm.
  split; [now apply consistent_subscribe|].
  split; [now apply consistent_unsubscribe|].
  split; [now apply consistent_disconnect|].
  split; [|now apply consistent_connect].
  unfold Websocket._broadcast_to_channel.
  destruct (Websocket.channel_connections m !! c); [|exact Hm].
  cbn [fst]. now apply disconnect_all.
Qed.

Lemma connection_manager_consistent_witness :
  Websocket.consistent
    (Websocket.disconnect 1
       (Websocket.connect 2 ["updates"]
          (Websocket.connect 1 ["batch:7"; "updates"] Websocket.new))).
Proof.
  assert (H1 : Websocket.consistent
                 (Websocket.connect 1 ["batch:7"; "updates"] Websocket.new)).
  { apply (connection_manager_consistent Websocket.new 1 "" _ (fun _ => true)).
    - apply consistent_new.
    - reflexivity. }
  assert (H2 : Websocket.consistent
                 (Websocket.connect 2 ["updates"]
                    (Websocket.connect 1 ["batch:7"; "updates"]
                       Websocket.new))).
  { apply (connection_manager_consistent _ 2 "" _ (fun _ => true));
      [exact H1 | vm_compute; reflexivity]. }
  apply (connection_manager_consistent _ 1 "" [] (fun _ => true)). exact H2.
Defined.

(** X23.  After [disconnect], in a consistent manager, the socket is not
    registered any more and no channel lists it; every other socket keeps
    its set of channels and its place in every channel. *)
Theorem disconnect_removes_socket (m : Websocket.ConnectionManager) (ws : Z) :
  Websocket.consistent m ->
  let m' := Websocket.disconnect ws m in
  Websocket.active_connections m' !! ws = None /\
  (forall c, ~ Websocket.listed_in m' c ws) /\
  (forall ws', ws' <> ws ->
               Websocket.active_connections m' !! ws'
               = Websocket.active_connections m !! ws') /\
  (forall c ws', ws' <> ws ->
                 (Websocket.listed_in m' c ws' <-> Websocket.listed_in m c ws')).
Proof.
  intros Hm. cbv zeta.
  destruct (disconnect_spec m ws Hm) as (_ & Hl & _ & Ha & Ho).
  split; [exact Ha|]. split; [|split; [exact Ho|]].
  - intros c H. apply Hl in H. tauto.
  - intros c ws' Hne. rewrite Hl. tauto.
Qed.

Lemma disconnect_removes_socket_witness :
  let m := Websocket.connect 2 ["updates"]
             (Websocket.connect 1 ["batch:7"; "updates"] Websocket.new) in
  ~ Websocket.listed_in (Websocket.disconnect 1 m) "updates" 1.
Proof.
  cbv zeta.
  assert (H : Websocket.consistent
                (Websocket.connect 2 ["updates"]
                   (Websocket.connect 1 ["batch:7"; "updates"]
                      Websocket.new))).
  { apply consistent_connect; [|vm_compute; reflexivity].
    apply consistent_connect; [apply consistent_new | reflexivity]. }
  apply (disconnect_removes_socket _ 1 H).
Defined.

(** X24.  In a consistent manager, subscribing a socket to a channel it is
    not subscribed to and unsubscribing it again gives back the very same
    manager: a channel created for the subscription is dropped again, not
    kept with an empty set. *)
Theorem subscribe_unsubscribe_round_trip (m : Websocket.ConnectionManager)
    (ws : Z) (c : string) :
  Websocket.consistent m ->
  ~ Websocket.subscribed_to m ws c ->
  Websocket.unsubscribe ws c (Websocket.subscribe ws c m) = m.
Proof.
  intros [Hc Hn] Hnot.
  assert (Hnl : ~ Websocket.listed_in m c ws) by (now rewrite <- Hc).
  unfold Websocket.unsubscribe, Websocket.subscribe.
  destruct m as [a ch]. unfold Websocket.subscribed_to, Websocket.listed_in in *.
  cbn in *.
  destruct (a !! ws) as [s|] eqn:Ea.
  - assert (Hcs : c ∉ s) by (intros Hin; apply Hnot; eauto).
    unfold Websocket._unsubscribe_internal. cbn.
    rewrite !lookup_insert_eq. f_equal.
    + rewrite insert_insert_eq.
      replace ((s ∪ {[c]}) ∖ {[c]}) with s by set_solver.
      now apply insert_id.
    + destruct (ch !! c) as [t|] eqn:Ech; cbn.
      * assert (Hws : ws ∉ t) by (intros Hin; apply Hnl; eauto).
        replace ((t ∪ {[ws]}) ∖ {[ws]}) with t by set_solver.
        destruct (decide (t = ∅)) as [->|Hne]; [destruct (Hn c ∅ Ech eq_refl)|].
        rewrite insert_insert_eq. now apply insert_id.
      * replace ((∅ ∪ {[ws]}) ∖ {[ws]}) with (∅ : gset Z) by set_solver.
        rewrite decide_True by reflexivity. now apply delete_insert_id.
  - unfold Websocket._unsubscribe_internal. cbn. rewrite Ea. f_equal.
    destruct (ch !! c) as [t|] eqn:Ech; [|reflexivity].
    assert (Hws : ws ∉ t) by (intros Hin; apply Hnl; eauto).
    replace (t ∖ {[ws]}) with t by set_solver.
    destruct (decide (t = ∅)) as [->|Hne]; [destruct (Hn c ∅ Ech eq_refl)|].
    now apply insert_id.
Qed.

Lemma subscribe_unsubscribe_round_trip_witness :
  let m := Websocket.connect 1 ["updates"] Websocket.new in
  Websocket.unsubscribe 1 "job:9" (Websocket.subscribe 1 "job:9" m) = m.
Proof.
  cbv zeta. apply subscribe_unsubscribe_round_trip.
  - apply consistent_connect; [apply consistent_new | reflexivity].
  - intros (s & Hs & Hin).
    assert (E : Websocket.active_connections
                  (Websocket.connect 1 ["updates"] Websocket.new) !! 1
                = Some {["updates"]}) by (vm_compute; reflexivity).
    rewrite E in Hs. injection Hs as <-.
    apply elem_of_singleton in Hin. discriminate Hin.
Defined.

(** X25.  A broadcast on a channel reaches exactly the subscribers of the
    channel whose send succeeds.  Every subscriber whose send fails is
    disconnected; the sockets that are not among them keep their
    subscriptions.  A broadcast on a channel nobody listens to does
    nothing. *)
Theorem broadcast_cleans_dead_sockets (m : Websocket.ConnectionManager)
    (alive : Z -> bool) (c : string) :
  Websocket.consistent m ->
  let r := Websocket._broadcast_to_channel alive c m in
  (Websocket.channel_connections m !! c = None -> r = (m, ∅)) /\
  (forall ws, ws ∈ snd r <-> Websocket.listed_in m c ws /\ alive ws = true) /\
  (forall ws, Websocket.listed_in m c ws -> alive ws = false ->
              Websocket.active_connections (fst r) !! ws = None) /\
  (forall ws, ~ (Websocket.listed_in m c ws /\ alive ws = false) ->
              Websocket.active_connections (fst r) !! ws
              = Websocket.active_connections m !! ws).
Proof.
  intros Hm. cbv zeta. unfold Websocket._broadcast_to_channel.
  destruct (Websocket.channel_connections m !! c) as [t|] eqn:E.
  - cbn [fst snd].
    assert (Hl : forall ws, Websocket.listed_in m c ws <-> ws ∈ t).
    { intros ws. unfold Websocket.listed_in. rewrite E. split.
      - intros (s & [= <-] & H). exact H.
      - eauto. }
    destruct (disconnect_all m (filter (fun ws => alive ws = false) t) Hm)
      as (_ & _ & Hd & Ho).
    split; [discriminate|]. split; [|split].
    + intros ws. rewrite elem_of_filter, Hl. tauto.
    + intros ws Hin Ha. apply Hd. apply elem_of_filter. rewrite <- Hl. tauto.
    + intros ws Hn. apply Ho. rewrite elem_of_filter, <- Hl. tauto.
  - cbn [fst snd]. split; [reflexivity|].
    assert (Hl : forall ws, ~ Websocket.listed_in m c ws).
    { intros ws (s & H & _). congruence. }
    split; [|split].
    + intros ws. split; [set_solver|]. intros [H _]. destruct (Hl ws H).
    + intros ws H. destruct (Hl ws H).
    + reflexivity.
Qed.

Lemma broadcast_cleans_dead_sockets_witness :
  let m := Websocket.connect 2 ["updates"]
             (Websocket.connect 1 ["batch:7"; "updates"] Websocket.new) in
  let r := Websocket._broadcast_to_channel (fun ws => Z.eqb ws 2) "updates" m in
  Websocket.active_connections (fst r) !! 1 = None.
Proof.
  cbv zeta.
  assert (H : Websocket.consistent
                (Websocket.connect 2 ["updates"]
                   (Websocket.connect 1 ["batch:7"; "updates"]
                      Websocket.new))).
  { apply consistent_connect; [|vm_compute; reflexivity].
    apply consistent_connect; [apply consistent_new | reflexivity]. }
  destruct (broadcast_cleans_dead_sockets _ (fun ws => Z.eqb ws 2) "updates" H)
    as (_ & _ & Hd & _).
  apply Hd; [|reflexivity].
  eexists. split; [vm_compute; reflexivity|]. set_solver.
Defined.

(** ** Broadcasts and publications *)

Section Broadcasts.

Import Websocket.

Implicit Types (m : ConnectionManager) (ws : Z) (c : string).

Variable alive : Z -> bool.

Lemma listed_in_dec m c ws : listed_in m c ws \/ ~ listed_in m c ws.
Proof.
  unfold listed_in.
  destruct (channel_connections m !! c) as [s|] eqn:E.
  - destruct (decide (ws ∈ s)) as [Hin|Hn]; [left; eauto|].
    right. intros (s' & [= <-] & H). exact (Hn H).
  - right. intros (s' & H & _). discriminate H.
Qed.

(** One broadcast: who it reached, and what its clean-up leaves. *)
Lemma broadcast_spec m c :
  consistent m ->
  let r := _broadcast_to_channel alive c m in
  consistent (fst r) /\
  (forall ws, ws ∈ snd r <-> listed_in m c ws /\ alive ws = true) /\
  (forall c' ws, listed_in (fst r) c' ws
                 <-> listed_in m c' ws
                     /\ ~ (listed_in m c ws /\ alive ws = false)) /\
  (forall ws, listed_in m c ws -> alive ws = false ->
              active_connections (fst r) !! ws = None) /\
  (forall ws, ~ (listed_in m c ws /\ alive ws = false) ->
              active_connections (fst r) !! ws = active_connections m !! ws).
Proof.
  intros Hm. cbv zeta. unfold _broadcast_to_channel.
  destruct (channel_connections m !! c) as [t|] eqn:E; cbn [fst snd].
  - assert (Hl : forall ws, listed_in m c ws <-> ws ∈ t).
    { intros ws. unfold listed_in. rewrite E. split.
      - intros (s & [= <-] & H). exact H.
      - eauto. }
    destruct (disconnect_all m (filter (fun ws => alive ws = false) t) Hm)
      as (Hr & Hs & Hd & Ho).
    split; [exact Hr|]. split; [|split; [|split]].
    + intros ws. rewrite elem_of_filter, Hl. tauto.
    + intros c' ws. destruct Hr as [Hr _]. destruct Hm as [Hm _].
      rewrite <- Hr, Hs, Hm, elem_of_filter, Hl. tauto.
    + intros ws Hin Ha. apply Hd. apply elem_of_filter. rewrite <- Hl. tauto.
    + intros ws Hn. apply Ho. rewrite elem_of_filter, <- Hl. tauto.
  - assert (Hl : forall ws, ~ listed_in m c ws).
    { intros ws (s & H & _). congruence. }
    split; [exact Hm|]. split; [|split; [|split]].
    + intros ws. split; [set_solver|]. intros [H _]. destruct (Hl ws H).
    + intros c' ws. specialize (Hl ws). tauto.
    + intros ws H. destruct (Hl ws H).
    + reflexivity.
Qed.

(** Broadcasts one after the other: the clean-up of one only removes
    sockets the next ones could not have reached. *)
Lemma broadcast_each_spec (channels : list string) : forall m,
  consistent m ->
  let r := broadcast_each alive channels m in
  consistent (fst r) /\
  Forall2 (fun c (sent : string * gset Z) =>
             fst sent = c /\
             forall ws, ws ∈ snd sent <-> listed_in m c ws /\ alive ws = true)
          channels (snd r) /\
  (forall c ws, listed_in (fst r) c ws -> listed_in m c ws) /\
  (forall c ws, alive ws = true -> listed_in m c ws -> listed_in (fst r) c ws) /\
  (forall ws, alive ws = true ->
              active_connections (fst r) !! ws = active_connections m !! ws) /\
  (forall ws, active_connections m !! ws = None ->
              active_connections (fst r) !! ws = None) /\
  (forall c ws, In c channels -> listed_in m c ws -> alive ws = false ->
                active_connections (fst r) !! ws = None).
Proof.
  induction channels as [|c cs IH]; intros m Hm; cbv zeta.
  - cbn. split; [exact Hm|]. split; [constructor|].
    repeat split; auto. intros c ws [].
  - cbn [broadcast_each fst snd].
    destruct (broadcast_spec m c Hm) as (Hc & Hsent & Hl & Hd & Ho).
    destruct (IH _ Hc) as (Hc' & Hall & Hsub & Hlive & Hact & Hnone & Hdead).
    split; [exact Hc'|]. split; [|split; [|split; [|split; [|split]]]].
    + constructor; [split; [reflexivity | exact Hsent]|].
      eapply Forall2_impl; [exact Hall|].
      intros c' sent [Hfst Hin]. split; [exact Hfst|].
      intros ws. rewrite Hin, Hl. split; [tauto|].
      intros [H1 H2]. repeat split; [exact H1| |exact H2]. intros [_ H3].
      congruence.
    + intros c' ws H. apply Hsub in H. apply Hl in H. tauto.
    + intros c' ws Ha H. apply Hlive; [exact Ha|]. apply Hl.
      split; [exact H|]. intros [_ H3]. congruence.
    + intros ws Ha. rewrite Hact by exact Ha. apply Ho.
      intros [_ H3]. congruence.
    + intros ws Hn. apply Hnone.
      destruct (listed_in_dec m c ws) as [Hin|Hnin];
        destruct (alive ws) eqn:Ea.
      * rewrite Ho; [exact Hn|]. intros [_ H3]. congruence.
      * now apply Hd.
      * rewrite Ho; [exact Hn|]. tauto.
      * rewrite Ho; [exact Hn|]. tauto.
    + intros c' ws [<-|Hin] Hlisted Ha.
      * apply Hnone. now apply Hd.
      * destruct (listed_in_dec m c ws) as [Hc0|Hc0].
        -- apply Hnone. now apply Hd.
        -- apply (Hdead c' ws Hin); [|exact Ha]. apply Hl. tauto.
Qed.

End Broadcasts.

(** X26.  [broadcast_to_all] reaches exactly the registered sockets whose
    send succeeds and disconnects the others: afterwards the registered
    sockets are the ones it reached, each with the channels it had, and
    the two maps agree.  [send_personal] leaves the manager as it is when
    the send succeeds and disconnects the socket when it fails. *)
Theorem broadcast_to_all_keeps_live_sockets (m : Websocket.ConnectionManager)
    (alive : Z -> bool) :
  Websocket.consistent m ->
  let r := Websocket.broadcast_to_all alive m in
  Websocket.consistent (fst r) /\
  (forall ws, ws ∈ snd r
              <-> is_Some (Websocket.active_connections m !! ws)
                  /\ alive ws = true) /\
  (forall ws, Websocket.active_connections (fst r) !! ws
              = if alive ws then Websocket.active_connections m !! ws
                else None) /\
  (forall ws, let p := Websocket.send_personal alive ws m in
              Websocket.consistent (fst p) /\
              snd p = alive ws /\
              (alive ws = true -> fst p = m) /\
              (alive ws = false ->
               Websocket.active_connections (fst p) !! ws = None)).
Proof.
  intros Hm. cbv zeta. unfold Websocket.broadcast_to_all. cbn [fst snd].
  destruct (disconnect_all m
              (filter (fun ws => alive ws = false)
                 (dom (Websocket.active_connections m))) Hm)
    as (Hr & _ & Hd & Ho).
  split; [exact Hr|]. split; [|split].
  - intros ws. rewrite elem_of_filter, elem_of_dom. tauto.
  - intros ws. destruct (alive ws) eqn:Ea.
    + apply Ho. rewrite elem_of_filter. intros [H _]. congruence.
    + destruct (Websocket.active_connections m !! ws) as [s|] eqn:E.
      * apply Hd. rewrite elem_of_filter, elem_of_dom, E. split; eauto.
      * rewrite Ho; [exact E|].
        rewrite elem_of_filter, elem_of_dom, E. intros [_ [x Hx]].
        discriminate Hx.
  - intros ws. unfold Websocket.send_personal.
    destruct (alive ws) eqn:Ea; cbn [fst snd].
    + split; [exact Hm|]. split; [reflexivity|].
      split; [reflexivity | discriminate].
    + split; [now apply consistent_disconnect|]. split; [reflexivity|].
      split; [discriminate|]. intros _.
      now destruct (disconnect_spec m ws Hm) as (_ & _ & _ & Ha & _).
Qed.

Lemma broadcast_to_all_keeps_live_sockets_witness :
  let m := Websocket.connect 2 ["updates"]
             (Websocket.connect 1 ["batch:7"; "updates"] Websocket.new) in
  let r := Websocket.broadcast_to_all (fun ws => Z.eqb ws 2) m in
  Websocket.active_connections (fst r) !! 1 = None /\
  Websocket.active_connections (fst r) !! 2
  = Websocket.active_connections m !! 2.
Proof.
  cbv zeta.
  assert (H : Websocket.consistent
                (Websocket.connect 2 ["updates"]
                   (Websocket.connect 1 ["batch:7"; "updates"]
                      Websocket.new))).
  { apply consistent_connect; [|vm_compute; reflexivity].
    apply consistent_connect; [apply consistent_new | reflexivity]. }
  destruct (broadcast_to_all_keeps_live_sockets _ (fun ws => Z.eqb ws 2) H)
    as (_ & _ & Ha & _).
  split; [exact (Ha 1) | exact (Ha 2)].
Defined.

(** X27.  Without Redis, [publish_job_update] broadcasts on the job's
    channel, on the batch's channel when there is a batch, and on
    ["updates"], in this order; each broadcast reaches exactly the live
    subscribers the channel had before the call, although the clean-up of
    an earlier broadcast changes the manager the later ones run on.  Live
    sockets stay registered, the dead subscribers of these channels are
    disconnected, and the two maps still agree.  Nothing goes to Redis. *)
Theorem publish_job_update_local_delivery (alive : Z -> bool) (now : Z)
    (job_id : string) (batch_id : option string) (episode_id status : string)
    (progress : Z) (current_step : string) (error_message : option string)
    (m : Websocket.ConnectionManager) :
  Websocket.consistent m ->
  let p := Websocket.publish_job_update alive None now job_id batch_id
             episode_id status progress current_step error_message m in
  let channels :=
    ([("job:" ++ job_id)%string]
     ++ match batch_id with
        | Some b => if String.eqb b "" then [] else [("batch:" ++ b)%string]
        | None => []
        end
     ++ ["updates"])%list in
  Websocket.redis_channels p = [] /\
  fst <$> Websocket.local p = channels /\
  (forall c sent ws, In (c, sent) (Websocket.local p) ->
                     (ws ∈ sent
                      <-> Websocket.listed_in m c ws /\ alive ws = true)) /\
  Websocket.consistent (Websocket.manager p) /\
  (forall ws, alive ws = true ->
              Websocket.active_connections (Websocket.manager p) !! ws
              = Websocket.active_connections m !! ws) /\
  (forall c ws, In c channels -> Websocket.listed_in m c ws ->
                alive ws = false ->
                Websocket.active_connections (Websocket.manager p) !! ws
                = None).
Proof.
  intros Hm. cbv zeta. unfold Websocket.publish_job_update.
  cbn [Websocket.redis_channels Websocket.local Websocket.manager].
  change (match batch_id with
          | Some b => if String.eqb b "" then [] else ["batch:" ++ b]
          | None => []
          end) with (Websocket.batch_channel "batch:" batch_id).
  set (channels := ([("job:" ++ job_id)%string]
                    ++ Websocket.batch_channel "batch:" batch_id
                    ++ ["updates"])%list).
  destruct (broadcast_each_spec alive channels m Hm)
    as (Hc & Hall & _ & _ & Hact & _ & Hdead).
  split; [reflexivity|]. split; [|split; [|split; [exact Hc|split]]].
  - clear -Hall. induction Hall as [|c sent cs l [Hf _] _ IH]; [reflexivity|].
    rewrite fmap_cons. now f_equal.
  - intros c sent ws Hin. clear -Hall Hin.
    induction Hall as [|c0 sent0 cs l [Hf Hs] _ IH]; [destruct Hin|].
    destruct Hin as [->|Hin]; [|exact (IH Hin)].
    cbn in Hf, Hs. subst c0. exact (Hs ws).
  - exact Hact.
  - exact Hdead.
Qed.

Lemma publish_job_update_local_delivery_witness :
  let m := Websocket.connect 2 ["updates"]
             (Websocket.connect 1 ["job:9"; "updates"] Websocket.new) in
  let p := Websocket.publish_job_update (fun ws => Z.eqb ws 2) None 0 "9"
             (Some "7") "42" "transcribing" 50 "" None m in
  fst <$> Websocket.local p = ["job:9"; "batch:7"; "updates"] /\
  Websocket.active_connections (Websocket.manager p) !! 1 = None.
Proof.
  cbv zeta.
  assert (H : Websocket.consistent
                (Websocket.connect 2 ["updates"]
                   (Websocket.connect 1 ["job:9"; "updates"]
                      Websocket.new))).
  { apply consistent_connect; [|vm_compute; reflexivity].
    apply consistent_connect; [apply consistent_new | reflexivity]. }
  destruct (publish_job_update_local_delivery (fun ws => Z.eqb ws 2) 0 "9"
              (Some "7") "42" "transcribing" 50 "" None _ H)
    as (_ & Hch & _ & _ & _ & Hdead).
  split; [exact Hch|].
  apply (Hdead "job:9" 1); [left; reflexivity| |reflexivity].
  eexists. split; [vm_compute; reflexivity|]. set_solver.
Defined.

(** X28.  The percentage [publish_batch_update] puts in its message counts
    the failed episodes as progress, the [progress_percent] of the batch row
    does not: for counts with [0 <= completed], [0 <= failed] and
    [completed + failed <= total], both lie between 0 and 100, the published
    one is never the smaller, they agree exactly when no episode has failed,
    and the published one is 100 once every episode is completed or
    failed. *)
Theorem published_progress_counts_failures (alive : Z -> bool)
    (redis_client : option (string -> bool)) (now : Z)
    (batch_id status : string) (b : Batch.t)
    (m : Websocket.ConnectionManager) :
  0 <= Batch.completed_episodes b ->
  0 <= Batch.failed_episodes b ->
  Batch.completed_episodes b + Batch.failed_episodes b
  <= Batch.total_episodes b ->
  let published :=
    Websocket.BatchUpdate.progress_percent
      (Websocket.message
         (Websocket.publish_batch_update alive redis_client now batch_id
            status (Batch.completed_episodes b) (Batch.failed_episodes b)
            (Batch.total_episodes b) m)) in
  exists p,
    progress_percent b = Returns p /\
    (0 <= p)%Q /\ (p <= published)%Q /\ (published <= 100)%Q /\
    ((p == published)%Q <-> Batch.failed_episodes b = 0) /\
    (0 < Batch.total_episodes b ->
     Batch.completed_episodes b + Batch.failed_episodes b
     = Batch.total_episodes b ->
     (published == 100)%Q).
Proof.
  intros Hc Hf Hsum. cbv zeta.
  assert (Hmsg : forall r,
             Websocket.BatchUpdate.progress_percent
               (Websocket.message
                  (Websocket.publish_batch_update alive r now batch_id status
                     (Batch.completed_episodes b) (Batch.failed_episodes b)
                     (Batch.total_episodes b) m))
             = if Z.ltb 0 (Batch.total_episodes b)
               then (inject_Z (Batch.completed_episodes b
                               + Batch.failed_episodes b)
                     / inject_Z (Batch.total_episodes b) * 100)%Q
               else 0%Q).
  { intros [ok|]; reflexivity. }
  rewrite Hmsg. clear Hmsg. unfold progress_percent, truediv.
  revert Hc Hf Hsum.
  generalize (Batch.completed_episodes b) (Batch.failed_episodes b).
  intros c f Hc Hf Hsum.
  destruct (Batch.total_episodes b) as [|t|t]; [| |lia].
  - assert (c = 0) by lia. assert (f = 0) by lia. subst. cbn.
    exists 0%Q. repeat split; try (intros; lia); try reflexivity;
      unfold Qle; cbn; lia.
  - cbn [Z.eqb Z.ltb Z.compare]. eexists. split; [reflexivity|].
    unfold Qle, Qeq, Qdiv, Qmult, Qinv, inject_Z. cbn.
    repeat split; intros; nia.
Qed.

Lemma published_progress_counts_failures_witness :
  let b := Sample.batch "running" 1 2 (Some 2) None in
  let published :=
    Websocket.BatchUpdate.progress_percent
      (Websocket.message
         (Websocket.publish_batch_update (fun _ => true) None 0 "7" "running"
            (Batch.completed_episodes b) (Batch.failed_episodes b)
            (Batch.total_episodes b) Websocket.new)) in
  exists p, progress_percent b = Returns p /\ (p <= published)%Q.
Proof.
  cbv zeta.
  destruct (published_progress_counts_failures (fun _ => true) None 0 "7"
              "running" (Sample.batch "running" 1 2 (Some 2) None)
              Websocket.new)
    as (p & Hp & _ & Hle & _); [cbn; lia | cbn; lia | cbn; lia |].
  exists p. split; [exact Hp | exact Hle].
Defined.
